(** * Address-book assistant (homework2/main.py)

    A shallow embedding of the contact manager: the validated fields
    [Phone] and [Birthday], the [Record_] of one contact, the
    [AddressBook] with its upcoming-birthday query, the [input_error]
    decorator and the command handlers.

    Python values are modelled as follows.
    - [str] is a list of Unicode code points.
    - An exception is a value of [exn]; a method is a computation in the
      state-and-exception monad [M], so a mutation made before a [raise]
      stays visible afterwards, as in Python.
    - Objects whose identity matters ([Phone], compared by [in] and
      [list.remove] without an [__eq__]) carry the identity given to them
      by the allocator.
    - [datetime] follows the fields and the algorithms of CPython's
      [datetime] module. *)

From Stdlib Require Import ZArith NArith List Lia Bool String Ascii.
Import ListNotations.

(** ** Python strings *)

Module PyStr.

Definition str := list N.

(** An ASCII literal of the source as a [str]. *)
Definition lit (s : string) : str :=
  map N_of_ascii (list_ascii_of_string s).

Fixpoint str_eqb (a b : str) : bool :=
  match a, b with
  | [], [] => true
  | x :: a', y :: b' => N.eqb x y && str_eqb a' b'
  | _, _ => false
  end.

Definition in_ranges (table : list (N * N)) (c : N) : bool :=
  existsb (fun r => N.leb (fst r) c && N.leb c (snd r)) table.

(** Code points with Numeric_Type Digit or Decimal (Unicode 14.0), the
    characters accepted by [str.isdigit]. *)
Definition digit_ranges : list (N * N) :=
  [(48, 57); (178, 179); (185, 185); (1632, 1641); (1776, 1785);
   (1984, 1993); (2406, 2415); (2534, 2543); (2662, 2671); (2790, 2799);
   (2918, 2927); (3046, 3055); (3174, 3183); (3302, 3311); (3430, 3439);
   (3558, 3567); (3664, 3673); (3792, 3801); (3872, 3881); (4160, 4169);
   (4240, 4249); (4969, 4977); (6112, 6121); (6160, 6169); (6470, 6479);
   (6608, 6618); (6784, 6793); (6800, 6809); (6992, 7001); (7088, 7097);
   (7232, 7241); (7248, 7257); (8304, 8304); (8308, 8313); (8320, 8329);
   (9312, 9320); (9332, 9340); (9352, 9360); (9450, 9450); (9461, 9469);
   (9471, 9471); (10102, 10110); (10112, 10120); (10122, 10130);
   (42528, 42537); (43216, 43225); (43264, 43273); (43472, 43481);
   (43504, 43513); (43600, 43609); (44016, 44025); (65296, 65305);
   (66720, 66729); (68160, 68163); (68912, 68921); (69216, 69224);
   (69714, 69722); (69734, 69743); (69872, 69881); (69942, 69951);
   (70096, 70105); (70384, 70393); (70736, 70745); (70864, 70873);
   (71248, 71257); (71360, 71369); (71472, 71481); (71904, 71913);
   (72016, 72025); (72784, 72793); (73040, 73049); (73120, 73129);
   (92768, 92777); (92864, 92873); (93008, 93017); (120782, 120831);
   (123200, 123209); (123632, 123641); (125264, 125273);
   (127232, 127242); (130032, 130041)]%N.

(** Code points of general category Nd (Unicode 14.0): [str.isdecimal],
    the class [\d] of [re], and the digits [int] converts.  Every run
    starts at a digit zero and counts upwards. *)
Definition decimal_ranges : list (N * N) :=
  [(48, 57); (1632, 1641); (1776, 1785); (1984, 1993); (2406, 2415);
   (2534, 2543); (2662, 2671); (2790, 2799); (2918, 2927); (3046, 3055);
   (3174, 3183); (3302, 3311); (3430, 3439); (3558, 3567); (3664, 3673);
   (3792, 3801); (3872, 3881); (4160, 4169); (4240, 4249); (6112, 6121);
   (6160, 6169); (6470, 6479); (6608, 6617); (6784, 6793); (6800, 6809);
   (6992, 7001); (7088, 7097); (7232, 7241); (7248, 7257); (42528, 42537);
   (43216, 43225); (43264, 43273); (43472, 43481); (43504, 43513);
   (43600, 43609); (44016, 44025); (65296, 65305); (66720, 66729);
   (68912, 68921); (69734, 69743); (69872, 69881); (69942, 69951);
   (70096, 70105); (70384, 70393); (70736, 70745); (70864, 70873);
   (71248, 71257); (71360, 71369); (71472, 71481); (71904, 71913);
   (72016, 72025); (72784, 72793); (73040, 73049); (73120, 73129);
   (92768, 92777); (92864, 92873); (93008, 93017); (120782, 120831);
   (123200, 123209); (123632, 123641); (125264, 125273);
   (130032, 130041)]%N.

Definition char_isdigit (c : N) : bool := in_ranges digit_ranges c.
Definition char_isdecimal (c : N) : bool := in_ranges decimal_ranges c.

(** [str.isdigit]: every character is a digit and there is at least one. *)
Definition isdigit (s : str) : bool :=
  match s with
  | [] => false
  | _ => forallb char_isdigit s
  end.

(** The ten characters [0] to [9]. *)
Definition ascii_digit (c : N) : bool := N.leb 48 c && N.leb c 57.

(** Value of a decimal digit character, as [int] reads it. *)
Definition char_todecimal (c : N) : option Z :=
  match find (fun r => N.leb (fst r) c && N.leb c (snd r)) decimal_ranges with
  | Some r => Some (Z.of_N ((c - fst r) mod 10))
  | None => None
  end.

(** [str(n)] for an integer: its decimal digits, most significant
    first, after the sign. *)
Fixpoint digits_fuel (fuel : nat) (n : Z) (acc : str) : str :=
  match fuel with
  | O => acc
  | S fuel' =>
      let acc' := Z.to_N (48 + n mod 10) :: acc in
      if Z.ltb n 10 then acc' else digits_fuel fuel' (n / 10) acc'
  end.

Definition str_of_int (n : Z) : str :=
  if Z.ltb n 0
  then 45%N :: digits_fuel (S (Z.to_nat (Z.log2 (- n)))) (- n) []
  else digits_fuel (S (Z.to_nat (Z.log2 n))) n [].

(** [s.zfill(width)], the zero padding of [%02d] and [%04d]. *)
Definition zfill (width : nat) (s : str) : str :=
  repeat 48%N (width - List.length s) ++ s.

End PyStr.
Import PyStr.

(** ** Exceptions and the method monad *)

Inductive exn : Type :=
| ValueError (msg : str)
| IndexError (msg : str)
| KeyError (msg : str)
| OverflowError (msg : str).

(** [str(e)] *)
Definition exn_str (e : exn) : str :=
  match e with
  | ValueError m | IndexError m | KeyError m | OverflowError m => m
  end.

(** A computation over a mutable state [S] that returns an [A] or raises. *)
Definition M (S A : Type) : Type := S -> (exn + A) * S.

Definition ret {S A} (a : A) : M S A := fun s => (inr a, s).
Definition raise {S A} (e : exn) : M S A := fun s => (inl e, s).
Definition bind {S A B} (m : M S A) (k : A -> M S B) : M S B :=
  fun s =>
    match m s with
    | (inr a, s') => k a s'
    | (inl e, s') => (inl e, s')
    end.
Definition get {S} : M S S := fun s => (inr s, s).
Definition put {S} (s : S) : M S unit := fun _ => (inr tt, s).

Declare Scope py_scope.
Delimit Scope py_scope with py.
Notation "x <- c1 ;; c2" := (bind c1 (fun x => c2))
  (at level 61, c1 at next level, right associativity) : py_scope.
Notation "c1 ;; c2" := (bind c1 (fun _ => c2))
  (at level 61, right associativity) : py_scope.
Open Scope py_scope.

(** Run a computation on a component of a larger state. *)
Definition zoom {S T A} (proj : S -> T) (upd : T -> S -> S) (m : M T A)
  : M S A :=
  fun s => let (r, t') := m (proj s) in (r, upd t' s).

(** ** The [datetime] library

    Fields, constants and algorithms of CPython's [datetime]
    ([_ymd2ord], [_ord2ymd], [_check_date_fields], [__add__], [_cmp]),
    restricted to what the program calls. *)

Module Datetime.
Local Open Scope Z_scope.

Definition MINYEAR : Z := 1.
Definition MAXYEAR : Z := 9999.
Definition MAXORDINAL : Z := 3652059.

Definition DAYS_IN_MONTH : list Z :=
  [-1; 31; 28; 31; 30; 31; 30; 31; 31; 30; 31; 30; 31].
Definition DAYS_BEFORE_MONTH : list Z :=
  [-1; 0; 31; 59; 90; 120; 151; 181; 212; 243; 273; 304; 334].

Definition is_leap (year : Z) : bool :=
  (year mod 4 =? 0) && (negb (year mod 100 =? 0) || (year mod 400 =? 0)).

Definition days_before_year (year : Z) : Z :=
  let y := year - 1 in
  y * 365 + y / 4 - y / 100 + y / 400.

Definition days_in_month (year month : Z) : Z :=
  if (month =? 2) && is_leap year then 29
  else nth (Z.to_nat month) DAYS_IN_MONTH 0.

Definition days_before_month (year month : Z) : Z :=
  nth (Z.to_nat month) DAYS_BEFORE_MONTH 0
  + (if (2 <? month) && is_leap year then 1 else 0).

Definition ymd2ord (year month day : Z) : Z :=
  days_before_year year + days_before_month year month + day.

Definition DI400Y : Z := 146097.
Definition DI100Y : Z := 36524.
Definition DI4Y : Z := 1461.

Definition ord2ymd (n0 : Z) : Z * Z * Z :=
  let n := n0 - 1 in
  let n400 := n / DI400Y in
  let n := n mod DI400Y in
  let year := n400 * 400 + 1 in
  let n100 := n / DI100Y in
  let n := n mod DI100Y in
  let n4 := n / DI4Y in
  let n := n mod DI4Y in
  let n1 := n / 365 in
  let n := n mod 365 in
  let year := year + n100 * 100 + n4 * 4 + n1 in
  if (n1 =? 4) || (n100 =? 4) then (year - 1, 12, 31)
  else
    let leapyear := (n1 =? 3) && (negb (n4 =? 24) || (n100 =? 3)) in
    let month := Z.shiftr (n + 50) 5 in
    let preceding :=
      nth (Z.to_nat month) DAYS_BEFORE_MONTH 0
      + (if (2 <? month) && leapyear then 1 else 0) in
    if n <? preceding then
      let month := month - 1 in
      let preceding :=
        preceding
        - (nth (Z.to_nat month) DAYS_IN_MONTH 0
           + (if (month =? 2) && leapyear then 1 else 0)) in
      (year, month, n - preceding + 1)
    else (year, month, n - preceding + 1).

(** A naive [datetime] object. *)
Record datetime : Type := mkdatetime {
  year : Z; month : Z; day : Z;
  hour : Z; minute : Z; second : Z; microsecond : Z
}.

(** The range checks of the constructor; every [datetime] object the
    program can hold satisfies them. *)
Definition check_date_fields (y m d : Z) : exn + unit :=
  if negb ((MINYEAR <=? y) && (y <=? MAXYEAR))
  then inl (ValueError (lit "year " ++ str_of_int y ++ lit " is out of range"))
  else if negb ((1 <=? m) && (m <=? 12))
  then inl (ValueError (lit "month must be in 1..12"))
  else if negb ((1 <=? d) && (d <=? days_in_month y m))
  then inl (ValueError (lit "day is out of range for month"))
  else inr tt.

Definition check_time_fields (h mi s us : Z) : bool :=
  (0 <=? h) && (h <=? 23) && (0 <=? mi) && (mi <=? 59)
  && (0 <=? s) && (s <=? 59) && (0 <=? us) && (us <=? 999999).

Definition valid (dt : datetime) : Prop :=
  check_date_fields (year dt) (month dt) (day dt) = inr tt
  /\ check_time_fields (hour dt) (minute dt) (second dt) (microsecond dt)
     = true.

(** [dt.replace(year=y)] *)
Definition replace_year (dt : datetime) (y : Z) : exn + datetime :=
  match check_date_fields y (month dt) (day dt) with
  | inl e => inl e
  | inr _ =>
      inr (mkdatetime y (month dt) (day dt)
             (hour dt) (minute dt) (second dt) (microsecond dt))
  end.

Definition toordinal (dt : datetime) : Z :=
  ymd2ord (year dt) (month dt) (day dt).

(** Monday is 0, Sunday is 6. *)
Definition weekday (dt : datetime) : Z := (toordinal dt + 6) mod 7.

(** [timedelta(days=n)]; only the day component is ever set. *)
Record timedelta : Type := mktimedelta { td_days : Z }.

Definition timedelta_days (n : Z) : exn + timedelta :=
  if 999999999 <? Z.abs n
  then inl (OverflowError
              (lit "days=" ++ str_of_int n
               ++ lit "; must have magnitude <= 999999999"))
  else inr (mktimedelta n).

(** [dt + delta]: the sum is formed on (ordinal, seconds of the day,
    microseconds) and converted back. *)
Definition add (dt : datetime) (delta : timedelta) : exn + datetime :=
  let days := toordinal dt + td_days delta in
  let seconds := hour dt * 3600 + minute dt * 60 + second dt in
  let h := seconds / 3600 in
  let rem := seconds mod 3600 in
  let mi := rem / 60 in
  let s := rem mod 60 in
  if (0 <? days) && (days <=? MAXORDINAL)
  then
    let '(y, m, d) := ord2ymd days in
    inr (mkdatetime y m d h mi s (microsecond dt))
  else inl (OverflowError (lit "date value out of range")).

(** Comparison of naive datetimes: the tuples of fields, lexicographically. *)
Definition astuple (dt : datetime) : list Z :=
  [year dt; month dt; day dt; hour dt; minute dt; second dt; microsecond dt].

Fixpoint cmp (a b : list Z) : comparison :=
  match a, b with
  | [], [] => Eq
  | [], _ :: _ => Lt
  | _ :: _, [] => Gt
  | x :: a', y :: b' =>
      match x ?= y with
      | Eq => cmp a' b'
      | c => c
      end
  end.

Definition lt (a b : datetime) : bool :=
  match cmp (astuple a) (astuple b) with Lt => true | _ => false end.
Definition le (a b : datetime) : bool :=
  match cmp (astuple a) (astuple b) with Gt => false | _ => true end.

(** *** [strptime(s, "%d.%m.%Y")]

    The format compiles to the regular expression
    [(?P<d>3[0-1]|[1-2]\d|0[1-9]|[1-9]| [1-9])\.(?P<m>1[0-2]|0[1-9]|[1-9])\.(?P<Y>\d\d\d\d)],
    matched at the start of the string by a backtracking matcher; a
    matcher is modelled by the list of its successes in the order the
    backtracking tries them. *)

Definition pattern (A : Type) : Type := str -> list (A * str).

Definition class (f : N -> bool) : pattern str :=
  fun s => match s with
           | c :: rest => if f c then [([c], rest)] else []
           | [] => []
           end.
Definition range (lo hi : N) : pattern str :=
  class (fun c => N.leb lo c && N.leb c hi).
Definition chr (c0 : N) : pattern str := class (N.eqb c0).
Definition re_digit : pattern str := class char_isdecimal.

Definition cat (p q : pattern str) : pattern str :=
  fun s =>
    flat_map (fun '(a, r) => map (fun '(b, r') => (a ++ b, r')) (q r)) (p s).
Definition alt (p q : pattern str) : pattern str :=
  fun s => p s ++ q s.

Definition group_d : pattern str :=
  alt (cat (chr 51) (range 48 49))
  (alt (cat (range 49 50) re_digit)
  (alt (cat (chr 48) (range 49 57))
  (alt (range 49 57)
       (cat (chr 32) (range 49 57))))).

Definition group_m : pattern str :=
  alt (cat (chr 49) (range 48 50))
  (alt (cat (chr 48) (range 49 57))
       (range 49 57)).

Definition group_Y : pattern str :=
  cat re_digit (cat re_digit (cat re_digit re_digit)).

Definition format_regex : pattern (str * str * str) :=
  fun s =>
    flat_map (fun '(d, r1) =>
    flat_map (fun '(_, r2) =>
    flat_map (fun '(m, r3) =>
    flat_map (fun '(_, r4) =>
    map (fun '(Y, r5) => ((d, m, Y), r5)) (group_Y r4))
      (chr 46 r3)) (group_m r2)) (chr 46 r1)) (group_d s).

(** [int(s)] on a matched group: an optional leading blank, then decimal
    digits of any script. *)
Fixpoint int_digits (acc : Z) (s : str) : option Z :=
  match s with
  | [] => Some acc
  | c :: rest =>
      match char_todecimal c with
      | Some v => int_digits (acc * 10 + v) rest
      | None => None
      end
  end.

Definition int (s : str) : option Z :=
  match s with
  | [] => None
  | c :: rest =>
      if N.eqb c 32 && negb (Nat.eqb (List.length rest) 0)
      then int_digits 0 rest
      else int_digits 0 s
  end.

(** [None] stands for the [ValueError] of [strptime]: no match,
    unconverted data after the match, or field values that are no date.
    The one caller replaces the message. *)
Definition strptime (data_string : str) : option datetime :=
  match format_regex data_string with
  | [] => None
  | ((d, m, Y), rest) :: _ =>
      match rest with
      | _ :: _ => None
      | [] =>
          match int Y, int m, int d with
          | Some y, Some mo, Some da =>
              match check_date_fields y mo da with
              | inr _ => Some (mkdatetime y mo da 0 0 0 0)
              | inl _ => None
              end
          | _, _, _ => None
          end
      end
  end.

(** *** [dt.strftime("%d.%m.%Y")]

    [%d] and [%m] are zero-padded to two digits.  [%Y] is rendered by
    the C library: glibc prints the year without padding, other
    platforms pad it to four digits. *)

Inductive libc : Type := Glibc | PaddedYear.

Definition strftime_Y (platform : libc) (y : Z) : str :=
  match platform with
  | Glibc => str_of_int y
  | PaddedYear => zfill 4 (str_of_int y)
  end.

Definition strftime (platform : libc) (dt : datetime) : str :=
  zfill 2 (str_of_int (day dt)) ++ lit "."
  ++ zfill 2 (str_of_int (month dt)) ++ lit "."
  ++ strftime_Y platform (year dt).

End Datetime.

(** ** Fields *)

(** A [Phone] object: its identity and its [value]. *)
Record Phone : Type := mkPhone { phone_id : nat; phone_value : str }.

(** [a is b] *)
Definition Phone_is (a b : Phone) : bool := Nat.eqb (phone_id a) (phone_id b).

(** [a == b].  [Phone] and [Field] define no [__eq__], so the comparison
    is [object.__eq__]: identity. *)
Definition Phone_eq (a b : Phone) : bool := Phone_is a b.

(** [str(phone)] *)
Definition Phone_str (p : Phone) : str := phone_value p.

(** [Phone(value)]; the state is the allocator of object identities. *)
Definition Phone_init (value : str) : M nat Phone :=
  if negb (isdigit value) || negb (Nat.eqb (List.length value) 10)
  then raise (ValueError (lit "Phone number must contain exactly 10 digits."))
  else fun next => (inr (mkPhone next value), S next).

Record Birthday : Type := mkBirthday { birthday_value : Datetime.datetime }.

(** [Birthday(value)] *)
Definition Birthday_init (value : str) : exn + Birthday :=
  match Datetime.strptime value with
  | Some dt => inr (mkBirthday dt)
  | None => inl (ValueError (lit "Invalid date format. Use DD.MM.YYYY"))
  end.

(** [str(birthday)] *)
Definition Birthday_str (platform : Datetime.libc) (b : Birthday) : str :=
  Datetime.strftime platform (birthday_value b).

(** ** Record *)

Record Record_ : Type := mkRecord {
  name : str;
  phones : list Phone;
  birthday : option Birthday
}.

(** [Record(name)] *)
Definition Record_init (name : str) : Record_ := mkRecord name [] None.

(** The state a method of a record runs in: the allocator and [self]. *)
Record RecordState : Type := mkRS { alloc : nat; self : Record_ }.

Definition with_alloc {A} (m : M nat A) : M RecordState A :=
  zoom alloc (fun n s => mkRS n (self s)) m.

Definition set_phones (l : list Phone) : M RecordState unit :=
  fun s => (inr tt,
            mkRS (alloc s) (mkRecord (name (self s)) l (birthday (self s)))).

Definition set_birthday (b : Birthday) : M RecordState unit :=
  fun s => (inr tt,
            mkRS (alloc s) (mkRecord (name (self s)) (phones (self s)) (Some b))).

(** [x in l] on a list: some element is [x] or equals [x]. *)
Definition list_contains (x : Phone) (l : list Phone) : bool :=
  existsb (fun y => Phone_is y x || Phone_eq y x) l.

(** [l.remove(x)]: drops the first element that is [x] or equals [x]. *)
Fixpoint list_remove (x : Phone) (l : list Phone) : exn + list Phone :=
  match l with
  | [] => inl (ValueError (lit "list.remove(x): x not in list"))
  | y :: t =>
      if Phone_is y x || Phone_eq y x then inr t
      else match list_remove x t with
           | inr t' => inr (y :: t')
           | inl e => inl e
           end
  end.

Definition add_phone (phone_number : str) : M RecordState unit :=
  phone <- with_alloc (Phone_init phone_number) ;;
  s <- get ;;
  if negb (list_contains phone (phones (self s)))
  then set_phones (phones (self s) ++ [phone])
  else raise (ValueError
                (lit "Phone number " ++ phone_number ++ lit " already exists.")).

(** The [for] loop of [remove_phone] over [self.phones]; [todo] is what
    is left to visit and [all] the list being mutated. *)
Fixpoint remove_phone_loop (value : str) (todo all : list Phone)
  : exn + list Phone :=
  match todo with
  | [] => inr all
  | user_phone :: rest =>
      if str_eqb (phone_value user_phone) value
      then list_remove user_phone all
      else remove_phone_loop value rest all
  end.

Definition remove_phone (phone : str) : M RecordState unit :=
  phone <- with_alloc (Phone_init phone) ;;
  s <- get ;;
  match remove_phone_loop (phone_value phone) (phones (self s)) (phones (self s)) with
  | inr l => set_phones l
  | inl e => raise e
  end.

Definition find_phone (phone_number : str) : M RecordState (option Phone) :=
  s <- get ;;
  ret (find (fun phone => str_eqb (Phone_str phone) phone_number)
            (phones (self s))).

Definition edit_phone (old_phone new_phone : str) : M RecordState unit :=
  phone <- find_phone old_phone ;;
  match phone with
  | Some _ => remove_phone old_phone ;; add_phone new_phone
  | None => raise (ValueError (lit "Phone number not found"))
  end.

Definition add_birthday (birthday : str) : M RecordState unit :=
  match Birthday_init birthday with
  | inr b => set_birthday b
  | inl e => raise e
  end.

(** [str(record)] *)
Fixpoint join (sep : str) (l : list str) : str :=
  match l with
  | [] => []
  | [x] => x
  | x :: rest => x ++ sep ++ join sep rest
  end.

Definition Record_str (platform : Datetime.libc) (r : Record_) : str :=
  let birthday_str :=
    match birthday r with
    | Some b => lit ", birthday: " ++ Birthday_str platform b
    | None => []
    end in
  lit "Contact name: " ++ name r ++ lit ", phones: "
  ++ join (lit "; ") (map phone_value (phones r)) ++ birthday_str.

(** A record holds the digit string [p]. *)
Definition holds (r : Record_) (p : str) : Prop :=
  In p (map phone_value (phones r)).

(** How many phones of the record have the digit string [p]. *)
Definition count_phone (r : Record_) (p : str) : nat :=
  List.length (filter (fun q => str_eqb (phone_value q) p) (phones r)).

(** ** AddressBook *)

(** Computations that only raise or return. *)
Definition ebind {A B} (m : exn + A) (k : A -> exn + B) : exn + B :=
  match m with
  | inr a => k a
  | inl e => inl e
  end.

(** [self.data]: a [dict], kept in insertion order. *)
Definition AddressBook : Type := list (str * Record_).

(** [d[key] = value] *)
Fixpoint dict_set (key : str) (value : Record_) (d : AddressBook)
  : AddressBook :=
  match d with
  | [] => [(key, value)]
  | (k, v) :: rest =>
      if str_eqb k key then (k, value) :: rest
      else (k, v) :: dict_set key value rest
  end.

(** [d.get(key)] *)
Fixpoint dict_get (key : str) (d : AddressBook) : option Record_ :=
  match d with
  | [] => None
  | (k, v) :: rest => if str_eqb k key then Some v else dict_get key rest
  end.

Definition add_record (record : Record_) (book : AddressBook) : AddressBook :=
  dict_set (name record) record book.

Definition find (name : str) (book : AddressBook) : option Record_ :=
  dict_get name book.

Definition delete (name : str) (book : AddressBook) : AddressBook :=
  match dict_get name book with
  | Some _ => filter (fun kv => negb (str_eqb (fst kv) name)) book
  | None => book
  end.

Definition adjust_for_weekend (date_obj : Datetime.datetime)
  : exn + Datetime.datetime :=
  if Z.eqb (Datetime.weekday date_obj) 5
  then ebind (Datetime.timedelta_days 2) (Datetime.add date_obj)
  else if Z.eqb (Datetime.weekday date_obj) 6
  then ebind (Datetime.timedelta_days 1) (Datetime.add date_obj)
  else inr date_obj.

(** The body of the [for] loop of [get_upcoming_birthdays] for one record
    with a birthday: the adjusted date, and whether it is appended. *)
Definition upcoming_date (today : Datetime.datetime) (b : Birthday)
  : exn + Datetime.datetime :=
  ebind (Datetime.replace_year (birthday_value b) (Datetime.year today))
    (fun birthday_this_year =>
  ebind (if Datetime.lt birthday_this_year today
         then Datetime.replace_year birthday_this_year
                (Datetime.year today + 1)
         else inr birthday_this_year)
    (fun birthday_this_year =>
  adjust_for_weekend birthday_this_year)).

Definition in_window (today next_week d : Datetime.datetime) : bool :=
  Datetime.le today d && Datetime.le d next_week.

Fixpoint upcoming_loop (today next_week : Datetime.datetime)
    (records : list Record_)
    (upcoming_birthdays : list (Record_ * Datetime.datetime))
  : exn + list (Record_ * Datetime.datetime) :=
  match records with
  | [] => inr upcoming_birthdays
  | record :: rest =>
      match birthday record with
      | Some b =>
          ebind (upcoming_date today b) (fun birthday_this_year =>
            upcoming_loop today next_week rest
              (if in_window today next_week birthday_this_year
               then upcoming_birthdays ++ [(record, birthday_this_year)]
               else upcoming_birthdays))
      | None => upcoming_loop today next_week rest upcoming_birthdays
      end
  end.

(** [book.get_upcoming_birthdays(days)]; [today] is the value
    [datetime.today()] returns, a timestamp with its time of day. *)
Definition get_upcoming_birthdays (today : Datetime.datetime) (days : Z)
    (book : AddressBook) : exn + list (Record_ * Datetime.datetime) :=
  ebind (Datetime.timedelta_days days) (fun delta =>
  ebind (Datetime.add today delta) (fun next_week =>
  upcoming_loop today next_week (map snd book) [])).

(** ** The console view, the decorator and the command handlers *)

(** What a handler reads from outside: the clock and the C library. *)
Record Env : Type := mkEnv {
  now : Datetime.datetime;
  platform : Datetime.libc
}.

(** The process state: the allocator, the book and the lines printed. *)
Record World : Type := mkWorld {
  w_alloc : nat;
  book : AddressBook;
  console : list str
}.

(** [view.show_message(message)] of [ConsoleView]: [print]. *)
Definition show_message (message : str) : M World unit :=
  fun w => (inr tt, mkWorld (w_alloc w) (book w) (console w ++ [message])).

(** A method call on a record of the book.  [record] is the object the
    handler found under [key], or created and stored there; the book
    holds that same object, so the mutation shows under [key]. *)
Definition on_record {A} (key : str) (record : Record_)
    (m : M RecordState A) : M World A :=
  fun w =>
    let (r, s') := m (mkRS (w_alloc w) record) in
    (r, mkWorld (alloc s')
          (map (fun kv => if str_eqb (fst kv) key
                          then (fst kv, self s') else kv) (book w))
          (console w)).

Definition input_error {S} (func : M S unit) : M S (option str) :=
  fun s =>
    match func s with
    | (inr _, s') => (inr None, s')
    | (inl (ValueError msg), s') =>
        (inr (Some (lit "ValueError: " ++ msg)), s')
    | (inl (IndexError _), s') =>
        (inr (Some (lit "IndexError: Insufficient arguments provided.")), s')
    | (inl (KeyError _), s') =>
        (inr (Some (lit "KeyError: Contact not found.")), s')
    | (inl e, s') => (inl e, s')
    end.

(** [a, *_ = args], [a, b, *_ = args] and [a, b, c, *_ = args] *)
Definition not_enough {S A} (expected : Z) (args : list str) : M S A :=
  raise (ValueError
           (lit "not enough values to unpack (expected at least "
            ++ str_of_int expected ++ lit ", got "
            ++ str_of_int (Z.of_nat (List.length args)) ++ lit ")")).

Definition unpack1 {S} (args : list str) : M S str :=
  match args with
  | a :: _ => ret a
  | _ => not_enough 1 args
  end.

Definition unpack2 {S} (args : list str) : M S (str * str) :=
  match args with
  | a :: b :: _ => ret (a, b)
  | _ => not_enough 2 args
  end.

Definition unpack3 {S} (args : list str) : M S (str * str * str) :=
  match args with
  | a :: b :: c :: _ => ret (a, b, c)
  | _ => not_enough 3 args
  end.

Definition add_contact_body (args : list str) : M World unit :=
  np <- unpack2 args ;;
  let '(name, phone) := np in
  w <- get ;;
  rm <- match find name (book w) with
        | None =>
            let record := Record_init name in
            put (mkWorld (w_alloc w) (add_record record (book w)) (console w)) ;;
            ret (record, lit "Contact added.")
        | Some record => ret (record, lit "Contact updated.")
        end ;;
  let '(record, message) := rm in
  match phone with
  | [] => ret tt
  | _ => on_record name record (add_phone phone)
  end ;;
  show_message message.

Definition add_contact (args : list str) : M World (option str) :=
  input_error (add_contact_body args).

Definition change_number_body (args : list str) : M World unit :=
  noo <- unpack3 args ;;
  let '(name, old_phone, new_phone) := noo in
  w <- get ;;
  match find name (book w) with
  | Some record =>
      on_record name record (edit_phone old_phone new_phone) ;;
      show_message (lit "Contact has been updated.")
  | None => show_message (lit "No matches found. Contact not updated.")
  end.

Definition change_number (args : list str) : M World (option str) :=
  input_error (change_number_body args).

Definition show_phone_body (args : list str) : M World unit :=
  name <- unpack1 args ;;
  w <- get ;;
  match find name (book w) with
  | Some record =>
      show_message (name ++ lit "'s phone number is: "
                    ++ join (lit "; ") (map Phone_str (phones record)))
  | None => show_message (lit "Contact not found.")
  end.

Definition show_phone (args : list str) : M World (option str) :=
  input_error (show_phone_body args).

Definition add_birthday_body (args : list str) : M World unit :=
  nb <- unpack2 args ;;
  let '(name, birthday) := nb in
  w <- get ;;
  match find name (book w) with
  | Some record =>
      on_record name record (add_birthday birthday) ;;
      show_message (lit "Birthday for " ++ name ++ lit " added as "
                    ++ birthday ++ lit ".")
  | None => show_message (lit "Contact not found.")
  end.

Definition add_birthday_cmd (args : list str) : M World (option str) :=
  input_error (add_birthday_body args).

Definition show_birthday_body (env : Env) (args : list str) : M World unit :=
  name <- unpack1 args ;;
  w <- get ;;
  match find name (book w) with
  | Some record =>
      match birthday record with
      | Some b =>
          show_message (name ++ lit "'s birthday is on "
                        ++ Birthday_str (platform env) b ++ lit ".")
      | None => show_message (name ++ lit " does not have a birthday set.")
      end
  | None => show_message (lit "Contact not found.")
  end.

Definition show_birthday (env : Env) (args : list str)
  : M World (option str) :=
  input_error (show_birthday_body env args).

Definition birthdays_body (env : Env) (args : list str) : M World unit :=
  w <- get ;;
  match get_upcoming_birthdays (now env) 7 (book w) with
  | inl e => raise e
  | inr [] => show_message (lit "No upcoming birthdays in the next week.")
  | inr upcoming =>
      show_message
        (lit "Upcoming birthdays:" ++ [10%N]
         ++ join [10%N]
              (map (fun rd => name (fst rd) ++ lit ": "
                              ++ Datetime.strftime (platform env) (snd rd))
                   upcoming))
  end.

Definition birthdays (env : Env) (args : list str) : M World (option str) :=
  input_error (birthdays_body env args).

(** [view.show_all_contacts(book)]: one [print(record)] per record. *)
Definition show_all_contacts (env : Env) : M World unit :=
  fun w =>
    (inr tt,
     mkWorld (w_alloc w) (book w)
       (console w ++ map (fun kv => Record_str (platform env) (snd kv)) (book w))).

Definition commands_text : str :=
  join [10%N]
    [ [];
      lit "        Available commands:";
      lit "        - hello";
      lit "        - add <name> <phone>";
      lit "        - change <name> <old phone> <new phone>";
      lit "        - phone <name>";
      lit "        - add-birthday <name> <birthday>";
      lit "        - show-birthday <name>";
      lit "        - birthdays";
      lit "        - all";
      lit "        - close / exit";
      lit "        " ].

Definition show_commands : M World unit := show_message commands_text.

Inductive loop_control : Type := Continue | Break.

(** One turn of the [while True] loop of [main], after the input line
    was split: [command] is the first token, stripped and lowered, and
    [args] are the other tokens.  A handler's return value is dropped.
    On [close] and [exit] the book is pickled to a file, which leaves
    the state as it is. *)
Definition main_step (env : Env) (command : str) (args : list str)
  : M World loop_control :=
  if str_eqb command (lit "close") || str_eqb command (lit "exit")
  then show_message (lit "Good bye") ;; ret Break
  else if str_eqb command (lit "hello")
  then show_message (lit "How can I help you?") ;; ret Continue
  else if str_eqb command (lit "add")
  then add_contact args ;; ret Continue
  else if str_eqb command (lit "change")
  then change_number args ;; ret Continue
  else if str_eqb command (lit "phone")
  then show_phone args ;; ret Continue
  else if str_eqb command (lit "add-birthday")
  then add_birthday_cmd args ;; ret Continue
  else if str_eqb command (lit "show-birthday")
  then show_birthday env args ;; ret Continue
  else if str_eqb command (lit "birthdays")
  then birthdays env args ;; ret Continue
  else if str_eqb command (lit "all")
  then show_all_contacts env ;; ret Continue
  else if str_eqb command (lit "commands")
  then show_commands ;; ret Continue
  else show_message (lit "Invalid command") ;; ret Continue.


(** ** Predicates used in the statements *)

(** The guard of [Phone.__init__] lets [value] through. *)
Definition is_phone (value : str) : bool :=
  isdigit value && Nat.eqb (List.length value) 10.

(** A string of exactly ten decimal digits [0]..[9]. *)
Definition ten_decimal_digits (s : str) : Prop :=
  List.length s = 10 /\ Forall (fun c => ascii_digit c = true) s.

(** Object identities are sound: the phones of the record are distinct
    objects, all allocated already, each built by [Phone(value)]. *)
Definition heap_ok (s : RecordState) : Prop :=
  NoDup (map phone_id (phones (self s)))
  /\ Forall (fun p => phone_id p < alloc s) (phones (self s))
  /\ Forall (fun p => is_phone (phone_value p) = true) (phones (self s)).

(** Value of an ASCII digit. *)
Definition digit_value (c : N) : Z := Z.of_N c - 48.

(** [s] is written DD.MM.YYYY in ASCII digits and reads as day [d],
    month [m], year [y], which form a date of the calendar. *)
Definition DD_MM_YYYY (s : str) (d m y : Z) : Prop :=
  exists d1 d2 m1 m2 y1 y2 y3 y4 : N,
    s = [d1; d2; 46; m1; m2; 46; y1; y2; y3; y4]%N
    /\ Forall (fun c => ascii_digit c = true) [d1; d2; m1; m2; y1; y2; y3; y4]
    /\ d = (10 * digit_value d1 + digit_value d2)%Z
    /\ m = (10 * digit_value m1 + digit_value m2)%Z
    /\ y = (1000 * digit_value y1 + 100 * digit_value y2
            + 10 * digit_value y3 + digit_value y4)%Z
    /\ Datetime.check_date_fields y m d = inr tt.

(** The phones left when the first one with digit string [v] is dropped. *)
Fixpoint drop_first (v : str) (l : list Phone) : list Phone :=
  match l with
  | [] => []
  | p :: t => if str_eqb (phone_value p) v then t else p :: drop_first v t
  end.

Definition count_value (v : str) (l : list Phone) : nat :=
  List.length (filter (fun q => str_eqb (phone_value q) v) l).

Definition with_phones (r : Record_) (l : list Phone) : Record_ :=
  mkRecord (name r) l (birthday r).

(** What a handler returns when its argument list is too short: the
    message of the ValueError raised by the unpacking assignment, as
    [input_error] formats it. *)
Definition unpack_message (expected : Z) (args : list str) : str :=
  lit "ValueError: not enough values to unpack (expected at least "
  ++ str_of_int expected ++ lit ", got "
  ++ str_of_int (Z.of_nat (List.length args)) ++ lit ")".

(** The message of the [IndexError] branch of [input_error]. *)
Definition insufficient_arguments : str :=
  lit "IndexError: Insufficient arguments provided.".

(** The tail of [ord2ymd]: month and day of the [n]-th day (from 0) of a
    year that is or is not a leap year. *)
Definition month_day (leapyear : bool) (n : Z) : Z * Z :=
  let month := Z.shiftr (n + 50) 5 in
  let preceding :=
    (nth (Z.to_nat month) Datetime.DAYS_BEFORE_MONTH 0
     + (if (2 <? month) && leapyear then 1 else 0))%Z in
  if (n <? preceding)%Z then
    let month := (month - 1)%Z in
    let preceding :=
      (preceding
       - (nth (Z.to_nat month) Datetime.DAYS_IN_MONTH 0
          + (if (month =? 2) && leapyear then 1 else 0)))%Z in
    (month, (n - preceding + 1)%Z)
  else (month, (n - preceding + 1)%Z).

(** Days of a month and days before a month, by leap flag. *)
Definition dim (leapyear : bool) (month : Z) : Z :=
  if (month =? 2)%Z && leapyear then 29%Z
  else nth (Z.to_nat month) Datetime.DAYS_IN_MONTH 0%Z.

Definition dbm (leapyear : bool) (month : Z) : Z :=
  (nth (Z.to_nat month) Datetime.DAYS_BEFORE_MONTH 0
   + (if (2 <? month) && leapyear then 1 else 0))%Z.

Definition month_day_ok (leapyear : bool) (n : Z) : bool :=
  let '(m, d) := month_day leapyear n in
  ((1 <=? m) && (m <=? 12) && (1 <=? d) && (d <=? dim leapyear m)
   && (dbm leapyear m + d =? n + 1))%Z.

(** The time of day of a [datetime]. *)
Definition time_of (dt : Datetime.datetime) : Z * Z * Z * Z :=
  (Datetime.hour dt, Datetime.minute dt, Datetime.second dt,
   Datetime.microsecond dt).

(** The decimal digits of a number below 10000, by number of digits. *)
Definition digit_char (n : Z) : N := Z.to_N (48 + n mod 10).

Definition digits4 (n : Z) : str :=
  if (n <? 10)%Z then [digit_char n]
  else if (n <? 100)%Z then [digit_char (n / 10); digit_char n]
  else if (n <? 1000)%Z
  then [digit_char (n / 100); digit_char (n / 10); digit_char n]
  else [digit_char (n / 1000); digit_char (n / 100); digit_char (n / 10);
        digit_char n].

(** ** Further predicates and drivers *)

(** The digit strings of the phones of a record, in order. *)
Definition phone_values (r : Record_) : list str :=
  map phone_value (phones r).

(** The birthday of a record, if set, is a date of the calendar at
    midnight. *)
Definition birthday_ok (r : Record_) : Prop :=
  match birthday r with
  | Some b =>
      Datetime.valid (birthday_value b)
      /\ time_of (birthday_value b) = (0, 0, 0, 0)%Z
  | None => True
  end.

(** A call of a method of a record. *)
Inductive call : Type :=
| CallAddPhone (phone_number : str)
| CallRemovePhone (phone : str)
| CallEditPhone (old_phone new_phone : str)
| CallAddBirthday (birthday : str).

Definition run_call (c : call) : M RecordState unit :=
  match c with
  | CallAddPhone p => add_phone p
  | CallRemovePhone p => remove_phone p
  | CallEditPhone old new => edit_phone old new
  | CallAddBirthday raw => add_birthday raw
  end.

(** A sequence of calls on one record, each exception caught by the
    caller as the command handlers do. *)
Fixpoint run_calls (cs : list call) (s : RecordState) : RecordState :=
  match cs with
  | [] => s
  | c :: rest => run_calls rest (snd (run_call c s))
  end.

(** The names the book files its records under, in order. *)
Definition keys (b : AddressBook) : list str := map fst b.

(** The record stored under [k] is filed under its own name, its phones
    are sound objects older than allocator value [n], and its birthday
    is a date. *)
Definition record_ok (n : nat) (k : str) (r : Record_) : Prop :=
  name r = k /\ heap_ok (mkRS n r) /\ birthday_ok r.

Definition world_ok (w : World) : Prop :=
  NoDup (keys (book w))
  /\ Forall (fun kv => record_ok (w_alloc w) (fst kv) (snd kv)) (book w).

(** The [while True] loop of [main] on a list of input lines, each with
    the clock and platform of its turn: it stops at [break], at an
    exception that escapes, or when the input is used up. *)
Fixpoint main_loop (turns : list (Env * str * list str)) (w : World)
  : (exn + unit) * World :=
  match turns with
  | [] => (inr tt, w)
  | (env, command, args) :: rest =>
      match main_step env command args w with
      | (inr Continue, w') => main_loop rest w'
      | (inr Break, w') => (inr tt, w')
      | (inl e, w') => (inl e, w')
      end
  end.

(** What the loop body of [get_upcoming_birthdays] appends for one record. *)
Definition selected (today next_week : Datetime.datetime) (record : Record_)
  : list (Record_ * Datetime.datetime) :=
  match birthday record with
  | Some b =>
      match upcoming_date today b with
      | inr d => if in_window today next_week d then [(record, d)] else []
      | inl _ => []
      end
  | None => []
  end.



(** * Properties *)

(** ** Strings *)

Lemma str_eqb_eq (a b : str) : str_eqb a b = true <-> a = b.
Proof.
  revert b; induction a as [|x a IH]; intros [|y b]; simpl;
    try (split; [discriminate | congruence]); try tauto.
  rewrite andb_true_iff, N.eqb_eq, IH. split.
  - intros [-> ->]; reflexivity.
  - intros H; injection H; auto.
Qed.

Lemma str_eqb_refl (a : str) : str_eqb a a = true.
Proof. apply str_eqb_eq; reflexivity. Qed.

Lemma str_eqb_neq (a b : str) : a <> b -> str_eqb a b = false.
Proof.
  intros H. destruct (str_eqb a b) eqn:E; [|reflexivity].
  apply str_eqb_eq in E. contradiction.
Qed.

Lemma ascii_digit_isdigit (c : N) : ascii_digit c = true -> char_isdigit c = true.
Proof.
  unfold ascii_digit, char_isdigit, in_ranges, digit_ranges. intros H.
  cbn [existsb fst snd]. rewrite H. reflexivity.
Qed.

Lemma isdigit_forall (s : str) :
  isdigit s = true <-> s <> [] /\ Forall (fun c => char_isdigit c = true) s.
Proof.
  unfold isdigit. destruct s as [|c s].
  - split; [discriminate | intros [H _]; congruence].
  - rewrite forallb_forall, Forall_forall. split.
    + intros H; split; [discriminate | exact H].
    + intros [_ H]; exact H.
Qed.

Lemma is_phone_spec (s : str) :
  is_phone s = true
  <-> List.length s = 10 /\ Forall (fun c => char_isdigit c = true) s.
Proof.
  unfold is_phone. rewrite andb_true_iff, Nat.eqb_eq, isdigit_forall. split.
  - intros [[_ H] L]; auto.
  - intros [L H]; repeat split; auto. intros ->; discriminate.
Qed.

(** ** Phone *)

Lemma Phone_init_ok (value : str) (next : nat) :
  is_phone value = true ->
  Phone_init value next = (inr (mkPhone next value), S next).
Proof.
  unfold is_phone, Phone_init. intros H.
  apply andb_true_iff in H as [-> ->]. reflexivity.
Qed.

Lemma Phone_init_fail (value : str) (next : nat) :
  is_phone value = false ->
  Phone_init value next
  = (inl (ValueError (lit "Phone number must contain exactly 10 digits.")),
     next).
Proof.
  unfold is_phone, Phone_init. intros H.
  apply andb_false_iff in H as [-> | ->]; [reflexivity|].
  rewrite orb_true_r. reflexivity.
Qed.

(** C4, as stated, fails: ten superscript twos (U+00B2) are not decimal
    digits, in ASCII or in any script, yet [Phone] accepts them. *)
Lemma Phone_accepts_superscript_digits :
  let s := repeat 178%N 10 in
  ~ ten_decimal_digits s
  /\ forallb char_isdecimal s = false
  /\ Phone_init s 0 = (inr (mkPhone 0 s), 1).
Proof.
  cbv zeta. split; [|split; reflexivity].
  intros [_ H]. inversion H as [|c l Hc _]; subst. discriminate Hc.
Qed.

(** C4 (amended): [Phone(value)] succeeds for every string of exactly ten
    decimal digits 0-9; it succeeds exactly when [value] has ten
    characters that [str.isdigit] takes for digits (which also covers
    digit characters such as superscripts); it raises the ValueError for
    every string of another length or with a character that is no such
    digit, and then allocates nothing. *)
Theorem Phone_init_spec (value : str) (next : nat) :
  (ten_decimal_digits value ->
   Phone_init value next = (inr (mkPhone next value), S next))
  /\ ((exists p, Phone_init value next = (inr p, S next))
      <-> List.length value = 10
          /\ Forall (fun c => char_isdigit c = true) value)
  /\ (List.length value <> 10
      \/ Exists (fun c => char_isdigit c = false) value ->
      Phone_init value next
      = (inl (ValueError (lit "Phone number must contain exactly 10 digits.")),
         next)).
Proof.
  split; [|split].
  - intros [L H]. apply Phone_init_ok, is_phone_spec. split; [exact L|].
    eapply Forall_impl; [|exact H]. intros c; apply ascii_digit_isdigit.
  - rewrite <- is_phone_spec. split.
    + intros [p H]. destruct (is_phone value) eqn:E; [reflexivity|].
      rewrite (Phone_init_fail _ _ E) in H. discriminate.
    + intros H. eexists. apply Phone_init_ok, H.
  - intros H. apply Phone_init_fail.
    destruct (is_phone value) eqn:E; [|reflexivity].
    apply is_phone_spec in E as [L F]. destruct H as [H | H]; [contradiction|].
    apply Exists_exists in H as (c & Hin & Hc).
    rewrite Forall_forall in F. rewrite (F c Hin) in Hc. discriminate.
Qed.

Lemma Phone_init_spec_witness :
  Phone_init (lit "0123456789") 5 = (inr (mkPhone 5 (lit "0123456789")), 6)
  /\ Phone_init (lit "12345") 5
     = (inl (ValueError (lit "Phone number must contain exactly 10 digits.")), 5).
Proof.
  split.
  - apply (proj1 (Phone_init_spec (lit "0123456789") 5)).
    split; [reflexivity|]. repeat constructor.
  - apply (proj2 (proj2 (Phone_init_spec (lit "12345") 5))).
    left. simpl. lia.
Defined.

(** ** Record: phones *)

Lemma count_phone_value (r : Record_) (p : str) :
  count_phone r p = count_value p (phones r).
Proof. reflexivity. Qed.

Lemma count_value_app (v : str) (l1 l2 : list Phone) :
  count_value v (l1 ++ l2) = count_value v l1 + count_value v l2.
Proof. unfold count_value. rewrite filter_app, length_app. reflexivity. Qed.

Lemma count_value_pos (v : str) (l : list Phone) :
  In v (map phone_value l) <-> 0 < count_value v l.
Proof.
  unfold count_value. induction l as [|p l IH]; simpl.
  - split; [tauto | lia].
  - destruct (str_eqb (phone_value p) v) eqn:E; simpl.
    + apply str_eqb_eq in E. split; [lia | auto].
    + rewrite <- IH. split; [|auto].
      intros [H | H]; [|exact H]. rewrite H, str_eqb_refl in E. discriminate.
Qed.

Lemma holds_count (r : Record_) (p : str) :
  holds r p <-> 0 < count_phone r p.
Proof. apply count_value_pos. Qed.

Lemma find_phone_value (v : str) (l : list Phone) :
  List.find (fun phone => str_eqb (Phone_str phone) v) l = None
  <-> ~ In v (map phone_value l).
Proof.
  induction l as [|p l IH]; simpl; [tauto|].
  unfold Phone_str at 1. destruct (str_eqb (phone_value p) v) eqn:E.
  - apply str_eqb_eq in E. split; [discriminate | intros H; exfalso; auto].
  - rewrite IH. split; [|tauto].
    intros H [H1 | H1]; [|auto]. rewrite H1, str_eqb_refl in E. discriminate.
Qed.

Lemma count_drop_first (v w : str) (l : list Phone) :
  count_value w (drop_first v l)
  = if str_eqb v w then pred (count_value w l) else count_value w l.
Proof.
  unfold count_value. induction l as [|p l IH]; simpl.
  - destruct (str_eqb v w); reflexivity.
  - destruct (str_eqb (phone_value p) v) eqn:E.
    + apply str_eqb_eq in E. rewrite E. destruct (str_eqb v w); reflexivity.
    + simpl. destruct (str_eqb (phone_value p) w) eqn:E2; simpl; rewrite IH.
      * destruct (str_eqb v w) eqn:E3; [|reflexivity].
        apply str_eqb_eq in E2, E3. subst w. rewrite E2, str_eqb_refl in E.
        discriminate.
      * reflexivity.
Qed.

(** A newly allocated object is no element of a list of older ones. *)
Lemma list_contains_fresh (n : nat) (v : str) (l : list Phone) :
  Forall (fun p => phone_id p < n) l ->
  list_contains (mkPhone n v) l = false.
Proof.
  induction 1 as [|p l Hp _ IH]; [reflexivity|].
  unfold list_contains in *. cbn [existsb]. rewrite IH, orb_false_r.
  unfold Phone_eq, Phone_is. cbn [phone_id]. rewrite orb_diag.
  apply Nat.eqb_neq. lia.
Qed.

Lemma list_remove_at (u : Phone) (pre rest : list Phone) :
  ~ In (phone_id u) (map phone_id pre) ->
  list_remove u (pre ++ u :: rest) = inr (pre ++ rest).
Proof.
  unfold Phone_eq, Phone_is.
  induction pre as [|p pre IH]; simpl; intros H.
  - unfold Phone_eq, Phone_is. rewrite Nat.eqb_refl. reflexivity.
  - unfold Phone_eq, Phone_is.
    destruct (Nat.eqb (phone_id p) (phone_id u)) eqn:E.
    + apply Nat.eqb_eq in E. exfalso; auto.
    + simpl. rewrite IH by auto. reflexivity.
Qed.

Lemma remove_phone_loop_spec (v : str) (todo pre : list Phone) :
  NoDup (map phone_id (pre ++ todo)) ->
  ~ In v (map phone_value pre) ->
  remove_phone_loop v todo (pre ++ todo) = inr (pre ++ drop_first v todo).
Proof.
  revert pre. induction todo as [|u todo IH]; intros pre ND Hpre; simpl.
  - reflexivity.
  - destruct (str_eqb (phone_value u) v) eqn:E.
    + apply list_remove_at. rewrite map_app in ND. simpl in ND.
      apply NoDup_remove_2 in ND. rewrite in_app_iff in ND. tauto.
    + specialize (IH (pre ++ [u])). rewrite <- !app_assoc in IH. simpl in IH.
      apply IH; [exact ND|].
      rewrite map_app, in_app_iff. simpl. intros [H | [H | []]]; [auto|].
      rewrite H, str_eqb_refl in E. discriminate.
Qed.

Lemma add_phone_ok (p : str) (s : RecordState) :
  Forall (fun q => phone_id q < alloc s) (phones (self s)) ->
  is_phone p = true ->
  add_phone p s
  = (inr tt,
     mkRS (S (alloc s))
       (with_phones (self s) (phones (self s) ++ [mkPhone (alloc s) p]))).
Proof.
  intros F V. unfold add_phone, bind, with_alloc, zoom, get.
  rewrite (Phone_init_ok _ _ V). cbn [self alloc].
  rewrite list_contains_fresh.
  - reflexivity.
  - eapply Forall_impl; [|exact F]. intros q; cbn; lia.
Qed.

Lemma add_phone_fail (p : str) (s : RecordState) :
  is_phone p = false ->
  add_phone p s
  = (inl (ValueError (lit "Phone number must contain exactly 10 digits.")), s).
Proof.
  intros V. unfold add_phone, bind, with_alloc, zoom.
  rewrite (Phone_init_fail _ _ V). destruct s; reflexivity.
Qed.

Lemma remove_phone_ok (v : str) (s : RecordState) :
  NoDup (map phone_id (phones (self s))) ->
  is_phone v = true ->
  remove_phone v s
  = (inr tt,
     mkRS (S (alloc s)) (with_phones (self s) (drop_first v (phones (self s))))).
Proof.
  intros ND V. unfold remove_phone, bind, with_alloc, zoom, get.
  rewrite (Phone_init_ok _ _ V). cbn [self alloc phone_value].
  pose proof (remove_phone_loop_spec v (phones (self s)) [] ND) as H.
  cbn [app map] in H. rewrite H by (simpl; tauto). reflexivity.
Qed.

Lemma drop_first_incl (v : str) (l : list Phone) : incl (drop_first v l) l.
Proof.
  induction l as [|p l IH]; simpl; [apply incl_refl|].
  destruct (str_eqb (phone_value p) v).
  - apply incl_tl, incl_refl.
  - intros x [<- | H]; [left; reflexivity | right; apply IH, H].
Qed.

Lemma drop_first_NoDup (v : str) (l : list Phone) :
  NoDup (map phone_id l) -> NoDup (map phone_id (drop_first v l)).
Proof.
  induction l as [|p l IH]; simpl; [auto|]. intros ND.
  inversion ND as [|x xs Hnin ND']; subst.
  destruct (str_eqb (phone_value p) v); [exact ND'|].
  simpl. constructor; [|auto].
  intros H. apply Hnin. apply in_map_iff in H as (q & Hq & Hin).
  apply in_map_iff. exists q. split; [exact Hq|]. eapply drop_first_incl, Hin.
Qed.

(** The methods keep object identities sound. *)
Lemma heap_ok_init (n : nat) (nm : str) : heap_ok (mkRS n (Record_init nm)).
Proof. repeat split; simpl; constructor. Qed.

Lemma heap_ok_add_phone (p : str) (s : RecordState) :
  heap_ok s -> heap_ok (snd (add_phone p s)).
Proof.
  intros (ND & F & V). destruct (is_phone p) eqn:E.
  - rewrite (add_phone_ok _ _ F E). cbn [snd]. unfold heap_ok. cbn.
    repeat split.
    + rewrite map_app.
      apply NoDup_app; [exact ND | repeat constructor; simpl; tauto |].
      intros x Hx [<- | []]. apply in_map_iff in Hx as (q & Hq & Hin).
      rewrite Forall_forall in F. specialize (F q Hin). cbn in Hq. lia.
    + apply Forall_app. split.
      * eapply Forall_impl; [|exact F]. intros q; cbn; lia.
      * repeat constructor.
    + apply Forall_app. split; [exact V|]. repeat constructor. exact E.
  - rewrite (add_phone_fail _ _ E). repeat split; assumption.
Qed.

Lemma heap_ok_remove_phone (v : str) (s : RecordState) :
  heap_ok s -> heap_ok (snd (remove_phone v s)).
Proof.
  intros (ND & F & V). destruct (is_phone v) eqn:E.
  - rewrite (remove_phone_ok _ _ ND E). cbn [snd]. unfold heap_ok. cbn.
    repeat split.
    + apply drop_first_NoDup, ND.
    + rewrite Forall_forall in *. intros q Hq.
      specialize (F q (drop_first_incl _ _ _ Hq)). lia.
    + rewrite Forall_forall in *. intros q Hq.
      apply V, (drop_first_incl _ _ _ Hq).
  - unfold remove_phone, bind, with_alloc, zoom.
    rewrite (Phone_init_fail _ _ E). destruct s. repeat split; assumption.
Qed.

Lemma heap_ok_edit_phone (old new : str) (s : RecordState) :
  heap_ok s -> heap_ok (snd (edit_phone old new s)).
Proof.
  intros OK. unfold edit_phone, bind at 1.
  destruct (find_phone old s) as [[e | [ph |]] s1] eqn:Ef;
    unfold find_phone, bind, get, ret in Ef; injection Ef as Ef <-;
    try discriminate; [|exact OK].
  clear Ef. unfold bind.
  pose proof (heap_ok_remove_phone old s OK) as OK1.
  destruct (remove_phone old s) as [[e | []] s1]; [exact OK1|].
  apply heap_ok_add_phone, OK1.
Qed.

Lemma heap_ok_add_birthday (raw : str) (s : RecordState) :
  heap_ok s -> heap_ok (snd (add_birthday raw s)).
Proof.
  intros OK. unfold add_birthday. destruct (Birthday_init raw); exact OK.
Qed.

Lemma holds_is_phone (s : RecordState) (p : str) :
  heap_ok s -> holds (self s) p -> is_phone p = true.
Proof.
  intros (_ & _ & V) H. apply in_map_iff in H as (q & <- & Hin).
  rewrite Forall_forall in V. apply V, Hin.
Qed.

(** Soundness of identities on a concrete state, by evaluation. *)
Ltac heap_ok_eval :=
  match goal with
  | |- heap_ok ?s => let v := eval vm_compute in s in change (heap_ok v)
  end;
  unfold heap_ok; cbn [self phones alloc map phone_id phone_value];
  repeat split;
  repeat first
    [ apply NoDup_nil | apply Forall_nil
    | apply NoDup_cons; [simpl; intuition discriminate |]
    | apply Forall_cons; [first [vm_compute; reflexivity | cbn; lia] |] ].

(** C1: the claim does not hold of the code.  [add_phone] builds a new
    [Phone] object and tests [phone not in self.phones]; [Phone] has no
    [__eq__], so the test compares identities and a new object is never
    found.  For every record that already holds the digit string [p],
    [add_phone p] returns normally and appends a second phone with the
    same digits. *)
Theorem add_phone_accepts_duplicate (s : RecordState) (p : str) :
  heap_ok s ->
  holds (self s) p ->
  add_phone p s
  = (inr tt,
     mkRS (S (alloc s))
       (with_phones (self s) (phones (self s) ++ [mkPhone (alloc s) p])))
  /\ count_phone (self (snd (add_phone p s))) p = S (count_phone (self s) p).
Proof.
  intros OK H. pose proof (holds_is_phone _ _ OK H) as V.
  destruct OK as (_ & F & _).
  rewrite (add_phone_ok _ _ F V). split; [reflexivity|].
  cbn [snd self]. rewrite !count_phone_value. unfold with_phones. cbn [phones].
  rewrite count_value_app. unfold count_value at 2. cbn [filter phone_value].
  rewrite str_eqb_refl. simpl. lia.
Qed.

Lemma add_phone_accepts_duplicate_witness :
  let s := snd (add_phone (lit "0123456789") (mkRS 0 (Record_init (lit "Alice")))) in
  add_phone (lit "0123456789") s
  = (inr tt,
     mkRS 2 (mkRecord (lit "Alice")
               [mkPhone 0 (lit "0123456789"); mkPhone 1 (lit "0123456789")]
               None))
  /\ count_phone (self (snd (add_phone (lit "0123456789") s))) (lit "0123456789")
     = 2.
Proof.
  cbv zeta.
  apply (add_phone_accepts_duplicate
           (snd (add_phone (lit "0123456789") (mkRS 0 (Record_init (lit "Alice")))))
           (lit "0123456789")).
  - heap_ok_eval.
  - left. reflexivity.
Defined.

Lemma find_phone_run (v : str) (s : RecordState) :
  find_phone v s
  = (inr (List.find (fun phone => str_eqb (Phone_str phone) v) (phones (self s))),
     s).
Proof. reflexivity. Qed.

Lemma edit_phone_missing (s : RecordState) (old new : str) :
  ~ holds (self s) old ->
  edit_phone old new s = (inl (ValueError (lit "Phone number not found")), s).
Proof.
  intros H. apply find_phone_value in H.
  unfold edit_phone, bind. rewrite find_phone_run, H. reflexivity.
Qed.

Lemma edit_phone_present (s : RecordState) (old new : str) :
  heap_ok s ->
  holds (self s) old ->
  edit_phone old new s
  = add_phone new
      (mkRS (S (alloc s))
         (with_phones (self s) (drop_first old (phones (self s))))).
Proof.
  intros OK H. pose proof (holds_is_phone _ _ OK H) as V.
  destruct OK as (ND & _ & _).
  unfold edit_phone, bind at 1. rewrite find_phone_run.
  destruct (List.find _ _) eqn:E.
  - unfold bind. rewrite (remove_phone_ok _ _ ND V). reflexivity.
  - apply find_phone_value in E. contradiction.
Qed.

(** C5, as stated, fails.  Editing a phone to the same digits succeeds
    and leaves it on the record; and on a record that holds the digits
    twice, a successful edit leaves one of the two behind. *)
Lemma edit_phone_old_still_present :
  let p := lit "1111111111" in
  let q := lit "2222222222" in
  let s1 := snd (add_phone p (mkRS 0 (Record_init (lit "Bob")))) in
  let s2 := snd (add_phone p s1) in
  (fst (edit_phone p p s1) = inr tt
   /\ holds (self s1) p
   /\ holds (self (snd (edit_phone p p s1))) p)
  /\ (fst (edit_phone p q s2) = inr tt
      /\ holds (self s2) p
      /\ holds (self (snd (edit_phone p q s2))) p).
Proof.
  cbv zeta. repeat split; try reflexivity; cbv; auto.
Qed.

(** C5 (amended): [edit_phone old new] raises the ValueError
    "Phone number not found" whenever the record holds no phone with the
    digits [old], whatever [new] is, and leaves the record as it was.
    When [old] is held and the call returns, [new] is held afterwards;
    and if [new] differs from [old] and [old] was held once, [old] is no
    longer held. *)
Theorem edit_phone_spec (s : RecordState) (old new : str) :
  heap_ok s ->
  (~ holds (self s) old ->
   edit_phone old new s = (inl (ValueError (lit "Phone number not found")), s))
  /\ (forall s',
        holds (self s) old ->
        edit_phone old new s = (inr tt, s') ->
        holds (self s') new
        /\ (old <> new -> count_phone (self s) old = 1 ->
            ~ holds (self s') old)).
Proof.
  intros OK. split; [apply edit_phone_missing|].
  intros s' H E. rewrite (edit_phone_present _ _ _ OK H) in E.
  destruct (is_phone new) eqn:V.
  - rewrite add_phone_ok in E; [|unfold with_phones; cbn [alloc self phones] | exact V].
    + injection E as <-. unfold with_phones. cbn [self phones]. split.
      * unfold holds. cbn [phones]. rewrite map_app, in_app_iff.
        right; left; reflexivity.
      * intros Hne Hc. rewrite holds_count, count_phone_value. cbn [phones].
        rewrite count_value_app, count_drop_first, str_eqb_refl.
        rewrite count_phone_value in Hc. rewrite Hc.
        unfold count_value. cbn [filter phone_value].
        rewrite str_eqb_neq by congruence. simpl. lia.
    + destruct OK as (_ & F & _). rewrite Forall_forall in *.
      intros x Hx. specialize (F x (drop_first_incl _ _ _ Hx)). lia.
  - rewrite (add_phone_fail _ _ V) in E. discriminate.
Qed.

Lemma edit_phone_spec_witness :
  let p := lit "1111111111" in
  let q := lit "2222222222" in
  let s1 := snd (add_phone p (mkRS 0 (Record_init (lit "Bob")))) in
  holds (self (snd (edit_phone p q s1))) q
  /\ ~ holds (self (snd (edit_phone p q s1))) p.
Proof.
  cbv zeta.
  pose (p := lit "1111111111"). pose (q := lit "2222222222").
  pose (s1 := snd (add_phone p (mkRS 0 (Record_init (lit "Bob"))))).
  assert (OK : heap_ok s1) by (subst s1 p; heap_ok_eval).
  destruct (proj2 (edit_phone_spec s1 p q OK) (snd (edit_phone p q s1)))
    as [Hq Hp].
  - left; reflexivity.
  - reflexivity.
  - split; [exact Hq|]. apply Hp; [discriminate | reflexivity].
Defined.

(** C8, as stated, fails on a record that holds the digits twice (which
    two calls of [add_phone] produce): the failed edit removes one of the
    two phones and the other stays. *)
Lemma edit_phone_failed_add_duplicate_stays :
  let p := lit "1111111111" in
  let s1 := snd (add_phone p (mkRS 0 (Record_init (lit "Bob")))) in
  let s2 := snd (add_phone p s1) in
  holds (self s2) p
  /\ fst (edit_phone p (lit "12345") s2)
     = inl (ValueError (lit "Phone number must contain exactly 10 digits."))
  /\ holds (self (snd (edit_phone p (lit "12345") s2))) p.
Proof.
  cbv zeta. repeat split; try reflexivity; cbv; auto.
Qed.

(** C8 (amended): if [old] is held and [new] is malformed,
    [edit_phone old new] raises the ValueError of [Phone], and the record
    is left with the first phone of digits [old] removed: the failed
    edit is not undone.  If [old] was held once, the record no longer
    holds it. *)
Theorem edit_phone_failed_add_loses_old (s : RecordState) (old new : str) :
  heap_ok s ->
  holds (self s) old ->
  is_phone new = false ->
  exists s',
    edit_phone old new s
    = (inl (ValueError (lit "Phone number must contain exactly 10 digits.")), s')
    /\ phones (self s') = drop_first old (phones (self s))
    /\ phones (self s') <> phones (self s)
    /\ (count_phone (self s) old = 1 -> ~ holds (self s') old).
Proof.
  intros OK H V. rewrite (edit_phone_present _ _ _ OK H), (add_phone_fail _ _ V).
  eexists. split; [reflexivity|]. unfold with_phones. cbn [self phones].
  split; [reflexivity|]. split.
  - intros Heq. apply holds_count in H. rewrite count_phone_value in H.
    pose proof (count_drop_first old old (phones (self s))) as C.
    rewrite str_eqb_refl, Heq in C. lia.
  - intros Hc. rewrite holds_count, count_phone_value. cbn [phones].
    rewrite count_drop_first, str_eqb_refl.
    rewrite count_phone_value in Hc. rewrite Hc. simpl. lia.
Qed.

Lemma edit_phone_failed_add_loses_old_witness :
  let p := lit "1111111111" in
  let s1 := snd (add_phone p (mkRS 0 (Record_init (lit "Bob")))) in
  exists s',
    edit_phone p (lit "12345") s1
    = (inl (ValueError (lit "Phone number must contain exactly 10 digits.")), s')
    /\ phones (self s') = drop_first p (phones (self s1))
    /\ phones (self s') <> phones (self s1)
    /\ (count_phone (self s1) p = 1 -> ~ holds (self s') p).
Proof.
  cbv zeta.
  apply (edit_phone_failed_add_loses_old
           (snd (add_phone (lit "1111111111") (mkRS 0 (Record_init (lit "Bob")))))
           (lit "1111111111") (lit "12345")).
  - heap_ok_eval.
  - left; reflexivity.
  - reflexivity.
Defined.

(** ** Record: birthday *)

(** C10: [add_birthday raw] on a malformed [raw] raises the ValueError of
    [Birthday] and leaves the record, its birthday included, exactly as
    it was; and whenever [add_birthday] raises, the state is unchanged. *)
Theorem add_birthday_failure_keeps_record (s : RecordState) (raw : str) :
  (Datetime.strptime raw = None ->
   add_birthday raw s
   = (inl (ValueError (lit "Invalid date format. Use DD.MM.YYYY")), s))
  /\ (forall e s', add_birthday raw s = (inl e, s') ->
                   s' = s /\ birthday (self s') = birthday (self s)
                   /\ Datetime.strptime raw = None).
Proof.
  unfold add_birthday, Birthday_init. split.
  - intros ->. reflexivity.
  - intros e s'. destruct (Datetime.strptime raw).
    + discriminate.
    + unfold raise. intros H. injection H as _ <-. auto.
Qed.

Lemma add_birthday_failure_keeps_record_witness :
  let s0 := snd (add_birthday (lit "12.06.1990") (mkRS 0 (Record_init (lit "Ann")))) in
  birthday (self s0) = Some (mkBirthday (Datetime.mkdatetime 1990 6 12 0 0 0 0))
  /\ add_birthday (lit "31.02.2024") s0
     = (inl (ValueError (lit "Invalid date format. Use DD.MM.YYYY")), s0).
Proof.
  cbv zeta. split; [reflexivity|].
  apply (proj1 (add_birthday_failure_keeps_record _ (lit "31.02.2024"))).
  reflexivity.
Defined.

(** ** Command handlers *)

Lemma unpack_message_not_index (expected : Z) (args : list str) :
  unpack_message expected args <> insufficient_arguments.
Proof. discriminate. Qed.

Lemma input_error_ValueError {S} (func : M S unit) (s s' : S) (msg : str) :
  func s = (inl (ValueError msg), s') ->
  input_error func s = (inr (Some (lit "ValueError: " ++ msg)), s').
Proof. unfold input_error. intros ->. reflexivity. Qed.

Ltac short_args args H :=
  destruct args as [|? [|? [|? ?]]]; simpl in H; try lia; split; reflexivity.

(** C7: the claim does not hold of the code.  With too few arguments the
    unpacking assignment raises a ValueError, not an IndexError, so the
    handler does not crash but returns the message
    "ValueError: not enough values to unpack ..." and never the message
    "IndexError: Insufficient arguments provided."; [main] drops the
    returned message, so the turn prints nothing and changes nothing. *)
Theorem missing_arguments_not_reported (env : Env) (args : list str) (w : World) :
  (List.length args < 2 ->
   add_contact args w = (inr (Some (unpack_message 2 args)), w)
   /\ main_step env (lit "add") args w = (inr Continue, w))
  /\ (List.length args < 3 ->
      change_number args w = (inr (Some (unpack_message 3 args)), w)
      /\ main_step env (lit "change") args w = (inr Continue, w))
  /\ (List.length args < 1 ->
      show_phone args w = (inr (Some (unpack_message 1 args)), w)
      /\ main_step env (lit "phone") args w = (inr Continue, w))
  /\ (List.length args < 2 ->
      add_birthday_cmd args w = (inr (Some (unpack_message 2 args)), w)
      /\ main_step env (lit "add-birthday") args w = (inr Continue, w))
  /\ (List.length args < 1 ->
      show_birthday env args w = (inr (Some (unpack_message 1 args)), w)
      /\ main_step env (lit "show-birthday") args w = (inr Continue, w)).
Proof.
  repeat match goal with |- _ /\ _ => split end; intros H; short_args args H.
Qed.

Lemma missing_arguments_not_reported_witness :
  let env := mkEnv (Datetime.mkdatetime 2024 6 12 10 30 0 0) Datetime.Glibc in
  let w := mkWorld 0 [] [] in
  add_contact [lit "Alice"] w
  = (inr (Some (lit "ValueError: not enough values to unpack (expected at least 2, got 1)")),
     w)
  /\ main_step env (lit "add") [lit "Alice"] w = (inr Continue, w).
Proof.
  cbv zeta.
  apply (proj1 (missing_arguments_not_reported
                  (mkEnv (Datetime.mkdatetime 2024 6 12 10 30 0 0) Datetime.Glibc)
                  [lit "Alice"] (mkWorld 0 [] []))).
  simpl. lia.
Defined.

(** ** Upcoming birthdays: 29 February *)

Lemma check_leap_day_fails (y : Z) :
  Datetime.is_leap y = false ->
  exists e, Datetime.check_date_fields y 2 29 = inl e.
Proof.
  intros L. unfold Datetime.check_date_fields, Datetime.days_in_month.
  rewrite L. destruct (negb _); [eexists; reflexivity|].
  simpl. eexists; reflexivity.
Qed.

Lemma upcoming_date_leap_day_fails (today : Datetime.datetime) (b : Birthday) :
  Datetime.month (birthday_value b) = 2%Z ->
  Datetime.day (birthday_value b) = 29%Z ->
  Datetime.is_leap (Datetime.year today) = false ->
  exists e, upcoming_date today b = inl e.
Proof.
  intros Hm Hd L. unfold upcoming_date, Datetime.replace_year. rewrite Hm, Hd.
  destruct (check_leap_day_fails _ L) as [e ->]. exists e. reflexivity.
Qed.

Lemma upcoming_loop_leap_day_fails (today next_week : Datetime.datetime)
    (records : list Record_) (record : Record_) (b : Birthday) :
  In record records ->
  birthday record = Some b ->
  Datetime.month (birthday_value b) = 2%Z ->
  Datetime.day (birthday_value b) = 29%Z ->
  Datetime.is_leap (Datetime.year today) = false ->
  forall acc, exists e, upcoming_loop today next_week records acc = inl e.
Proof.
  intros Hin Hb Hm Hd L.
  induction records as [|r records IH]; [contradiction|]. intros acc.
  cbn [upcoming_loop]. destruct Hin as [-> | Hin].
  - rewrite Hb. destruct (upcoming_date_leap_day_fails today b Hm Hd L) as [e ->].
    exists e; reflexivity.
  - destruct (birthday r) as [b'|]; [|apply IH, Hin].
    destruct (upcoming_date today b') as [e|d]; [exists e; reflexivity|].
    cbn [ebind]. apply IH, Hin.
Qed.

(** C9: if some record of the book has its birthday on 29 February and
    the year of today is not a leap year, [get_upcoming_birthdays]
    raises instead of returning a list, whatever the other records are. *)
Theorem leap_day_birthday_breaks_query (today : Datetime.datetime) (days : Z)
    (book : AddressBook) (record : Record_) (b : Birthday) :
  In record (map snd book) ->
  birthday record = Some b ->
  Datetime.month (birthday_value b) = 2%Z ->
  Datetime.day (birthday_value b) = 29%Z ->
  Datetime.is_leap (Datetime.year today) = false ->
  exists e, get_upcoming_birthdays today days book = inl e.
Proof.
  intros Hin Hb Hm Hd L. unfold get_upcoming_birthdays.
  destruct (Datetime.timedelta_days days) as [e|delta]; [exists e; reflexivity|].
  cbn [ebind].
  destruct (Datetime.add today delta) as [e|next_week]; [exists e; reflexivity|].
  cbn [ebind]. eapply upcoming_loop_leap_day_fails; eassumption.
Qed.

Lemma leap_day_birthday_breaks_query_witness :
  let today := Datetime.mkdatetime 2023 6 12 10 30 0 0 in
  let b := mkBirthday (Datetime.mkdatetime 2000 2 29 0 0 0 0) in
  let ann := mkRecord (lit "Ann") [] (Some (mkBirthday (Datetime.mkdatetime 1990 6 14 0 0 0 0))) in
  let bob := mkRecord (lit "Bob") [] (Some b) in
  let book := [(lit "Ann", ann); (lit "Bob", bob)] in
  Birthday_init (lit "29.02.2000") = inr b
  /\ (exists e, get_upcoming_birthdays today 7 book = inl e)
  /\ get_upcoming_birthdays today 7 book
     = inl (ValueError (lit "day is out of range for month"))
  /\ get_upcoming_birthdays today 7 [(lit "Ann", ann)]
     = inr [(ann, Datetime.mkdatetime 2023 6 14 0 0 0 0)].
Proof.
  cbv zeta. split; [reflexivity|]. split; [|split; reflexivity].
  apply (leap_day_birthday_breaks_query
           (Datetime.mkdatetime 2023 6 12 10 30 0 0) 7
           [(lit "Ann", mkRecord (lit "Ann") [] (Some (mkBirthday (Datetime.mkdatetime 1990 6 14 0 0 0 0))));
            (lit "Bob", mkRecord (lit "Bob") [] (Some (mkBirthday (Datetime.mkdatetime 2000 2 29 0 0 0 0))))]
           (mkRecord (lit "Bob") [] (Some (mkBirthday (Datetime.mkdatetime 2000 2 29 0 0 0 0))))
           (mkBirthday (Datetime.mkdatetime 2000 2 29 0 0 0 0))).
  - right; left; reflexivity.
  - reflexivity.
  - reflexivity.
  - reflexivity.
  - reflexivity.
Defined.

(** ** The calendar *)

Ltac month_cases m :=
  let H := fresh in
  assert (H : (m = 1 \/ m = 2 \/ m = 3 \/ m = 4 \/ m = 5 \/ m = 6 \/ m = 7
               \/ m = 8 \/ m = 9 \/ m = 10 \/ m = 11 \/ m = 12)%Z) by lia;
  repeat (destruct H as [H | H]); subst m.

Ltac eval_tables :=
  repeat match goal with
    | H : context [dim ?l ?k] |- _ =>
        let v := eval vm_compute in (dim l k) in change (dim l k) with v in H
    | |- context [dim ?l ?k] =>
        let v := eval vm_compute in (dim l k) in change (dim l k) with v
    | H : context [dbm ?l ?k] |- _ =>
        let v := eval vm_compute in (dbm l k) in change (dbm l k) with v in H
    | |- context [dbm ?l ?k] =>
        let v := eval vm_compute in (dbm l k) in change (dbm l k) with v
    end.

Section Calendar.
Import Datetime.
Local Open Scope Z_scope.

Lemma check_date_fields_ok (y m d : Z) :
  check_date_fields y m d = inr tt
  <-> 1 <= y <= 9999 /\ 1 <= m <= 12 /\ 1 <= d <= days_in_month y m.
Proof.
  unfold check_date_fields, MINYEAR, MAXYEAR.
  destruct (Z.leb_spec 1 y), (Z.leb_spec y 9999), (Z.leb_spec 1 m),
    (Z.leb_spec m 12), (Z.leb_spec 1 d), (Z.leb_spec d (days_in_month y m));
    simpl; split; intro; try discriminate; try lia; reflexivity.
Qed.

Lemma check_time_fields_ok (h mi s us : Z) :
  check_time_fields h mi s us = true
  <-> 0 <= h <= 23 /\ 0 <= mi <= 59 /\ 0 <= s <= 59 /\ 0 <= us <= 999999.
Proof.
  unfold check_time_fields. rewrite !andb_true_iff, !Z.leb_le. lia.
Qed.

Lemma days_in_month_dim (y m : Z) : days_in_month y m = dim (is_leap y) m.
Proof. reflexivity. Qed.

Lemma days_before_month_dbm (y m : Z) :
  days_before_month y m = dbm (is_leap y) m.
Proof. reflexivity. Qed.

Lemma day_of_year_bounds (leap : bool) (m d : Z) :
  1 <= m <= 12 -> 1 <= d <= dim leap m ->
  1 <= dbm leap m + d <= 365 + (if leap then 1 else 0).
Proof.
  intros Hm Hd. month_cases m; destruct leap; eval_tables; lia.
Qed.

Lemma is_leap_spec (q a b c : Z) :
  0 <= a <= 3 -> 0 <= b <= 24 -> 0 <= c <= 3 ->
  is_leap (400 * q + 100 * a + 4 * b + c + 1)
  = (c =? 3) && (negb (b =? 24) || (a =? 3)).
Proof.
  intros Ha Hb Hc. unfold is_leap.
  set (y := 400 * q + 100 * a + 4 * b + c + 1).
  destruct (Z.eqb_spec (y mod 4) 0), (Z.eqb_spec (y mod 100) 0),
    (Z.eqb_spec (y mod 400) 0), (Z.eqb_spec c 3), (Z.eqb_spec b 24),
    (Z.eqb_spec a 3); simpl; try reflexivity; exfalso; unfold y in *;
    Z.div_mod_to_equations; lia.
Qed.

Lemma days_before_year_spec (q a b c : Z) :
  0 <= a <= 3 -> 0 <= b <= 24 -> 0 <= c <= 3 ->
  days_before_year (400 * q + 100 * a + 4 * b + c + 1)
  = 146097 * q + 36524 * a + 1461 * b + 365 * c.
Proof.
  intros Ha Hb Hc. unfold days_before_year.
  replace (400 * q + 100 * a + 4 * b + c + 1 - 1)
    with (400 * q + 100 * a + 4 * b + c) by lia.
  set (y := 400 * q + 100 * a + 4 * b + c).
  assert (y / 4 = 100 * q + 25 * a + b).
  { symmetry. apply (Z.div_unique y 4 _ c); unfold y; lia. }
  assert (y / 100 = 4 * q + a).
  { symmetry. apply (Z.div_unique y 100 _ (4 * b + c)); unfold y; lia. }
  assert (y / 400 = q).
  { symmetry. apply (Z.div_unique y 400 _ (100 * a + 4 * b + c)); unfold y; lia. }
  unfold y in *. lia.
Qed.

Lemma month_day_table (leap : bool) (n : Z) :
  0 <= n <= 364 -> month_day_ok leap n = true.
Proof.
  intros Hn.
  assert (T : forallb (fun k => month_day_ok true (Z.of_nat k)
                                && month_day_ok false (Z.of_nat k))
                (seq 0 365) = true) by (vm_compute; reflexivity).
  rewrite forallb_forall in T. specialize (T (Z.to_nat n)).
  rewrite Z2Nat.id in T by lia.
  assert (Hin : In (Z.to_nat n) (seq 0 365)) by (apply in_seq; lia).
  apply T, andb_true_iff in Hin as [H1 H2]. destruct leap; assumption.
Qed.

Lemma month_day_spec (leap : bool) (n : Z) :
  0 <= n <= 364 ->
  1 <= fst (month_day leap n) <= 12
  /\ 1 <= snd (month_day leap n) <= dim leap (fst (month_day leap n))
  /\ dbm leap (fst (month_day leap n)) + snd (month_day leap n) = n + 1.
Proof.
  intros Hn. pose proof (month_day_table leap n Hn) as H.
  unfold month_day_ok in H. destruct (month_day leap n) as [m d].
  rewrite !andb_true_iff, !Z.leb_le, Z.eqb_eq in H. cbn [fst snd]. lia.
Qed.

Lemma ord2ymd_eq (n : Z) :
  ord2ymd n
  = let n' := n - 1 in
    let q := n' / 146097 in
    let a := (n' mod 146097) / 36524 in
    let b := ((n' mod 146097) mod 36524) / 1461 in
    let c := (((n' mod 146097) mod 36524) mod 1461) / 365 in
    let r := (((n' mod 146097) mod 36524) mod 1461) mod 365 in
    let y := q * 400 + 1 + a * 100 + b * 4 + c in
    if (c =? 4) || (a =? 4) then (y - 1, 12, 31)
    else
      let leapyear := (c =? 3) && (negb (b =? 24) || (a =? 3)) in
      (y, fst (month_day leapyear r), snd (month_day leapyear r)).
Proof.
  unfold ord2ymd, month_day, DI400Y, DI100Y, DI4Y. cbv zeta.
  destruct (_ || _); [reflexivity|].
  destruct (_ <? _); reflexivity.
Qed.

Lemma days_before_year_mono (y1 y2 : Z) :
  y1 <= y2 -> days_before_year y1 <= days_before_year y2.
Proof. unfold days_before_year. intros H. Z.div_mod_to_equations. lia. Qed.

Lemma days_before_next_year (y : Z) :
  days_before_year (y + 1)
  = days_before_year y + 365 + (if is_leap y then 1 else 0).
Proof.
  unfold days_before_year, is_leap.
  replace (y + 1 - 1) with y by lia.
  destruct (Z.eqb_spec (y mod 4) 0), (Z.eqb_spec (y mod 100) 0),
    (Z.eqb_spec (y mod 400) 0); simpl; Z.div_mod_to_equations; lia.
Qed.

(** The ordinal of a date of the calendar lies in [1, MAXORDINAL]. *)
Lemma ymd2ord_bounds (y m d : Z) :
  check_date_fields y m d = inr tt -> 1 <= ymd2ord y m d <= MAXORDINAL.
Proof.
  intros H. apply check_date_fields_ok in H as (Hy & Hm & Hd).
  rewrite days_in_month_dim in Hd. unfold ymd2ord.
  rewrite days_before_month_dbm.
  pose proof (day_of_year_bounds _ _ _ Hm Hd) as B.
  pose proof (days_before_next_year y) as N.
  pose proof (days_before_year_mono 1 y ltac:(lia)) as L.
  pose proof (days_before_year_mono (y + 1) 10000 ltac:(lia)) as U.
  change (days_before_year 1) with 0 in L.
  change (days_before_year 10000) with 3652059 in U.
  unfold MAXORDINAL. destruct (is_leap y); lia.
Qed.

(** [ord2ymd] inverts [ymd2ord] and yields a date of the calendar. *)
Lemma ord2ymd_spec (n : Z) :
  1 <= n ->
  let '(y, m, d) := ord2ymd n in
  ymd2ord y m d = n
  /\ 1 <= y /\ 1 <= m <= 12 /\ 1 <= d <= days_in_month y m.
Proof.
  intros Hn. rewrite ord2ymd_eq. cbv zeta.
  set (n' := n - 1).
  set (q := n' / 146097). set (r400 := n' mod 146097).
  set (a := r400 / 36524). set (r100 := r400 mod 36524).
  set (b := r100 / 1461). set (r4 := r100 mod 1461).
  set (c := r4 / 365). set (r := r4 mod 365).
  assert (Hq : 0 <= q) by (unfold q, n'; Z.div_mod_to_equations; lia).
  assert (E400 : n' = 146097 * q + r400 /\ 0 <= r400 < 146097)
    by (unfold q, r400; Z.div_mod_to_equations; lia).
  assert (E100 : r400 = 36524 * a + r100 /\ 0 <= r100 < 36524)
    by (unfold a, r100; Z.div_mod_to_equations; lia).
  assert (E4 : r100 = 1461 * b + r4 /\ 0 <= r4 < 1461)
    by (unfold b, r4; Z.div_mod_to_equations; lia).
  assert (E1 : r4 = 365 * c + r /\ 0 <= r < 365)
    by (unfold c, r; Z.div_mod_to_equations; lia).
  assert (En : n = n' + 1) by (unfold n'; lia).
  clearbody q r400 a r100 b r4 c r n'.
  assert (Ha : 0 <= a <= 4) by lia.
  assert (Hb : 0 <= b <= 24) by lia.
  assert (Hc : 0 <= c <= 4) by lia.
  destruct (Z.eqb_spec c 4) as [C4 | C4]; cbn [orb].
  - (* last day of a leap year that ends a 4-year cycle *)
    assert (a <= 3 /\ b <= 23 /\ r = 0) as (A3 & B23 & R0) by lia.
    replace (q * 400 + 1 + a * 100 + b * 4 + c - 1)
      with (400 * q + 100 * a + 4 * b + 3 + 1) by lia.
    unfold ymd2ord. rewrite days_in_month_dim, days_before_month_dbm.
    rewrite is_leap_spec, days_before_year_spec by lia.
    replace (b =? 24) with false by (symmetry; apply Z.eqb_neq; lia).
    match goal with |- context [dbm ?l 12] => change l with true end.
    eval_tables. lia.
  - destruct (Z.eqb_spec a 4) as [A4 | A4].
    + (* last day of a 400-year cycle *)
      assert (b = 0 /\ c = 0 /\ r = 0) as (-> & -> & ->) by lia. subst a.
      replace (q * 400 + 1 + 4 * 100 + 0 * 4 + 0 - 1)
        with (400 * q + 100 * 3 + 4 * 24 + 3 + 1) by lia.
      unfold ymd2ord. rewrite days_in_month_dim, days_before_month_dbm.
      rewrite is_leap_spec, days_before_year_spec by lia.
      match goal with |- context [dbm ?l 12] => change l with true end.
    eval_tables. lia.
    + assert (A3 : a <= 3) by lia. assert (C3 : c <= 3) by lia.
      replace (q * 400 + 1 + a * 100 + b * 4 + c)
        with (400 * q + 100 * a + 4 * b + c + 1) by lia.
      set (leapyear := (c =? 3) && (negb (b =? 24) || (a =? 3))).
      destruct (month_day_spec leapyear r ltac:(lia)) as (Hm & Hd & Hs).
      unfold ymd2ord. rewrite days_in_month_dim, days_before_month_dbm.
      rewrite is_leap_spec, days_before_year_spec by lia.
      fold leapyear. repeat split; try lia.
Qed.

Lemma ord2ymd_valid (n : Z) :
  1 <= n <= MAXORDINAL ->
  let '(y, m, d) := ord2ymd n in
  ymd2ord y m d = n /\ check_date_fields y m d = inr tt.
Proof.
  intros Hn. pose proof (ord2ymd_spec n ltac:(lia)) as H.
  destruct (ord2ymd n) as [[y m] d]. destruct H as (E & Hy & Hm & Hd).
  split; [exact E|]. apply check_date_fields_ok. repeat split; try lia.
  destruct (Z.le_gt_cases y 9999) as [L | G]; [exact L | exfalso].
  pose proof (days_before_year_mono 10000 y ltac:(lia)) as M.
  change (days_before_year 10000) with 3652059 in M.
  rewrite days_in_month_dim in Hd.
  pose proof (day_of_year_bounds _ _ _ Hm Hd) as B.
  unfold ymd2ord in E. rewrite days_before_month_dbm in E.
  unfold MAXORDINAL in Hn. lia.
Qed.

(** *** Adding days *)

Lemma add_spec (dt : datetime) (k : Z) :
  valid dt ->
  0 < toordinal dt + k <= MAXORDINAL ->
  exists r,
    add dt (mktimedelta k) = inr r
    /\ toordinal r = toordinal dt + k
    /\ time_of r = time_of dt
    /\ valid r.
Proof.
  intros [Vd Vt] Hk. unfold add. cbn [td_days].
  destruct (Z.ltb_spec 0 (toordinal dt + k)); [|lia].
  destruct (Z.leb_spec (toordinal dt + k) MAXORDINAL); [|lia].
  cbn [andb]. pose proof (ord2ymd_valid (toordinal dt + k) ltac:(lia)) as O.
  destruct (ord2ymd (toordinal dt + k)) as [[y m] d]. destruct O as [E C].
  apply check_time_fields_ok in Vt as (Hh & Hmi & Hs & Hus).
  set (seconds := hour dt * 3600 + minute dt * 60 + second dt).
  assert (T1 : seconds / 3600 = hour dt)
    by (unfold seconds; Z.div_mod_to_equations; lia).
  assert (T2 : seconds mod 3600 / 60 = minute dt)
    by (unfold seconds; Z.div_mod_to_equations; lia).
  assert (T3 : (seconds mod 3600) mod 60 = second dt)
    by (unfold seconds; Z.div_mod_to_equations; lia).
  rewrite T1, T2, T3. eexists. split; [reflexivity|]. split; [exact E|].
  split; [reflexivity|]. split; [exact C|].
  apply check_time_fields_ok. cbn. lia.
Qed.

Lemma add_overflow (dt : datetime) (k : Z) :
  ~ 0 < toordinal dt + k <= MAXORDINAL ->
  add dt (mktimedelta k) = inl (OverflowError (lit "date value out of range")).
Proof.
  intros Hk. unfold add. cbn [td_days].
  destruct (Z.ltb_spec 0 (toordinal dt + k)),
    (Z.leb_spec (toordinal dt + k) MAXORDINAL); try reflexivity. lia.
Qed.

Lemma toordinal_bounds (dt : datetime) :
  valid dt -> 1 <= toordinal dt <= MAXORDINAL.
Proof. intros [Vd _]. apply ymd2ord_bounds, Vd. Qed.

Lemma weekday_range (dt : datetime) : 0 <= weekday dt <= 6.
Proof. unfold weekday. Z.div_mod_to_equations. lia. Qed.

End Calendar.

(** ** Weekend adjustment *)

(** C3: for every date, [adjust_for_weekend] returns a date.  For a
    Saturday (weekday 5) it is the date plus a [timedelta] of 2 days, for
    a Sunday (weekday 6) the date plus 1 day, with the time of day kept;
    any other date is returned as it is.  The result never falls on a
    Saturday or a Sunday. *)
Theorem adjust_for_weekend_spec (dt : Datetime.datetime) :
  Datetime.valid dt ->
  exists r,
    adjust_for_weekend dt = inr r
    /\ (Datetime.weekday dt = 5%Z ->
        Datetime.add dt (Datetime.mktimedelta 2) = inr r
        /\ Datetime.toordinal r = (Datetime.toordinal dt + 2)%Z
        /\ time_of r = time_of dt)
    /\ (Datetime.weekday dt = 6%Z ->
        Datetime.add dt (Datetime.mktimedelta 1) = inr r
        /\ Datetime.toordinal r = (Datetime.toordinal dt + 1)%Z
        /\ time_of r = time_of dt)
    /\ (Datetime.weekday dt <> 5%Z -> Datetime.weekday dt <> 6%Z -> r = dt)
    /\ Datetime.weekday r <> 5%Z
    /\ Datetime.weekday r <> 6%Z.
Proof.
  intros V. pose proof (toordinal_bounds dt V) as B.
  unfold adjust_for_weekend, Datetime.MAXORDINAL in *.
  destruct (Z.eqb_spec (Datetime.weekday dt) 5) as [W5 | W5];
    [|destruct (Z.eqb_spec (Datetime.weekday dt) 6) as [W6 | W6]].
  - change (Datetime.timedelta_days 2) with (@inr exn _ (Datetime.mktimedelta 2)).
    cbn [ebind]. unfold Datetime.weekday in W5.
    destruct (add_spec dt 2 V) as (r & E & O & T & _).
    { unfold Datetime.MAXORDINAL. Z.div_mod_to_equations. lia. }
    exists r. rewrite E. unfold Datetime.weekday. rewrite O.
    repeat split; auto; try (intros; Z.div_mod_to_equations; lia).
  - change (Datetime.timedelta_days 1) with (@inr exn _ (Datetime.mktimedelta 1)).
    cbn [ebind]. unfold Datetime.weekday in W6.
    destruct (add_spec dt 1 V) as (r & E & O & T & _).
    { unfold Datetime.MAXORDINAL. Z.div_mod_to_equations. lia. }
    exists r. rewrite E. unfold Datetime.weekday. rewrite O.
    repeat split; auto; try (intros; Z.div_mod_to_equations; lia).
  - exists dt. repeat split; auto; try contradiction.
Qed.

Lemma adjust_for_weekend_spec_witness :
  let sat := Datetime.mkdatetime 2024 6 15 10 30 0 0 in
  exists r,
    adjust_for_weekend sat = inr r
    /\ (Datetime.weekday sat = 5%Z ->
        Datetime.add sat (Datetime.mktimedelta 2) = inr r
        /\ Datetime.toordinal r = (Datetime.toordinal sat + 2)%Z
        /\ time_of r = time_of sat)
    /\ (Datetime.weekday sat = 6%Z ->
        Datetime.add sat (Datetime.mktimedelta 1) = inr r
        /\ Datetime.toordinal r = (Datetime.toordinal sat + 1)%Z
        /\ time_of r = time_of sat)
    /\ (Datetime.weekday sat <> 5%Z -> Datetime.weekday sat <> 6%Z -> r = sat)
    /\ Datetime.weekday r <> 5%Z
    /\ Datetime.weekday r <> 6%Z.
Proof.
  cbv zeta.
  apply (adjust_for_weekend_spec (Datetime.mkdatetime 2024 6 15 10 30 0 0)).
  split; reflexivity.
Defined.

(** ** Birthday: parsing and rendering *)

Section BirthdayFormat.
Import Datetime.
Local Open Scope Z_scope.

Lemma ascii_digit_cases (c : N) :
  ascii_digit c = true ->
  (c = 48 \/ c = 49 \/ c = 50 \/ c = 51 \/ c = 52 \/ c = 53 \/ c = 54
   \/ c = 55 \/ c = 56 \/ c = 57)%N.
Proof.
  unfold ascii_digit. rewrite andb_true_iff, !N.leb_le. lia.
Qed.

Ltac digit_cases c H :=
  apply ascii_digit_cases in H;
  repeat (destruct H as [H | H]); subst c.

Lemma ascii_digit_isdecimal (c : N) :
  ascii_digit c = true -> char_isdecimal c = true.
Proof. intros H. digit_cases c H; reflexivity. Qed.

Lemma ascii_digit_todecimal (c : N) :
  ascii_digit c = true -> char_todecimal c = Some (digit_value c).
Proof. intros H. digit_cases c H; reflexivity. Qed.

Lemma ascii_digit_value (c : N) :
  ascii_digit c = true ->
  0 <= digit_value c <= 9 /\ c = Z.to_N (48 + digit_value c).
Proof. intros H. digit_cases c H; cbv; repeat split; congruence. Qed.

(** The day group and the dot after it. *)
Lemma group_d_dot {A} (d1 d2 : N) (rest : str) (k : str -> str -> list A) :
  ascii_digit d1 = true -> ascii_digit d2 = true ->
  1 <= 10 * digit_value d1 + digit_value d2 <= 31 ->
  flat_map (fun '(d, r1) => flat_map (fun '(_, r2) => k d r2) (chr 46 r1))
    (group_d (d1 :: d2 :: 46%N :: rest))
  = k [d1; d2] rest.
Proof.
  intros H1 H2 V.
  digit_cases d1 H1; digit_cases d2 H2;
    try (exfalso; unfold digit_value in V; lia);
    cbn; rewrite ?app_nil_r; reflexivity.
Qed.

(** The month group and the dot after it. *)
Lemma group_m_dot {A} (m1 m2 : N) (rest : str) (k : str -> str -> list A) :
  ascii_digit m1 = true -> ascii_digit m2 = true ->
  1 <= 10 * digit_value m1 + digit_value m2 <= 12 ->
  flat_map (fun '(m, r3) => flat_map (fun '(_, r4) => k m r4) (chr 46 r3))
    (group_m (m1 :: m2 :: 46%N :: rest))
  = k [m1; m2] rest.
Proof.
  intros H1 H2 V.
  digit_cases m1 H1; digit_cases m2 H2;
    try (exfalso; unfold digit_value in V; lia);
    cbn; rewrite ?app_nil_r; reflexivity.
Qed.

Lemma group_Y_digits (y1 y2 y3 y4 : N) :
  ascii_digit y1 = true -> ascii_digit y2 = true ->
  ascii_digit y3 = true -> ascii_digit y4 = true ->
  group_Y [y1; y2; y3; y4] = [([y1; y2; y3; y4], [])].
Proof.
  intros H1 H2 H3 H4. unfold group_Y, cat, re_digit, class.
  rewrite (ascii_digit_isdecimal y1 H1). cbn [flat_map map app].
  rewrite (ascii_digit_isdecimal y2 H2). cbn [flat_map map app].
  rewrite (ascii_digit_isdecimal y3 H3). cbn [flat_map map app].
  rewrite (ascii_digit_isdecimal y4 H4). reflexivity.
Qed.

Lemma int_two_digits (c1 c2 : N) :
  ascii_digit c1 = true -> ascii_digit c2 = true ->
  int [c1; c2] = Some (10 * digit_value c1 + digit_value c2).
Proof.
  intros H1 H2. digit_cases c1 H1; digit_cases c2 H2; reflexivity.
Qed.

Lemma int_four_digits (c1 c2 c3 c4 : N) :
  ascii_digit c1 = true -> ascii_digit c2 = true ->
  ascii_digit c3 = true -> ascii_digit c4 = true ->
  int [c1; c2; c3; c4]
  = Some (1000 * digit_value c1 + 100 * digit_value c2
          + 10 * digit_value c3 + digit_value c4).
Proof.
  intros H1 H2 H3 H4. unfold int.
  replace (N.eqb c1 32) with false
    by (symmetry; apply N.eqb_neq; apply ascii_digit_cases in H1; lia).
  cbn [andb int_digits].
  rewrite !ascii_digit_todecimal by assumption. f_equal. lia.
Qed.

(** [strptime] on a well-formed string. *)
Lemma strptime_DD_MM_YYYY (s : str) (d m y : Z) :
  DD_MM_YYYY s d m y -> strptime s = Some (mkdatetime y m d 0 0 0 0).
Proof.
  intros (d1 & d2 & m1 & m2 & y1 & y2 & y3 & y4 & -> & F & -> & -> & -> & C).
  repeat match goal with
         | H : Forall _ (_ :: _) |- _ =>
             let Hc := fresh "D" in inversion H as [|? ? Hc ?]; subst; clear H
         end.
  pose proof C as C'. apply check_date_fields_ok in C' as (Hy & Hm & Hd).
  assert (Hd' : 1 <= 10 * digit_value d1 + digit_value d2 <= 31).
  { split; [lia|]. rewrite days_in_month_dim in Hd.
    set (mo := 10 * digit_value m1 + digit_value m2) in *.
    set (l := is_leap _) in *. clearbody mo l.
    assert (dim l mo <= 31) by (month_cases mo; destruct l; cbv; discriminate).
    lia. }
  unfold strptime, format_regex.
  rewrite (group_d_dot d1 d2 _ _ D D0 Hd').
  rewrite (group_m_dot m1 m2 _ _ D1 D2 Hm).
  rewrite group_Y_digits by assumption. cbn [map].
  rewrite int_four_digits, !int_two_digits by assumption.
  rewrite C. reflexivity.
Qed.

(** Rendering *)

Lemma zfill_two_digits (c1 c2 : N) :
  ascii_digit c1 = true -> ascii_digit c2 = true ->
  zfill 2 (str_of_int (10 * digit_value c1 + digit_value c2)) = [c1; c2].
Proof.
  intros H1 H2. digit_cases c1 H1; digit_cases c2 H2; reflexivity.
Qed.

Lemma digits_fuel_4 (f : nat) (n : Z) (acc : str) :
  0 <= n < 10000 ->
  digits_fuel (4 + f) n acc = digits4 n ++ acc.
Proof.
  intros Hn. unfold digits4. cbn [digits_fuel Nat.add]. fold (digit_char n).
  fold (digit_char (n / 10)). fold (digit_char (n / 10 / 10)).
  fold (digit_char (n / 10 / 10 / 10)).
  assert (E2 : n / 10 / 10 = n / 100) by (Z.div_mod_to_equations; lia).
  assert (E3 : n / 10 / 10 / 10 = n / 1000) by (Z.div_mod_to_equations; lia).
  rewrite E3, E2.
  destruct (Z.ltb_spec n 10); [reflexivity|].
  destruct (Z.ltb_spec (n / 10) 10), (Z.ltb_spec n 100);
    try (exfalso; Z.div_mod_to_equations; lia); [reflexivity|].
  destruct (Z.ltb_spec (n / 100) 10), (Z.ltb_spec n 1000);
    try (exfalso; Z.div_mod_to_equations; lia); [reflexivity|].
  destruct (Z.ltb_spec (n / 1000) 10); [reflexivity|].
  exfalso; Z.div_mod_to_equations; lia.
Qed.

Lemma str_of_int_digits4 (n : Z) :
  0 <= n < 10000 -> str_of_int n = digits4 n.
Proof.
  intros Hn. unfold str_of_int.
  destruct (Z.ltb_spec n 0); [lia|].
  destruct (Z.ltb_spec n 10) as [L | G].
  - unfold digits4. cbn [digits_fuel].
    destruct (Z.ltb_spec n 10); [reflexivity | lia].
  - pose proof (Z.log2_le_mono 8 n ltac:(lia)) as L2.
    change (Z.log2 8) with 3 in L2.
    replace (S (Z.to_nat (Z.log2 n)))
      with (4 + (Z.to_nat (Z.log2 n) - 3))%nat by lia.
    rewrite digits_fuel_4 by lia. apply app_nil_r.
Qed.

Lemma digits4_four (y1 y2 y3 y4 : N) :
  ascii_digit y1 = true -> ascii_digit y2 = true ->
  ascii_digit y3 = true -> ascii_digit y4 = true ->
  let y := 1000 * digit_value y1 + 100 * digit_value y2
           + 10 * digit_value y3 + digit_value y4 in
  zfill 4 (digits4 y) = [y1; y2; y3; y4]
  /\ (1000 <= y -> digits4 y = [y1; y2; y3; y4]).
Proof.
  intros H1 H2 H3 H4 y.
  apply ascii_digit_value in H1 as [B1 E1], H2 as [B2 E2], H3 as [B3 E3],
    H4 as [B4 E4].
  set (a := digit_value y1) in *. set (b := digit_value y2) in *.
  set (c := digit_value y3) in *. set (d := digit_value y4) in *.
  clearbody a b c d. subst y1 y2 y3 y4.
  assert (D4 : digit_char y = Z.to_N (48 + d))
    by (unfold digit_char, y; f_equal; Z.div_mod_to_equations; lia).
  assert (D3 : digit_char (y / 10) = Z.to_N (48 + c))
    by (unfold digit_char, y; f_equal; Z.div_mod_to_equations; lia).
  assert (D2 : digit_char (y / 100) = Z.to_N (48 + b))
    by (unfold digit_char, y; f_equal; Z.div_mod_to_equations; lia).
  assert (D1 : digit_char (y / 1000) = Z.to_N (48 + a))
    by (unfold digit_char, y; f_equal; Z.div_mod_to_equations; lia).
  unfold digits4. rewrite D1, D2, D3, D4.
  destruct (Z.ltb_spec y 10); [|destruct (Z.ltb_spec y 100);
    [|destruct (Z.ltb_spec y 1000)]].
  - assert (a = 0 /\ b = 0 /\ c = 0) as (-> & -> & ->) by (unfold y in *; lia).
    split; [reflexivity | lia].
  - assert (a = 0 /\ b = 0) as (-> & ->) by (unfold y in *; lia).
    split; [reflexivity | lia].
  - assert (a = 0) as -> by (unfold y in *; lia).
    split; [reflexivity | lia].
  - split; [reflexivity | reflexivity].
Qed.

End BirthdayFormat.

(** C6, as stated, fails where the C library prints [%Y] without padding
    (glibc): a year below 1000 is parsed from four digits and rendered
    with fewer. *)
Lemma Birthday_roundtrip_fails_before_1000 :
  let s := lit "01.01.0999" in
  DD_MM_YYYY s 1 1 999
  /\ Birthday_init s = inr (mkBirthday (Datetime.mkdatetime 999 1 1 0 0 0 0))
  /\ Birthday_str Datetime.Glibc (mkBirthday (Datetime.mkdatetime 999 1 1 0 0 0 0))
     = lit "01.01.999"
  /\ lit "01.01.999" <> s.
Proof.
  cbv zeta. split; [|split; [reflexivity | split; [reflexivity | discriminate]]].
  exists 48%N, 49%N, 48%N, 49%N, 48%N, 57%N, 57%N, 57%N.
  repeat split. repeat constructor.
Qed.

(** C6 (amended): for every string written DD.MM.YYYY with values that
    form a date of the calendar, [Birthday] is constructed and holds
    that date at midnight.  Rendering gives back the identical string
    when the year is at least 1000, on every platform, and for every
    year where [%Y] is padded to four digits. *)
Theorem Birthday_roundtrip (s : str) (d m y : Z) :
  DD_MM_YYYY s d m y ->
  exists b,
    Birthday_init s = inr b
    /\ birthday_value b = Datetime.mkdatetime y m d 0 0 0 0
    /\ Birthday_str Datetime.PaddedYear b = s
    /\ ((1000 <= y)%Z -> forall platform, Birthday_str platform b = s).
Proof.
  intros H. pose proof (strptime_DD_MM_YYYY s d m y H) as P.
  exists (mkBirthday (Datetime.mkdatetime y m d 0 0 0 0)).
  unfold Birthday_init. rewrite P. split; [reflexivity|]. split; [reflexivity|].
  destruct H as (d1 & d2 & m1 & m2 & y1 & y2 & y3 & y4 & -> & F & -> & -> & Ey & C).
  repeat match goal with
         | H : Forall _ (_ :: _) |- _ =>
             let Hc := fresh "D" in inversion H as [|? ? Hc ?]; subst; clear H
         end.
  pose proof (digits4_four y1 y2 y3 y4 D3 D4 D5 D6) as [Z4 G4].
  apply check_date_fields_ok in C as (Hy & _ & _).
  unfold Birthday_str, Datetime.strftime, Datetime.strftime_Y.
  cbn [birthday_value Datetime.year Datetime.month Datetime.day].
  rewrite !zfill_two_digits by assumption.
  rewrite str_of_int_digits4 by lia.
  split.
  - rewrite Z4. reflexivity.
  - intros Hk [|].
    + rewrite G4 by exact Hk. reflexivity.
    + rewrite Z4. reflexivity.
Qed.

Lemma Birthday_roundtrip_witness :
  exists b,
    Birthday_init (lit "29.02.2024") = inr b
    /\ birthday_value b = Datetime.mkdatetime 2024 2 29 0 0 0 0
    /\ Birthday_str Datetime.PaddedYear b = lit "29.02.2024"
    /\ ((1000 <= 2024)%Z ->
        forall platform, Birthday_str platform b = lit "29.02.2024").
Proof.
  apply (Birthday_roundtrip (lit "29.02.2024") 29 2 2024).
  exists 50%N, 57%N, 48%N, 50%N, 50%N, 48%N, 50%N, 52%N.
  repeat split. repeat constructor.
Defined.

(** ** Order of dates and ordinals *)

Section DateOrder.
Import Datetime.
Local Open Scope Z_scope.

Lemma dbm_step (l : bool) (m1 m2 : Z) :
  1 <= m1 -> m1 < m2 -> m2 <= 12 -> dbm l m1 + dim l m1 <= dbm l m2.
Proof.
  intros H1 H H2. month_cases m1; month_cases m2; try lia;
    destruct l; eval_tables; lia.
Qed.

Lemma ymd2ord_next_year (y m d : Z) :
  ymd2ord y m d + 365 <= ymd2ord (y + 1) m d.
Proof.
  unfold ymd2ord. rewrite !days_before_month_dbm, days_before_next_year.
  unfold dbm. destruct (2 <? m), (is_leap y), (is_leap (y + 1)); cbn [andb]; lia.
Qed.

Lemma ymd2ord_mono (y1 m1 d1 y2 m2 d2 : Z) :
  check_date_fields y1 m1 d1 = inr tt ->
  check_date_fields y2 m2 d2 = inr tt ->
  y1 < y2 \/ (y1 = y2 /\ (m1 < m2 \/ (m1 = m2 /\ d1 <= d2))) ->
  ymd2ord y1 m1 d1 <= ymd2ord y2 m2 d2.
Proof.
  intros C1 C2 H.
  apply check_date_fields_ok in C1 as (Hy1 & Hm1 & Hd1).
  apply check_date_fields_ok in C2 as (Hy2 & Hm2 & Hd2).
  rewrite days_in_month_dim in Hd1, Hd2. unfold ymd2ord.
  rewrite !days_before_month_dbm.
  pose proof (day_of_year_bounds _ _ _ Hm1 Hd1) as B1.
  pose proof (day_of_year_bounds _ _ _ Hm2 Hd2) as B2.
  destruct H as [H | [-> [H | [-> H]]]].
  - pose proof (days_before_next_year y1) as N.
    pose proof (days_before_year_mono (y1 + 1) y2 ltac:(lia)) as M.
    destruct (is_leap y1); lia.
  - pose proof (dbm_step (is_leap y2) m1 m2 ltac:(lia) H ltac:(lia)). lia.
  - lia.
Qed.

Lemma cmp_refl_prefix (x : Z) (a b : list Z) :
  cmp (x :: a) (x :: b) = cmp a b.
Proof. cbn [cmp]. rewrite Z.compare_refl. reflexivity. Qed.

(** [a <= b] on valid datetimes orders their ordinals. *)
Lemma le_toordinal (a b : datetime) :
  valid a -> valid b -> le a b = true -> toordinal a <= toordinal b.
Proof.
  intros [Va _] [Vb _] H. unfold toordinal. apply ymd2ord_mono; try assumption.
  unfold le, astuple in H. cbn [cmp] in H.
  destruct (Z.compare_spec (year a) (year b)) as [Ey | Ly | Gy];
    [|left; exact Ly | discriminate].
  right. split; [exact Ey|].
  destruct (Z.compare_spec (month a) (month b)) as [Em | Lm | Gm];
    [|left; exact Lm | discriminate].
  right. split; [exact Em|].
  destruct (Z.compare_spec (day a) (day b)) as [Ed | Ld | Gd];
    [lia | lia | discriminate].
Qed.

(** Midnight of a day is before any other time of that day. *)
Lemma lt_midnight (y m d h mi s us : Z) :
  check_time_fields h mi s us = true ->
  (h, mi, s, us) <> (0, 0, 0, 0) ->
  lt (mkdatetime y m d 0 0 0 0) (mkdatetime y m d h mi s us) = true.
Proof.
  intros V N. apply check_time_fields_ok in V as (Hh & Hmi & Hs & Hus).
  unfold lt, astuple. cbn [year month day hour minute second microsecond].
  rewrite !cmp_refl_prefix. cbn [cmp].
  destruct (Z.compare_spec 0 h) as [<- | ? | ?]; [|reflexivity | lia].
  destruct (Z.compare_spec 0 mi) as [<- | ? | ?]; [|reflexivity | lia].
  destruct (Z.compare_spec 0 s) as [<- | ? | ?]; [|reflexivity | lia].
  destruct (Z.compare_spec 0 us) as [<- | ? | ?]; [|reflexivity | lia].
  congruence.
Qed.

Lemma add_inv (dt : datetime) (k : Z) (r : datetime) :
  valid dt ->
  add dt (mktimedelta k) = inr r ->
  toordinal r = toordinal dt + k /\ time_of r = time_of dt /\ valid r.
Proof.
  intros V H.
  destruct (Z.lt_ge_cases 0 (toordinal dt + k)) as [L | G];
    [destruct (Z.le_gt_cases (toordinal dt + k) MAXORDINAL) as [U | G]|].
  - destruct (add_spec dt k V ltac:(lia)) as (r' & E & P).
    rewrite E in H. injection H as <-. exact P.
  - rewrite add_overflow in H by lia. discriminate.
  - rewrite add_overflow in H by lia. discriminate.
Qed.

End DateOrder.

Lemma adjust_for_weekend_inv (dt r : Datetime.datetime) :
  Datetime.valid dt ->
  adjust_for_weekend dt = inr r ->
  Datetime.valid r
  /\ (Datetime.toordinal dt <= Datetime.toordinal r
      <= Datetime.toordinal dt + 2)%Z
  /\ time_of r = time_of dt.
Proof.
  intros V. unfold adjust_for_weekend.
  change (Datetime.timedelta_days 2) with (@inr exn _ (Datetime.mktimedelta 2)).
  change (Datetime.timedelta_days 1) with (@inr exn _ (Datetime.mktimedelta 1)).
  cbn [ebind].
  destruct (Z.eqb (Datetime.weekday dt) 5);
    [|destruct (Z.eqb (Datetime.weekday dt) 6)]; intros H.
  - apply add_inv in H as (O & T & Vr); [|exact V].
    split; [exact Vr | split; [lia | exact T]].
  - apply add_inv in H as (O & T & Vr); [|exact V].
    split; [exact Vr | split; [lia | exact T]].
  - injection H as <-. split; [exact V | split; [lia | reflexivity]].
Qed.

(** Whatever the book, the horizon (up to 364 days) and the time of day
    past midnight: a birthday whose day and month are today's is rolled
    to next year, and its adjusted date fails the test of the loop. *)
Lemma birthday_on_today_excluded (today next_week d : Datetime.datetime)
    (b : Birthday) (days : Z) :
  Datetime.valid today ->
  time_of (birthday_value b) = (0, 0, 0, 0)%Z ->
  Datetime.month (birthday_value b) = Datetime.month today ->
  Datetime.day (birthday_value b) = Datetime.day today ->
  time_of today <> (0, 0, 0, 0)%Z ->
  (days <= 364)%Z ->
  Datetime.add today (Datetime.mktimedelta days) = inr next_week ->
  upcoming_date today b = inr d ->
  in_window today next_week d = false.
Proof.
  intros V Tb Em Ed Tn Hdays Hnw Hd.
  destruct today as [Y mo da h mi s us].
  destruct b as [[by_ bm bd bh bmi bs bus]].
  unfold time_of in Tb, Tn.
  cbn [birthday_value Datetime.year Datetime.month Datetime.day Datetime.hour
       Datetime.minute Datetime.second Datetime.microsecond] in *.
  injection Tb as -> -> -> ->. subst bm bd.
  pose proof V as [Vd Vt]. cbn in Vd, Vt.
  unfold upcoming_date, Datetime.replace_year in Hd.
  cbn [birthday_value Datetime.year Datetime.month Datetime.day Datetime.hour
       Datetime.minute Datetime.second Datetime.microsecond] in Hd.
  rewrite Vd in Hd. cbn [ebind] in Hd.
  rewrite (lt_midnight Y mo da h mi s us Vt Tn) in Hd.
  cbn [Datetime.year Datetime.month Datetime.day Datetime.hour
       Datetime.minute Datetime.second Datetime.microsecond] in Hd.
  destruct (Datetime.check_date_fields (Y + 1) mo da) as [e | []] eqn:C;
    [discriminate|]. cbn [ebind] in Hd.
  apply adjust_for_weekend_inv in Hd as (Vr & O & _); [|split; [exact C | reflexivity]].
  apply add_inv in Hnw as (On & _ & Vn); [|exact V].
  unfold in_window. apply andb_false_iff. right.
  destruct (Datetime.le d next_week) eqn:L; [exfalso | reflexivity].
  apply le_toordinal in L; [|assumption..].
  pose proof (ymd2ord_next_year Y mo da) as N.
  unfold Datetime.toordinal in *.
  cbn [Datetime.year Datetime.month Datetime.day] in *. lia.
Qed.

(** ** Upcoming birthdays: a birthday that falls on today *)

(** C2: the claim does not hold of the code.  [today] is the timestamp
    [datetime.today()], with its time of day, and the projected birthday
    is at midnight.  On Wednesday 12 June 2024 at 10:30 a birthday of
    12 June is projected to 12 June 2024 00:00, which is before the
    timestamp, so it is rolled to 12 June 2025 and left out of the
    result; the claim includes a date that lands on today.  Only with
    the clock at midnight is the same record included. *)
Theorem birthday_today_not_upcoming :
  let b := mkBirthday (Datetime.mkdatetime 1990 6 12 0 0 0 0) in
  let alice := mkRecord (lit "Alice") [] (Some b) in
  let book := [(lit "Alice", alice)] in
  let today := Datetime.mkdatetime 2024 6 12 10 30 0 0 in
  let midnight := Datetime.mkdatetime 2024 6 12 0 0 0 0 in
  Birthday_init (lit "12.06.1990") = inr b
  /\ Datetime.weekday today = 2%Z
  /\ upcoming_date today b = inr (Datetime.mkdatetime 2025 6 12 0 0 0 0)
  /\ get_upcoming_birthdays today 7 book = inr []
  /\ get_upcoming_birthdays midnight 7 book = inr [(alice, midnight)]
  /\ birthdays (mkEnv today Datetime.Glibc) [] (mkWorld 0 book [])
     = (inr None,
        mkWorld 0 book [lit "No upcoming birthdays in the next week."]).
Proof.
  cbv zeta. repeat split; vm_compute; reflexivity.
Qed.

(** * Further properties of the code *)

(** ** Record: finding, removing and adding phones *)

Lemma find_split (v : str) (l : list Phone) (q : Phone) :
  List.find (fun phone => str_eqb (Phone_str phone) v) l = Some q ->
  phone_value q = v
  /\ exists pre post,
       l = pre ++ q :: post /\ ~ In v (map phone_value pre).
Proof.
  induction l as [|p l IH]; simpl; [discriminate|].
  unfold Phone_str at 1. destruct (str_eqb (phone_value p) v) eqn:E.
  - intros H; injection H as <-. apply str_eqb_eq in E. split; [exact E|].
    exists [], l. split; [reflexivity | simpl; tauto].
  - intros H. destruct (IH H) as (Hv & pre & post & -> & Hpre).
    split; [exact Hv|]. exists (p :: pre), post. split; [reflexivity|].
    simpl. intros [H1 | H1]; [|auto].
    rewrite H1, str_eqb_refl in E. discriminate.
Qed.

Lemma drop_first_split (v : str) (l : list Phone) :
  In v (map phone_value l) ->
  exists pre q post,
    l = pre ++ q :: post /\ phone_value q = v
    /\ ~ In v (map phone_value pre) /\ drop_first v l = pre ++ post.
Proof.
  induction l as [|p l IH]; simpl; [tauto|]. intros H.
  destruct (str_eqb (phone_value p) v) eqn:E.
  - apply str_eqb_eq in E. exists [], p, l. simpl. tauto.
  - destruct H as [H | H]; [rewrite H, str_eqb_refl in E; discriminate|].
    destruct (IH H) as (pre & q & post & -> & Hq & Hpre & Hd).
    exists (p :: pre), q, post. simpl. rewrite Hd. repeat split; auto.
    intros [H1 | H1]; [|auto]. rewrite H1, str_eqb_refl in E. discriminate.
Qed.

Lemma drop_first_absent (v : str) (l : list Phone) :
  ~ In v (map phone_value l) -> drop_first v l = l.
Proof.
  induction l as [|p l IH]; simpl; [reflexivity|]. intros H.
  destruct (str_eqb (phone_value p) v) eqn:E.
  - apply str_eqb_eq in E. exfalso; auto.
  - rewrite IH by auto. reflexivity.
Qed.

(** X1: [find_phone v] never raises and never changes the record.  It
    returns [None] exactly when no phone has the digits [v]; otherwise it
    returns the first phone in list order whose digits are [v]. *)
Theorem find_phone_spec (v : str) (s : RecordState) :
  exists r,
    find_phone v s = (inr r, s)
    /\ (r = None <-> ~ holds (self s) v)
    /\ (forall q, r = Some q ->
          phone_value q = v
          /\ exists pre post,
               phones (self s) = pre ++ q :: post
               /\ ~ In v (map phone_value pre)).
Proof.
  eexists. split; [apply find_phone_run|]. split.
  - apply find_phone_value.
  - intros q H. apply find_split, H.
Qed.

(** X2: [remove_phone p] with well-formed digits [p] returns normally.
    If [p] is on the record, exactly the first phone with these digits
    is taken out and all other phones keep their order; if [p] is not on
    the record the phones are left as they are, and no error is raised.
    Name and birthday are never touched. *)
Theorem remove_phone_spec (p : str) (s : RecordState) :
  heap_ok s ->
  is_phone p = true ->
  exists s',
    remove_phone p s = (inr tt, s')
    /\ name (self s') = name (self s)
    /\ birthday (self s') = birthday (self s)
    /\ (~ holds (self s) p -> phones (self s') = phones (self s))
    /\ (holds (self s) p ->
        exists pre q post,
          phones (self s) = pre ++ q :: post
          /\ phone_value q = p
          /\ ~ In p (map phone_value pre)
          /\ phones (self s') = pre ++ post)
    /\ (forall v, v <> p -> count_phone (self s') v = count_phone (self s) v).
Proof.
  intros (ND & _ & _) V. rewrite (remove_phone_ok _ _ ND V).
  eexists. split; [reflexivity|]. unfold with_phones. cbn [self name birthday phones].
  repeat split.
  - intros H. apply drop_first_absent, H.
  - intros H. destruct (drop_first_split _ _ H) as (pre & q & post & E & Hq & Hpre & Hd).
    exists pre, q, post. auto.
  - intros v Hv. rewrite !count_phone_value. cbn [phones].
    rewrite count_drop_first, str_eqb_neq by congruence. reflexivity.
Qed.

Lemma remove_phone_spec_witness :
  let p := lit "1111111111" in
  let q := lit "2222222222" in
  let s0 := mkRS 0 (Record_init (lit "Bob")) in
  let s := snd (add_phone p (snd (add_phone q (snd (add_phone p s0))))) in
  heap_ok s /\ is_phone p = true
  /\ exists s', remove_phone p s = (inr tt, s')
                /\ name (self s') = name (self s).
Proof.
  cbv zeta.
  match goal with
  | |- heap_ok ?s /\ _ => assert (OK : heap_ok s) by heap_ok_eval
  end.
  split; [exact OK|]. split; [reflexivity|].
  destruct (remove_phone_spec _ _ OK (eq_refl : is_phone (lit "1111111111") = true))
    as (s' & E & N & _).
  exists s'. split; assumption.
Defined.

(** X3: [remove_phone p] with malformed [p] raises the ValueError of
    [Phone] before looking at the record, which is left unchanged. *)
Theorem remove_phone_malformed (p : str) (s : RecordState) :
  is_phone p = false ->
  remove_phone p s
  = (inl (ValueError (lit "Phone number must contain exactly 10 digits.")), s).
Proof.
  intros V. unfold remove_phone, bind, with_alloc, zoom.
  rewrite (Phone_init_fail _ _ V). destruct s; reflexivity.
Qed.

Lemma remove_phone_malformed_witness :
  let s := snd (add_phone (lit "1111111111") (mkRS 0 (Record_init (lit "Bob")))) in
  remove_phone (lit "111") s
  = (inl (ValueError (lit "Phone number must contain exactly 10 digits.")), s).
Proof.
  cbv zeta. apply (remove_phone_malformed (lit "111")). reflexivity.
Defined.

(** X4: after a successful [add_phone p] the new phone is the last of
    the list, every phone held before is still there in the same order,
    and [find_phone p] finds a phone with the digits [p]. *)
Theorem add_phone_then_find (p : str) (s : RecordState) :
  heap_ok s ->
  is_phone p = true ->
  exists s',
    add_phone p s = (inr tt, s')
    /\ phone_values (self s') = phone_values (self s) ++ [p]
    /\ name (self s') = name (self s)
    /\ birthday (self s') = birthday (self s)
    /\ exists q, find_phone p s' = (inr (Some q), s') /\ phone_value q = p.
Proof.
  intros (_ & F & _) V. rewrite (add_phone_ok _ _ F V).
  eexists. split; [reflexivity|]. unfold with_phones, phone_values.
  cbn [self name birthday phones]. rewrite map_app. repeat split.
  rewrite find_phone_run. cbn [self phones].
  destruct (List.find _ _) as [q|] eqn:E.
  - exists q. split; [reflexivity|]. apply find_split in E. apply E.
  - exfalso. apply find_phone_value in E. apply E.
    rewrite map_app, in_app_iff. right; left; reflexivity.
Qed.

Lemma add_phone_then_find_witness :
  let s := snd (add_phone (lit "1111111111") (mkRS 0 (Record_init (lit "Bob")))) in
  heap_ok s /\ is_phone (lit "2222222222") = true
  /\ exists s',
       add_phone (lit "2222222222") s = (inr tt, s')
       /\ phone_values (self s') = phone_values (self s) ++ [lit "2222222222"].
Proof.
  cbv zeta.
  match goal with
  | |- heap_ok ?s /\ _ => assert (OK : heap_ok s) by heap_ok_eval
  end.
  split; [exact OK|]. split; [reflexivity|].
  destruct (add_phone_then_find _ _ OK (eq_refl : is_phone (lit "2222222222") = true))
    as (s' & E & Hv & _).
  exists s'. split; assumption.
Defined.

(** X5: on a record with sound identities [add_phone] raises exactly
    when the digits are malformed, and a call that raises leaves record
    and allocator unchanged. *)
Theorem add_phone_raises_iff_malformed (p : str) (s : RecordState) :
  heap_ok s ->
  (fst (add_phone p s) = inr tt <-> is_phone p = true)
  /\ (forall e, fst (add_phone p s) = inl e ->
        is_phone p = false
        /\ e = ValueError (lit "Phone number must contain exactly 10 digits.")
        /\ snd (add_phone p s) = s).
Proof.
  intros (_ & F & _). destruct (is_phone p) eqn:V.
  - rewrite (add_phone_ok _ _ F V). cbn [fst snd]. split; [tauto|].
    intros e H; discriminate.
  - rewrite (add_phone_fail _ _ V). cbn [fst snd]. split.
    + split; discriminate.
    + intros e H. injection H as <-. auto.
Qed.

Lemma add_phone_raises_iff_malformed_witness :
  let s := snd (add_phone (lit "1111111111") (mkRS 0 (Record_init (lit "Bob")))) in
  heap_ok s
  /\ (fst (add_phone (lit "22") s) = inr tt <-> is_phone (lit "22") = true).
Proof.
  cbv zeta.
  match goal with
  | |- heap_ok ?s /\ _ => assert (OK : heap_ok s) by heap_ok_eval
  end.
  split; [exact OK|].
  exact (proj1 (add_phone_raises_iff_malformed (lit "22") _ OK)).
Defined.

(** X6: a successful [edit_phone old new] does not keep the position of
    the edited phone: the first phone with the digits [old] is taken
    out, the others keep their order, and [new] is put at the end. *)
Theorem edit_phone_moves_to_end (old new : str) (s : RecordState) :
  heap_ok s ->
  holds (self s) old ->
  is_phone new = true ->
  exists s' pre q post,
    edit_phone old new s = (inr tt, s')
    /\ phones (self s) = pre ++ q :: post
    /\ phone_value q = old
    /\ ~ In old (map phone_value pre)
    /\ phone_values (self s')
       = map phone_value pre ++ map phone_value post ++ [new].
Proof.
  intros OK H V. rewrite (edit_phone_present _ _ _ OK H).
  destruct (drop_first_split _ _ H) as (pre & q & post & E & Hq & Hpre & Hd).
  rewrite add_phone_ok; [|unfold with_phones; cbn [alloc self phones] | exact V].
  - eexists; exists pre, q, post. split; [reflexivity|].
    unfold with_phones, phone_values. cbn [self phones].
    rewrite Hd, !map_app, <- app_assoc. auto.
  - destruct OK as (_ & F & _). rewrite Forall_forall in *.
    intros x Hx. specialize (F x (drop_first_incl _ _ _ Hx)). lia.
Qed.

Lemma edit_phone_moves_to_end_witness :
  let a := lit "1111111111" in
  let b := lit "2222222222" in
  let c := lit "3333333333" in
  let s := snd (add_phone b (snd (add_phone a (mkRS 0 (Record_init (lit "Bob")))))) in
  heap_ok s /\ holds (self s) a /\ is_phone c = true
  /\ exists s', edit_phone a c s = (inr tt, s').
Proof.
  cbv zeta.
  match goal with
  | |- heap_ok ?s /\ _ => assert (OK : heap_ok s) by heap_ok_eval
  end.
  split; [exact OK|].
  match goal with
  | |- holds ?r ?a /\ _ => assert (H : holds r a) by (left; reflexivity)
  end.
  split; [exact H|]. split; [reflexivity|].
  destruct (edit_phone_moves_to_end _ _ _ OK H
              (eq_refl : is_phone (lit "3333333333") = true))
    as (s' & pre & q & post & E & _).
  exists s'. exact E.
Defined.

(** ** Birthday and the invariants of a record *)

Lemma strptime_valid (s : str) (dt : Datetime.datetime) :
  Datetime.strptime s = Some dt ->
  Datetime.valid dt /\ time_of dt = (0, 0, 0, 0)%Z.
Proof.
  unfold Datetime.strptime.
  destruct (Datetime.format_regex s) as [|[[[d m] Y] rest] ?]; [discriminate|].
  destruct rest; [|discriminate].
  destruct (Datetime.int Y) as [y|]; [|discriminate].
  destruct (Datetime.int m) as [mo|]; [|discriminate].
  destruct (Datetime.int d) as [da|]; [|discriminate].
  destruct (Datetime.check_date_fields y mo da) as [e|[]] eqn:C; [discriminate|].
  intros H; injection H as <-. split; [|reflexivity].
  split; [exact C | reflexivity].
Qed.

(** X7: whatever string [Birthday] accepts, the value it stores is a
    date of the calendar (a day that exists in its month and year, year
    1 to 9999) with the time of day at midnight; every other string
    raises the ValueError "Invalid date format. Use DD.MM.YYYY". *)
Theorem Birthday_init_sound (value : str) :
  (exists b,
     Birthday_init value = inr b
     /\ Datetime.valid (birthday_value b)
     /\ time_of (birthday_value b) = (0, 0, 0, 0)%Z)
  \/ Birthday_init value
     = inl (ValueError (lit "Invalid date format. Use DD.MM.YYYY")).
Proof.
  unfold Birthday_init. destruct (Datetime.strptime value) as [dt|] eqn:E.
  - left. exists (mkBirthday dt). split; [reflexivity|].
    apply strptime_valid in E. exact E.
  - right. reflexivity.
Qed.

Lemma add_phone_frame (p : str) (s : RecordState) :
  name (self (snd (add_phone p s))) = name (self s)
  /\ birthday (self (snd (add_phone p s))) = birthday (self s)
  /\ alloc s <= alloc (snd (add_phone p s)).
Proof.
  unfold add_phone, bind, with_alloc, zoom, Phone_init, get, set_phones, raise.
  destruct (negb (isdigit p) || _); cbn; [auto|].
  destruct (negb (list_contains _ _)); cbn; auto.
Qed.

Lemma remove_phone_frame (p : str) (s : RecordState) :
  name (self (snd (remove_phone p s))) = name (self s)
  /\ birthday (self (snd (remove_phone p s))) = birthday (self s)
  /\ alloc s <= alloc (snd (remove_phone p s)).
Proof.
  unfold remove_phone, bind, with_alloc, zoom, Phone_init, get, set_phones, raise.
  destruct (negb (isdigit p) || _); cbn; [auto|].
  destruct (remove_phone_loop _ _ _); cbn; auto.
Qed.

Lemma edit_phone_run (old new : str) (s : RecordState) :
  edit_phone old new s
  = match List.find (fun phone => str_eqb (Phone_str phone) old)
            (phones (self s)) with
    | Some _ =>
        match remove_phone old s with
        | (inr _, s1) => add_phone new s1
        | (inl e, s1) => (inl e, s1)
        end
    | None => (inl (ValueError (lit "Phone number not found")), s)
    end.
Proof.
  unfold edit_phone, bind. rewrite find_phone_run.
  destruct (List.find _ _); reflexivity.
Qed.

Lemma edit_phone_frame (old new : str) (s : RecordState) :
  name (self (snd (edit_phone old new s))) = name (self s)
  /\ birthday (self (snd (edit_phone old new s))) = birthday (self s)
  /\ alloc s <= alloc (snd (edit_phone old new s)).
Proof.
  rewrite edit_phone_run.
  destruct (List.find _ _); [|cbn; auto].
  pose proof (remove_phone_frame old s) as (N1 & B1 & A1).
  destruct (remove_phone old s) as [[e|[]] s1]; cbn [snd] in *; [auto|].
  pose proof (add_phone_frame new s1) as (N2 & B2 & A2).
  rewrite N2, B2, N1, B1. repeat split; lia.
Qed.

Lemma add_birthday_frame (raw : str) (s : RecordState) :
  name (self (snd (add_birthday raw s))) = name (self s)
  /\ phones (self (snd (add_birthday raw s))) = phones (self s)
  /\ alloc (snd (add_birthday raw s)) = alloc s
  /\ (birthday_ok (self s) -> birthday_ok (self (snd (add_birthday raw s)))).
Proof.
  unfold add_birthday, Birthday_init.
  destruct (Datetime.strptime raw) as [dt|] eqn:E; cbn; [|auto].
  split; [reflexivity|]. split; [reflexivity|]. split; [reflexivity|].
  intros _. unfold birthday_ok. cbn. apply (strptime_valid raw), E.
Qed.

(** What every method keeps: sound identities, a birthday that is a
    date, the name, and an allocator that only grows. *)
Lemma run_call_keeps (c : call) (s : RecordState) :
  heap_ok s -> birthday_ok (self s) ->
  heap_ok (snd (run_call c s))
  /\ birthday_ok (self (snd (run_call c s)))
  /\ name (self (snd (run_call c s))) = name (self s)
  /\ alloc s <= alloc (snd (run_call c s)).
Proof.
  intros OK B. destruct c as [p | p | old new | raw]; cbn [run_call].
  - pose proof (add_phone_frame p s) as (N & Bd & A).
    split; [apply heap_ok_add_phone, OK|].
    split; [unfold birthday_ok in *; rewrite Bd; exact B|]. auto.
  - pose proof (remove_phone_frame p s) as (N & Bd & A).
    split; [apply heap_ok_remove_phone, OK|].
    split; [unfold birthday_ok in *; rewrite Bd; exact B|]. auto.
  - pose proof (edit_phone_frame old new s) as (N & Bd & A).
    split; [apply heap_ok_edit_phone, OK|].
    split; [unfold birthday_ok in *; rewrite Bd; exact B|]. auto.
  - pose proof (add_birthday_frame raw s) as (N & P & A & Bk).
    split; [apply heap_ok_add_birthday, OK|].
    split; [apply Bk, B|]. split; [exact N | lia].
Qed.

(** X8: whatever methods are called on a record after [Record(name)],
    in any order and with any arguments, failed calls included: every
    phone on the record has ten digit characters, the phones are
    distinct objects, the birthday, if set, is a date of the calendar at
    midnight, and the name is the one given at construction. *)
Theorem run_calls_invariant (nm : str) (n : nat) (cs : list call) :
  let s := run_calls cs (mkRS n (Record_init nm)) in
  Forall (fun p => is_phone (phone_value p) = true) (phones (self s))
  /\ NoDup (map phone_id (phones (self s)))
  /\ birthday_ok (self s)
  /\ name (self s) = nm.
Proof.
  cbv zeta.
  assert (G : forall s0, heap_ok s0 -> birthday_ok (self s0) ->
                heap_ok (run_calls cs s0)
                /\ birthday_ok (self (run_calls cs s0))
                /\ name (self (run_calls cs s0)) = name (self s0)).
  { induction cs as [|c cs IH]; intros s0 OK B; cbn [run_calls]; [auto|].
    destruct (run_call_keeps c s0 OK B) as (OK' & B' & N' & _).
    destruct (IH _ OK' B') as (OK2 & B2 & N2). rewrite N2, N'. auto. }
  destruct (G (mkRS n (Record_init nm)) (heap_ok_init n nm) I)
    as ((ND & _ & V) & B & N).
  auto.
Qed.

(** ** AddressBook: add, find, delete *)

Lemma dict_get_set_same (k : str) (v : Record_) (d : AddressBook) :
  dict_get k (dict_set k v d) = Some v.
Proof.
  induction d as [|[k' v'] d IH]; simpl.
  - rewrite str_eqb_refl. reflexivity.
  - destruct (str_eqb k' k) eqn:E; simpl; rewrite E; [reflexivity | exact IH].
Qed.

Lemma dict_get_set_other (k k' : str) (v : Record_) (d : AddressBook) :
  k' <> k -> dict_get k' (dict_set k v d) = dict_get k' d.
Proof.
  intros H. induction d as [|[k0 v0] d IH]; simpl.
  - rewrite str_eqb_neq by congruence. reflexivity.
  - destruct (str_eqb k0 k) eqn:E; simpl.
    + apply str_eqb_eq in E. subst k0.
      rewrite str_eqb_neq by congruence. reflexivity.
    + rewrite IH. reflexivity.
Qed.

Lemma dict_get_None (k : str) (d : AddressBook) :
  dict_get k d = None <-> ~ In k (keys d).
Proof.
  unfold keys. induction d as [|[k' v'] d IH]; simpl; [tauto|].
  destruct (str_eqb k' k) eqn:E.
  - apply str_eqb_eq in E. split; [discriminate | intros H; exfalso; auto].
  - rewrite IH. split; [|tauto]. intros H [H1 | H1]; [|auto].
    rewrite H1, str_eqb_refl in E. discriminate.
Qed.

Lemma dict_get_In (k : str) (v : Record_) (d : AddressBook) :
  dict_get k d = Some v -> In (k, v) d.
Proof.
  induction d as [|[k' v'] d IH]; simpl; [discriminate|].
  destruct (str_eqb k' k) eqn:E.
  - apply str_eqb_eq in E. intros H; injection H as <-. left; congruence.
  - auto.
Qed.

Lemma keys_dict_set (k : str) (v : Record_) (d : AddressBook) :
  keys (dict_set k v d)
  = match dict_get k d with
    | Some _ => keys d
    | None => keys d ++ [k]
    end.
Proof.
  unfold keys. induction d as [|[k' v'] d IH]; simpl; [reflexivity|].
  destruct (str_eqb k' k) eqn:E; simpl; [reflexivity|].
  rewrite IH. destruct (dict_get k d); reflexivity.
Qed.

Lemma dict_set_absent (k : str) (v : Record_) (d : AddressBook) :
  dict_get k d = None -> dict_set k v d = d ++ [(k, v)].
Proof.
  induction d as [|[k' v'] d IH]; simpl; [reflexivity|].
  destruct (str_eqb k' k); [discriminate|]. intros H. rewrite IH by exact H.
  reflexivity.
Qed.

(** X9: after [add_record(record)], [find] under the record's name
    returns that record, also when another record was filed under the
    name before (the last one wins); every other name finds what it
    found before. *)
Theorem add_record_find (record : Record_) (b : AddressBook) :
  find (name record) (add_record record b) = Some record
  /\ forall k, k <> name record -> find k (add_record record b) = find k b.
Proof.
  unfold find, add_record. split.
  - apply dict_get_set_same.
  - intros k H. apply dict_get_set_other, H.
Qed.

(** X10: [add_record] never reorders the book.  A record under a new
    name goes to the end; a record under a name already there takes the
    place of the old one, and the list of names is unchanged.  A book
    without repeated names stays so. *)
Theorem add_record_keys (record : Record_) (b : AddressBook) :
  (find (name record) b = None ->
   add_record record b = b ++ [(name record, record)])
  /\ (find (name record) b <> None ->
      keys (add_record record b) = keys b)
  /\ (NoDup (keys b) -> NoDup (keys (add_record record b))).
Proof.
  unfold find, add_record. repeat split.
  - apply dict_set_absent.
  - intros H. rewrite keys_dict_set. destruct (dict_get _ b); congruence.
  - intros ND. rewrite keys_dict_set.
    destruct (dict_get (name record) b) eqn:E; [exact ND|].
    apply dict_get_None in E.
    apply NoDup_app; [exact ND | repeat constructor; simpl; tauto |].
    intros x Hx [<- | []]. contradiction.
Qed.

Lemma add_record_keys_witness :
  let ann := mkRecord (lit "Ann") [] None in
  let b := [(lit "Bob", mkRecord (lit "Bob") [] None)] in
  find (name ann) b = None
  /\ add_record ann b = b ++ [(lit "Ann", ann)].
Proof.
  cbv zeta. split; [reflexivity|].
  apply (proj1 (add_record_keys (mkRecord (lit "Ann") [] None)
                  [(lit "Bob", mkRecord (lit "Bob") [] None)])).
  reflexivity.
Defined.

Lemma filter_get_same (k : str) (b : AddressBook) :
  dict_get k (filter (fun kv => negb (str_eqb (fst kv) k)) b) = None.
Proof.
  induction b as [|[k0 v0] b IH]; simpl; [reflexivity|].
  destruct (str_eqb k0 k) eqn:E; simpl; [exact IH|]. rewrite E. exact IH.
Qed.

Lemma filter_get_other (k k' : str) (b : AddressBook) :
  k' <> k ->
  dict_get k' (filter (fun kv => negb (str_eqb (fst kv) k)) b) = dict_get k' b.
Proof.
  intros H. induction b as [|[k0 v0] b IH]; simpl; [reflexivity|].
  destruct (str_eqb k0 k) eqn:E; simpl.
  - apply str_eqb_eq in E. subst k0. rewrite str_eqb_neq by congruence.
    exact IH.
  - rewrite IH. reflexivity.
Qed.

Lemma filter_keys (k : str) (b : AddressBook) :
  keys (filter (fun kv => negb (str_eqb (fst kv) k)) b)
  = filter (fun k' => negb (str_eqb k' k)) (keys b).
Proof.
  unfold keys. induction b as [|[k0 v0] b IH]; simpl; [reflexivity|].
  destruct (str_eqb k0 k); simpl; rewrite IH; reflexivity.
Qed.

Lemma filter_keys_absent (k : str) (l : list str) :
  ~ In k l -> filter (fun k' => negb (str_eqb k' k)) l = l.
Proof.
  induction l as [|k0 l IH]; simpl; [reflexivity|]. intros H.
  rewrite str_eqb_neq by (intros ->; auto). simpl. rewrite IH by auto.
  reflexivity.
Qed.

(** X11: after [delete(name)] the name is not found; every other name
    finds what it found before and the remaining records keep their
    order; deleting a name that is not in the book leaves the book as it
    is and raises nothing. *)
Theorem delete_spec (k : str) (b : AddressBook) :
  find k (delete k b) = None
  /\ (forall k', k' <> k -> find k' (delete k b) = find k' b)
  /\ keys (delete k b) = filter (fun k' => negb (str_eqb k' k)) (keys b)
  /\ (find k b = None -> delete k b = b).
Proof.
  unfold find, delete. destruct (dict_get k b) eqn:E.
  - split; [apply filter_get_same|]. split; [intros; apply filter_get_other; auto|].
    split; [apply filter_keys | discriminate].
  - split; [exact E|]. split; [reflexivity|]. split; [|reflexivity].
    symmetry. apply filter_keys_absent, dict_get_None, E.
Qed.

(** ** The upcoming-birthdays query *)

Lemma upcoming_loop_inr (today next_week : Datetime.datetime)
    (records : list Record_) (acc l : list (Record_ * Datetime.datetime)) :
  upcoming_loop today next_week records acc = inr l ->
  l = acc ++ flat_map (selected today next_week) records.
Proof.
  revert acc. induction records as [|r records IH]; intros acc; cbn [upcoming_loop flat_map].
  - intros H; injection H as <-. rewrite app_nil_r. reflexivity.
  - unfold selected at 1. destruct (birthday r) as [b|].
    + destruct (upcoming_date today b) as [e|d]; cbn [ebind]; [discriminate|].
      intros H. apply IH in H. rewrite H.
      destruct (in_window today next_week d); [|reflexivity].
      rewrite <- app_assoc. reflexivity.
    + intros H. apply IH in H. exact H.
Qed.

Lemma upcoming_loop_total (today next_week : Datetime.datetime)
    (records : list Record_) (acc : list (Record_ * Datetime.datetime)) :
  (forall r b, In r records -> birthday r = Some b ->
               exists d, upcoming_date today b = inr d) ->
  exists l, upcoming_loop today next_week records acc = inr l.
Proof.
  revert acc. induction records as [|r records IH]; intros acc H;
    cbn [upcoming_loop].
  - eexists; reflexivity.
  - destruct (birthday r) as [b|] eqn:Eb.
    + destruct (H r b (or_introl eq_refl) Eb) as [d ->]. cbn [ebind].
      apply IH. intros r' b' Hin. apply H. right; exact Hin.
    + apply IH. intros r' b' Hin. apply H. right; exact Hin.
Qed.

(** X12: when [get_upcoming_birthdays] returns, its list is the book's
    records filtered in the order of the book: one pair for each record
    that has a birthday and whose adjusted date passes the window test,
    nothing for the others.  Hence a record without a birthday is never
    listed and every listed record is in the book. *)
Theorem get_upcoming_birthdays_is_filter (today : Datetime.datetime)
    (days : Z) (b : AddressBook) (l : list (Record_ * Datetime.datetime)) :
  get_upcoming_birthdays today days b = inr l ->
  exists next_week,
    Datetime.add today (Datetime.mktimedelta days) = inr next_week
    /\ l = flat_map (selected today next_week) (map snd b)
    /\ forall r d, In (r, d) l ->
         In r (map snd b)
         /\ exists bd, birthday r = Some bd
                       /\ upcoming_date today bd = inr d
                       /\ in_window today next_week d = true.
Proof.
  unfold get_upcoming_birthdays, Datetime.timedelta_days.
  destruct (Z.ltb 999999999 (Z.abs days)); cbn [ebind]; [discriminate|].
  destruct (Datetime.add today _) as [e|next_week] eqn:E; cbn [ebind];
    [discriminate|].
  intros H. apply upcoming_loop_inr in H. cbn [app] in H. subst l.
  exists next_week. split; [reflexivity|]. split; [reflexivity|].
  intros r d Hin. apply in_flat_map in Hin as (r' & Hr' & Hsel).
  unfold selected in Hsel. destruct (birthday r') as [bd|] eqn:Eb; [|contradiction].
  destruct (upcoming_date today bd) as [e|d'] eqn:Eu; [contradiction|].
  destruct (in_window today next_week d') eqn:Ew; [|contradiction].
  destruct Hsel as [Hsel | []]. injection Hsel as <- <-.
  split; [exact Hr'|]. exists bd. auto.
Qed.

Lemma get_upcoming_birthdays_is_filter_witness :
  let ann := mkRecord (lit "Ann") []
               (Some (mkBirthday (Datetime.mkdatetime 1990 6 14 0 0 0 0))) in
  let bob := mkRecord (lit "Bob") [] None in
  let today := Datetime.mkdatetime 2024 6 12 10 30 0 0 in
  let b := [(lit "Bob", bob); (lit "Ann", ann)] in
  get_upcoming_birthdays today 7 b
  = inr [(ann, Datetime.mkdatetime 2024 6 14 0 0 0 0)]
  /\ exists next_week,
       Datetime.add today (Datetime.mktimedelta 7) = inr next_week.
Proof.
  cbv zeta. split; [reflexivity|].
  destruct (get_upcoming_birthdays_is_filter
              (Datetime.mkdatetime 2024 6 12 10 30 0 0) 7
              [(lit "Bob", mkRecord (lit "Bob") [] None);
               (lit "Ann", mkRecord (lit "Ann") []
                  (Some (mkBirthday (Datetime.mkdatetime 1990 6 14 0 0 0 0))))]
              _ eq_refl) as (nw & E & _).
  exists nw. exact E.
Defined.

Lemma replace_year_inv (dt r : Datetime.datetime) (y : Z) :
  Datetime.valid dt ->
  Datetime.replace_year dt y = inr r ->
  Datetime.valid r /\ time_of r = time_of dt /\ Datetime.year r = y.
Proof.
  intros [_ Vt]. unfold Datetime.replace_year.
  destruct (Datetime.check_date_fields y _ _) as [e|[]] eqn:C; [discriminate|].
  intros H; injection H as <-. repeat split; assumption.
Qed.

Lemma adjust_for_weekend_weekday (dt r : Datetime.datetime) :
  Datetime.valid dt ->
  adjust_for_weekend dt = inr r ->
  Datetime.weekday r <> 5%Z /\ Datetime.weekday r <> 6%Z.
Proof.
  intros V. unfold adjust_for_weekend.
  change (Datetime.timedelta_days 2) with (@inr exn _ (Datetime.mktimedelta 2)).
  change (Datetime.timedelta_days 1) with (@inr exn _ (Datetime.mktimedelta 1)).
  cbn [ebind].
  destruct (Z.eqb_spec (Datetime.weekday dt) 5) as [W5 | W5];
    [|destruct (Z.eqb_spec (Datetime.weekday dt) 6) as [W6 | W6]]; intros H.
  - apply add_inv in H as (O & _ & _); [|exact V].
    unfold Datetime.weekday in *. rewrite O. Z.div_mod_to_equations. lia.
  - apply add_inv in H as (O & _ & _); [|exact V].
    unfold Datetime.weekday in *. rewrite O. Z.div_mod_to_equations. lia.
  - injection H as <-. auto.
Qed.

Lemma adjust_for_weekend_total (dt : Datetime.datetime) :
  Datetime.valid dt -> exists r, adjust_for_weekend dt = inr r.
Proof.
  intros V. pose proof (toordinal_bounds dt V) as B.
  unfold adjust_for_weekend, Datetime.MAXORDINAL in *.
  change (Datetime.timedelta_days 2) with (@inr exn _ (Datetime.mktimedelta 2)).
  change (Datetime.timedelta_days 1) with (@inr exn _ (Datetime.mktimedelta 1)).
  cbn [ebind].
  destruct (Z.eqb_spec (Datetime.weekday dt) 5) as [W5 | W5];
    [|destruct (Z.eqb_spec (Datetime.weekday dt) 6) as [W6 | W6]].
  - unfold Datetime.weekday in W5.
    destruct (add_spec dt 2 V) as (r & E & _); [|exists r; exact E].
    unfold Datetime.MAXORDINAL. Z.div_mod_to_equations. lia.
  - unfold Datetime.weekday in W6.
    destruct (add_spec dt 1 V) as (r & E & _); [|exists r; exact E].
    unfold Datetime.MAXORDINAL. Z.div_mod_to_equations. lia.
  - exists dt. reflexivity.
Qed.

Lemma upcoming_date_valid (today d : Datetime.datetime) (bd : Birthday) :
  Datetime.valid (birthday_value bd) ->
  upcoming_date today bd = inr d ->
  Datetime.valid d
  /\ Datetime.weekday d <> 5%Z /\ Datetime.weekday d <> 6%Z
  /\ time_of d = time_of (birthday_value bd).
Proof.
  intros V. unfold upcoming_date.
  destruct (Datetime.replace_year (birthday_value bd) (Datetime.year today))
    as [e|p] eqn:E1; cbn [ebind]; [discriminate|].
  apply replace_year_inv in E1 as (V1 & T1 & _); [|exact V].
  destruct (Datetime.lt p today).
  - destruct (Datetime.replace_year p (Datetime.year today + 1))
      as [e|p'] eqn:E2; cbn [ebind]; [discriminate|].
    apply replace_year_inv in E2 as (V2 & T2 & _); [|exact V1].
    intros H. pose proof (adjust_for_weekend_weekday _ _ V2 H) as [W5 W6].
    apply adjust_for_weekend_inv in H as (Vd & _ & Td); [|exact V2].
    repeat split; try apply Vd; auto. congruence.
  - cbn [ebind]. intros H.
    pose proof (adjust_for_weekend_weekday _ _ V1 H) as [W5 W6].
    apply adjust_for_weekend_inv in H as (Vd & _ & Td); [|exact V1].
    repeat split; try apply Vd; auto. congruence.
Qed.

(** X13: with a valid clock and birthdays that are dates of the
    calendar, every date the query reports is a working day (never a
    Saturday or Sunday), is not before today's date and is at most
    [days] days after it. *)
Theorem upcoming_dates_are_working_days_in_range (today : Datetime.datetime)
    (days : Z) (b : AddressBook) (l : list (Record_ * Datetime.datetime)) :
  Datetime.valid today ->
  Forall (fun kv => birthday_ok (snd kv)) b ->
  get_upcoming_birthdays today days b = inr l ->
  forall r d, In (r, d) l ->
    Datetime.weekday d <> 5%Z /\ Datetime.weekday d <> 6%Z
    /\ (Datetime.toordinal today <= Datetime.toordinal d
        <= Datetime.toordinal today + days)%Z.
Proof.
  intros V B H r d Hin.
  unfold get_upcoming_birthdays, Datetime.timedelta_days in H.
  destruct (Z.ltb 999999999 (Z.abs days)); cbn [ebind] in H; [discriminate|].
  destruct (Datetime.add today _) as [e|next_week] eqn:E; cbn [ebind] in H;
    [discriminate|].
  apply upcoming_loop_inr in H. cbn [app] in H. subst l.
  apply in_flat_map in Hin as (r' & Hr' & Hsel).
  unfold selected in Hsel. destruct (birthday r') as [bd|] eqn:Eb; [|contradiction].
  destruct (upcoming_date today bd) as [e|d'] eqn:Eu; [contradiction|].
  destruct (in_window today next_week d') eqn:Ew; [|contradiction].
  destruct Hsel as [Hsel | []]. injection Hsel as <- <-.
  apply in_map_iff in Hr' as ([k r0] & <- & Hkv). cbn [snd] in *.
  rewrite Forall_forall in B. specialize (B _ Hkv). cbn [snd] in B.
  unfold birthday_ok in B. rewrite Eb in B. destruct B as [Vb _].
  destruct (upcoming_date_valid _ _ _ Vb Eu) as (Vd & W5 & W6 & _).
  apply add_inv in E as (On & _ & Vn); [|exact V].
  unfold in_window in Ew. apply andb_true_iff in Ew as [L1 L2].
  apply le_toordinal in L1; [|assumption..].
  apply le_toordinal in L2; [|assumption..].
  repeat split; auto; lia.
Qed.

Lemma upcoming_dates_are_working_days_in_range_witness :
  let ann := mkRecord (lit "Ann") []
               (Some (mkBirthday (Datetime.mkdatetime 1990 6 15 0 0 0 0))) in
  let today := Datetime.mkdatetime 2024 6 12 10 30 0 0 in
  let d := Datetime.mkdatetime 2024 6 17 0 0 0 0 in
  get_upcoming_birthdays today 7 [(lit "Ann", ann)] = inr [(ann, d)]
  /\ Datetime.weekday d <> 5%Z /\ Datetime.weekday d <> 6%Z
  /\ (Datetime.toordinal today <= Datetime.toordinal d
      <= Datetime.toordinal today + 7)%Z.
Proof.
  cbv zeta. split; [reflexivity|].
  eapply (upcoming_dates_are_working_days_in_range
            (Datetime.mkdatetime 2024 6 12 10 30 0 0) 7
            [(lit "Ann", mkRecord (lit "Ann") []
                (Some (mkBirthday (Datetime.mkdatetime 1990 6 15 0 0 0 0))))]).
  - split; reflexivity.
  - repeat constructor.
  - reflexivity.
  - left; reflexivity.
Defined.

Lemma check_other_year (y0 y m d : Z) :
  Datetime.check_date_fields y0 m d = inr tt ->
  (1 <= y <= 9999)%Z ->
  ~ (m = 2 /\ d = 29)%Z ->
  Datetime.check_date_fields y m d = inr tt.
Proof.
  intros C Hy N. apply check_date_fields_ok in C as (_ & Hm & Hd).
  apply check_date_fields_ok. split; [exact Hy|]. split; [exact Hm|].
  rewrite days_in_month_dim in *.
  month_cases m; destruct (Datetime.is_leap y0), (Datetime.is_leap y);
    eval_tables; lia.
Qed.

(** X14: the query returns a list, raising nothing, whenever the clock
    is a valid timestamp of a year before 9999, the horizon ends within
    the calendar, and no birthday in the book is a 29 February. *)
Theorem get_upcoming_birthdays_total (today : Datetime.datetime)
    (days : Z) (b : AddressBook) :
  Datetime.valid today ->
  (Datetime.year today < 9999)%Z ->
  (0 <= days)%Z ->
  (Datetime.toordinal today + days <= Datetime.MAXORDINAL)%Z ->
  Forall (fun kv => birthday_ok (snd kv)) b ->
  (forall r bd, In r (map snd b) -> birthday r = Some bd ->
     ~ (Datetime.month (birthday_value bd) = 2
        /\ Datetime.day (birthday_value bd) = 29)%Z) ->
  exists l, get_upcoming_birthdays today days b = inr l.
Proof.
  intros V Y D U B NL. pose proof (toordinal_bounds today V) as T.
  unfold get_upcoming_birthdays, Datetime.timedelta_days.
  unfold Datetime.MAXORDINAL in *.
  destruct (Z.ltb_spec 999999999 (Z.abs days)); [lia|]. cbn [ebind].
  destruct (add_spec today days V) as (nw & -> & _);
    [unfold Datetime.MAXORDINAL; lia|]. cbn [ebind].
  apply upcoming_loop_total. intros r bd Hin Eb.
  specialize (NL r bd Hin Eb).
  apply in_map_iff in Hin as ([k r0] & <- & Hkv). cbn [snd] in *.
  rewrite Forall_forall in B. specialize (B _ Hkv). cbn [snd] in B.
  unfold birthday_ok in B. rewrite Eb in B. destruct B as [[Vd Vt] _].
  pose proof V as [Vtd _]. apply check_date_fields_ok in Vtd as (Hy & _).
  unfold upcoming_date, Datetime.replace_year.
  rewrite (check_other_year _ (Datetime.year today) _ _ Vd) by (auto; lia).
  cbn [ebind Datetime.year Datetime.month Datetime.day
       Datetime.hour Datetime.minute Datetime.second Datetime.microsecond].
  destruct (Datetime.lt _ today).
  - rewrite (check_other_year _ (Datetime.year today + 1) _ _ Vd) by (auto; lia).
    cbn [ebind]. apply adjust_for_weekend_total. split; [|exact Vt].
    apply (check_other_year _ (Datetime.year today + 1) _ _ Vd); auto; lia.
  - cbn [ebind]. apply adjust_for_weekend_total. split; [|exact Vt].
    apply (check_other_year _ (Datetime.year today) _ _ Vd); auto; lia.
Qed.

Lemma get_upcoming_birthdays_total_witness :
  let ann := mkRecord (lit "Ann") []
               (Some (mkBirthday (Datetime.mkdatetime 1990 6 15 0 0 0 0))) in
  exists l,
    get_upcoming_birthdays (Datetime.mkdatetime 2024 6 12 10 30 0 0) 7
      [(lit "Ann", ann)] = inr l.
Proof.
  cbv zeta.
  apply (get_upcoming_birthdays_total
           (Datetime.mkdatetime 2024 6 12 10 30 0 0) 7).
  - split; reflexivity.
  - reflexivity.
  - discriminate.
  - vm_compute. discriminate.
  - repeat constructor.
  - intros r bd [<- | []] E. injection E as <-. cbn. intros [H _]. discriminate.
Defined.

(** ** Command handlers on the book *)

Lemma heap_ok_mono (n n' : nat) (r : Record_) :
  heap_ok (mkRS n r) -> n <= n' -> heap_ok (mkRS n' r).
Proof.
  intros (ND & F & V) H. repeat split; cbn in *; auto.
  eapply Forall_impl; [|exact F]. intros q; cbn; lia.
Qed.

Lemma on_record_run {A} (key : str) (record : Record_) (m : M RecordState A)
    (w : World) :
  on_record key record m w
  = (fst (m (mkRS (w_alloc w) record)),
     mkWorld (alloc (snd (m (mkRS (w_alloc w) record))))
       (map (fun kv => if str_eqb (fst kv) key
                       then (fst kv, self (snd (m (mkRS (w_alloc w) record))))
                       else kv) (book w))
       (console w)).
Proof.
  unfold on_record. destruct (m _) as [r s']. reflexivity.
Qed.

Lemma keys_update (key : str) (r : Record_) (b : AddressBook) :
  keys (map (fun kv => if str_eqb (fst kv) key then (fst kv, r) else kv) b)
  = keys b.
Proof.
  unfold keys. rewrite map_map. apply map_ext.
  intros [k v]. cbn. destruct (str_eqb k key); reflexivity.
Qed.

Lemma dict_get_update_same (key : str) (r : Record_) (b : AddressBook) :
  dict_get key b <> None ->
  dict_get key
    (map (fun kv => if str_eqb (fst kv) key then (fst kv, r) else kv) b)
  = Some r.
Proof.
  induction b as [|[k v] b IH]; cbn; [congruence|].
  destruct (str_eqb k key) eqn:E; cbn; rewrite E; [reflexivity | exact IH].
Qed.

Lemma dict_get_update_other (key k' : str) (r : Record_) (b : AddressBook) :
  k' <> key ->
  dict_get k'
    (map (fun kv => if str_eqb (fst kv) key then (fst kv, r) else kv) b)
  = dict_get k' b.
Proof.
  intros H. induction b as [|[k v] b IH]; cbn; [reflexivity|].
  destruct (str_eqb k key) eqn:E; cbn.
  - apply str_eqb_eq in E. subst k. rewrite str_eqb_neq by congruence.
    exact IH.
  - rewrite IH. reflexivity.
Qed.

Lemma is_phone_nonempty (p : str) : is_phone p = true -> p <> [].
Proof. intros H ->. discriminate. Qed.

(** The state [add_contact] reaches before it adds the phone. *)
Lemma add_contact_body_run (nm phone : str) (rest : list str) (w : World) :
  phone <> [] ->
  add_contact_body (nm :: phone :: rest) w
  = match find nm (book w) with
    | Some record =>
        (on_record nm record (add_phone phone) ;;
         show_message (lit "Contact updated.")) w
    | None =>
        (on_record nm (Record_init nm) (add_phone phone) ;;
         show_message (lit "Contact added."))
          (mkWorld (w_alloc w) (add_record (Record_init nm) (book w))
             (console w))
    end.
Proof.
  intros H. unfold add_contact_body, unpack2, bind at 1, ret at 1.
  unfold bind at 1, get at 1.
  destruct (find nm (book w)) as [record|]; unfold bind, ret, put;
    destruct phone; try contradiction; reflexivity.
Qed.

(** X15: [add name phone] with well-formed digits, on a book whose
    objects are sound.  For a name not in the book a record is created
    at the end of the book and "Contact added." is printed; for a known
    name "Contact updated." is printed and the order of the book is
    unchanged.  Either way nothing is raised, and [find name] afterwards
    returns a record whose phones are the earlier ones followed by the
    new one. *)
Theorem add_contact_adds_phone (nm phone : str) (rest : list str) (w : World) :
  world_ok w ->
  is_phone phone = true ->
  exists w' r',
    add_contact (nm :: phone :: rest) w = (inr None, w')
    /\ find nm (book w') = Some r'
    /\ match find nm (book w) with
       | Some r =>
           phone_values r' = phone_values r ++ [phone]
           /\ keys (book w') = keys (book w)
           /\ console w' = console w ++ [lit "Contact updated."]
       | None =>
           phone_values r' = [phone]
           /\ keys (book w') = keys (book w) ++ [nm]
           /\ console w' = console w ++ [lit "Contact added."]
       end.
Proof.
  intros [ND OK] V. unfold add_contact, input_error.
  rewrite (add_contact_body_run _ _ _ _ (is_phone_nonempty _ V)).
  destruct (find nm (book w)) as [r|] eqn:Ef; unfold bind;
    rewrite on_record_run.
  - assert (F : Forall (fun q => phone_id q < w_alloc w) (phones r)).
    { apply dict_get_In in Ef. rewrite Forall_forall in OK.
      destruct (OK _ Ef) as (_ & (_ & F & _) & _). exact F. }
    rewrite (add_phone_ok phone (mkRS (w_alloc w) r) F V).
    cbn [fst snd self alloc]. unfold show_message. cbn [book console w_alloc].
    eexists _, _. split; [reflexivity|]. cbn [book console].
    split; [apply dict_get_update_same; unfold find in Ef; congruence|].
    unfold with_phones, phone_values. cbn [phones].
    rewrite map_app, keys_update. auto.
  - cbn [w_alloc book console].
    rewrite (add_phone_ok phone (mkRS (w_alloc w) (Record_init nm))
               (Forall_nil _) V).
    cbn [fst snd self alloc]. unfold show_message. cbn [book console w_alloc].
    eexists _, _. split; [reflexivity|]. cbn [book console].
    split.
    + apply dict_get_update_same. unfold add_record. cbn [name Record_init].
      rewrite dict_get_set_same. discriminate.
    + unfold with_phones, phone_values. cbn [phones Record_init].
      rewrite keys_update. unfold add_record. cbn [name Record_init].
      rewrite keys_dict_set. unfold find in Ef. rewrite Ef. auto.
Qed.

Lemma add_contact_adds_phone_witness :
  let w := mkWorld 0 [] [] in
  world_ok w /\ is_phone (lit "0123456789") = true
  /\ exists w' r',
       add_contact [lit "Alice"; lit "0123456789"] w = (inr None, w')
       /\ find (lit "Alice") (book w') = Some r'.
Proof.
  cbv zeta.
  assert (OK : world_ok (mkWorld 0 [] [])) by (split; constructor).
  split; [exact OK|]. split; [reflexivity|].
  destruct (add_contact_adds_phone (lit "Alice") (lit "0123456789") [] _ OK eq_refl)
    as (w' & r' & E & F & _).
  exists w', r'. split; assumption.
Defined.

(** X16: [add name phone] for a name not in the book and malformed
    digits still creates the contact: the book gains an empty record
    under the name, nothing is printed, and the handler returns the
    message of the ValueError. *)
Theorem add_contact_malformed_leaves_empty_record (nm phone : str)
    (rest : list str) (w : World) :
  find nm (book w) = None ->
  phone <> [] ->
  is_phone phone = false ->
  add_contact (nm :: phone :: rest) w
  = (inr (Some (lit "ValueError: Phone number must contain exactly 10 digits.")),
     mkWorld (w_alloc w) (book w ++ [(nm, Record_init nm)]) (console w)).
Proof.
  intros Ef Hne V. unfold add_contact, input_error.
  rewrite (add_contact_body_run _ _ _ _ Hne), Ef. unfold bind.
  rewrite on_record_run. cbn [w_alloc book console].
  rewrite (add_phone_fail phone _ V). cbn [fst snd self alloc].
  f_equal. f_equal. unfold add_record. cbn [name Record_init].
  unfold find in Ef. rewrite (dict_set_absent _ _ _ Ef).
  rewrite map_app. cbn [map fst]. rewrite str_eqb_refl. f_equal.
  apply dict_get_None in Ef. unfold keys in Ef.
  induction (book w) as [|[k v] b IH]; [reflexivity|]. cbn in *.
  rewrite str_eqb_neq by (intros ->; auto). rewrite IH by auto. reflexivity.
Qed.

Lemma add_contact_malformed_leaves_empty_record_witness :
  add_contact [lit "Bob"; lit "abc"] (mkWorld 0 [] [])
  = (inr (Some (lit "ValueError: Phone number must contain exactly 10 digits.")),
     mkWorld 0 [(lit "Bob", Record_init (lit "Bob"))] []).
Proof.
  apply (add_contact_malformed_leaves_empty_record (lit "Bob") (lit "abc") []
           (mkWorld 0 [] [])).
  - reflexivity.
  - discriminate.
  - reflexivity.
Defined.

(** X17: a command that names a contact that is not in the book raises
    nothing and changes neither book nor allocator; it prints one line:
    "No matches found. Contact not updated." for [change] and
    "Contact not found." for [phone], [add-birthday] and
    [show-birthday]. *)
Theorem unknown_contact_is_reported (env : Env) (nm a b : str)
    (rest : list str) (w : World) :
  find nm (book w) = None ->
  change_number (nm :: a :: b :: rest) w
  = (inr None,
     mkWorld (w_alloc w) (book w)
       (console w ++ [lit "No matches found. Contact not updated."]))
  /\ show_phone (nm :: rest) w
     = (inr None,
        mkWorld (w_alloc w) (book w) (console w ++ [lit "Contact not found."]))
  /\ add_birthday_cmd (nm :: a :: rest) w
     = (inr None,
        mkWorld (w_alloc w) (book w) (console w ++ [lit "Contact not found."]))
  /\ show_birthday env (nm :: rest) w
     = (inr None,
        mkWorld (w_alloc w) (book w) (console w ++ [lit "Contact not found."])).
Proof.
  intros Ef.
  unfold change_number, show_phone, add_birthday_cmd, show_birthday,
    input_error, change_number_body, show_phone_body, add_birthday_body,
    show_birthday_body, unpack1, unpack2, unpack3, bind, ret, get.
  rewrite Ef. repeat split; reflexivity.
Qed.

Lemma unknown_contact_is_reported_witness :
  change_number [lit "Bob"; lit "1111111111"; lit "2222222222"] (mkWorld 0 [] [])
  = (inr None,
     mkWorld 0 [] [lit "No matches found. Contact not updated."]).
Proof.
  apply (proj1 (unknown_contact_is_reported
                  (mkEnv (Datetime.mkdatetime 2024 6 12 10 30 0 0) Datetime.Glibc)
                  (lit "Bob") (lit "1111111111") (lit "2222222222") []
                  (mkWorld 0 [] []) eq_refl)).
Defined.

Lemma strftime_DD_MM_YYYY (platform : Datetime.libc) (s : str) (d m y : Z) :
  DD_MM_YYYY s d m y ->
  (1000 <= y)%Z ->
  Datetime.strftime platform (Datetime.mkdatetime y m d 0 0 0 0) = s.
Proof.
  intros (d1 & d2 & m1 & m2 & y1 & y2 & y3 & y4 & -> & F & -> & -> & Ey & C) Hk.
  repeat match goal with
         | H : Forall _ (_ :: _) |- _ =>
             let Hc := fresh "D" in inversion H as [|? ? Hc ?]; subst; clear H
         end.
  pose proof (digits4_four y1 y2 y3 y4 D3 D4 D5 D6) as [Z4 G4].
  apply check_date_fields_ok in C as (Hy & _ & _).
  unfold Datetime.strftime, Datetime.strftime_Y.
  cbn [Datetime.year Datetime.month Datetime.day].
  rewrite !zfill_two_digits by assumption.
  rewrite str_of_int_digits4 by lia.
  destruct platform.
  - rewrite G4 by exact Hk. reflexivity.
  - rewrite Z4. reflexivity.
Qed.

(** X18: for a contact in the book and a date string written
    DD.MM.YYYY with a year of at least 1000, [add-birthday name date]
    prints "Birthday for name added as date." and a following
    [show-birthday name] prints "name's birthday is on date." with the
    very string that was entered. *)
Theorem add_then_show_birthday (env : Env) (nm s : str) (d m y : Z)
    (rest rest' : list str) (w : World) :
  find nm (book w) <> None ->
  DD_MM_YYYY s d m y ->
  (1000 <= y)%Z ->
  exists w1,
    add_birthday_cmd (nm :: s :: rest) w = (inr None, w1)
    /\ console w1
       = console w ++ [lit "Birthday for " ++ nm ++ lit " added as " ++ s ++ lit "."]
    /\ keys (book w1) = keys (book w)
    /\ show_birthday env (nm :: rest') w1
       = (inr None,
          mkWorld (w_alloc w1) (book w1)
            (console w1 ++ [nm ++ lit "'s birthday is on " ++ s ++ lit "."])).
Proof.
  intros Ef H Hy. destruct (find nm (book w)) as [r|] eqn:Er; [clear Ef|congruence].
  pose proof (strptime_DD_MM_YYYY s d m y H) as P.
  unfold add_birthday_cmd, input_error, add_birthday_body, unpack2,
    bind at 1, ret at 1. unfold bind at 1, get at 1. rewrite Er.
  unfold bind. rewrite on_record_run.
  unfold add_birthday, Birthday_init. rewrite P.
  cbn [set_birthday fst snd self alloc w_alloc]. unfold show_message.
  cbn [book console w_alloc].
  eexists. split; [reflexivity|]. cbn [book console w_alloc].
  split; [reflexivity|]. split; [apply keys_update|].
  unfold show_birthday, input_error, show_birthday_body, unpack1, bind, ret, get.
  cbn [book]. unfold find. rewrite dict_get_update_same
    by (unfold find in Er; congruence).
  cbn [birthday]. unfold show_message, Birthday_str. cbn [birthday_value].
  rewrite (strftime_DD_MM_YYYY _ _ _ _ _ H Hy). reflexivity.
Qed.

Lemma add_then_show_birthday_witness :
  let env := mkEnv (Datetime.mkdatetime 2024 6 12 10 30 0 0) Datetime.Glibc in
  let w := mkWorld 0 [(lit "Ann", Record_init (lit "Ann"))] [] in
  find (lit "Ann") (book w) <> None
  /\ DD_MM_YYYY (lit "29.02.2024") 29 2 2024
  /\ exists w1,
       add_birthday_cmd [lit "Ann"; lit "29.02.2024"] w = (inr None, w1)
       /\ console w1 = [lit "Birthday for Ann added as 29.02.2024."].
Proof.
  cbv zeta.
  assert (F : find (lit "Ann")
                (book (mkWorld 0 [(lit "Ann", Record_init (lit "Ann"))] []))
              <> None) by discriminate.
  assert (D : DD_MM_YYYY (lit "29.02.2024") 29 2 2024).
  { exists 50%N, 57%N, 48%N, 50%N, 50%N, 48%N, 50%N, 52%N.
    repeat split. repeat constructor. }
  split; [exact F|]. split; [exact D|].
  destruct (add_then_show_birthday
              (mkEnv (Datetime.mkdatetime 2024 6 12 10 30 0 0) Datetime.Glibc)
              (lit "Ann") (lit "29.02.2024") 29 2 2024 [] [] _ F D)
    as (w1 & E & C & _); [vm_compute; discriminate|].
  exists w1. split; [exact E | exact C].
Defined.

(** ** The main loop *)

Lemma snd_input_error {S} (f : M S unit) (s : S) :
  snd (input_error f s) = snd (f s).
Proof.
  unfold input_error. destruct (f s) as [[[m | m | m | m] | u] s']; reflexivity.
Qed.

Lemma dict_get_unique (k : str) (r : Record_) (b : AddressBook) :
  NoDup (keys b) -> In (k, r) b -> dict_get k b = Some r.
Proof.
  unfold keys. induction b as [|[k0 v0] b IH]; cbn; [tauto|].
  intros ND [H | H]; inversion ND as [|? ? Hn ND']; subst.
  - injection H as -> ->. rewrite str_eqb_refl. reflexivity.
  - destruct (str_eqb k0 k) eqn:E; [|auto].
    apply str_eqb_eq in E. subst k0. exfalso. apply Hn.
    apply in_map_iff. exists (k, r). auto.
Qed.

Lemma found_record_ok (w : World) (k : str) (r : Record_) :
  world_ok w -> find k (book w) = Some r -> record_ok (w_alloc w) k r.
Proof.
  intros [_ OK] H. apply dict_get_In in H. rewrite Forall_forall in OK.
  apply (OK _ H).
Qed.

Lemma show_message_ok (msg : str) (w : World) :
  world_ok w -> world_ok (snd (show_message msg w)).
Proof. intros H. exact H. Qed.

(** A method call through [on_record] keeps the book sound. *)
Lemma on_record_ok (key : str) (record : Record_) (c : call) (w : World) :
  world_ok w ->
  record_ok (w_alloc w) key record ->
  world_ok (snd (on_record key record (run_call c) w)).
Proof.
  intros [ND OK] (N & H & B). rewrite on_record_run. cbn [snd].
  destruct (run_call_keeps c (mkRS (w_alloc w) record) H B)
    as (H' & B' & N' & A').
  set (s' := snd (run_call c (mkRS (w_alloc w) record))) in *.
  cbn [alloc self] in *. split; cbn [book w_alloc].
  - rewrite keys_update. exact ND.
  - apply Forall_forall. intros kv Hin. apply in_map_iff in Hin as ([k v] & <- & Hkv).
    rewrite Forall_forall in OK. specialize (OK _ Hkv). cbn [fst snd] in *.
    destruct (str_eqb k key) eqn:E; cbn [fst snd].
    + apply str_eqb_eq in E. subst k. split; [congruence|].
      split; [destruct s'; exact H' | exact B'].
    + destruct OK as (Nk & Hk & Bk). split; [exact Nk|].
      split; [apply (heap_ok_mono _ _ _ Hk A') | exact Bk].
Qed.

Lemma add_record_new_ok (nm : str) (w : World) :
  world_ok w ->
  find nm (book w) = None ->
  world_ok (mkWorld (w_alloc w) (add_record (Record_init nm) (book w))
              (console w)).
Proof.
  intros [ND OK] Ef. unfold find in Ef. unfold add_record. cbn [name Record_init].
  split; cbn [book w_alloc].
  - rewrite keys_dict_set, Ef. apply dict_get_None in Ef.
    apply NoDup_app; [exact ND | repeat constructor; simpl; tauto |].
    intros x Hx [<- | []]. contradiction.
  - rewrite (dict_set_absent _ _ _ Ef). apply Forall_app. split; [exact OK|].
    repeat constructor.
Qed.

Lemma add_contact_ok (args : list str) (w : World) :
  world_ok w -> world_ok (snd (add_contact args w)).
Proof.
  intros OK. unfold add_contact. rewrite snd_input_error.
  destruct args as [|nm [|phone rest]]; [exact OK | exact OK |].
  destruct phone as [|c phone].
  - unfold add_contact_body, unpack2, bind, ret, get, put.
    destruct (find nm (book w)) eqn:Ef; cbn; [exact OK|].
    apply add_record_new_ok; assumption.
  - rewrite add_contact_body_run by discriminate.
    destruct (find nm (book w)) as [r|] eqn:Ef; unfold bind.
    + pose proof (on_record_ok nm r (CallAddPhone (c :: phone)) w OK
                    (found_record_ok _ _ _ OK Ef)) as H.
      cbn [run_call] in H.
      destruct (on_record nm r (add_phone (c :: phone)) w) as [[e|[]] w1];
        exact H.
    + pose proof (add_record_new_ok nm w OK Ef) as OK0.
      pose proof (on_record_ok nm (Record_init nm) (CallAddPhone (c :: phone)) _
                    OK0) as H.
      cbn [run_call w_alloc] in H.
      specialize (H (conj eq_refl (conj (heap_ok_init _ _) I))).
      destruct (on_record nm (Record_init nm) (add_phone (c :: phone)) _)
        as [[e|[]] w1]; exact H.
Qed.

Lemma change_number_ok (args : list str) (w : World) :
  world_ok w -> world_ok (snd (change_number args w)).
Proof.
  intros OK. unfold change_number. rewrite snd_input_error.
  destruct args as [|nm [|old [|new rest]]]; try exact OK.
  unfold change_number_body, unpack3, bind at 1, ret at 1.
  unfold bind at 1, get at 1.
  destruct (find nm (book w)) as [r|] eqn:Ef; [|exact OK]. unfold bind.
  pose proof (on_record_ok nm r (CallEditPhone old new) w OK
                (found_record_ok _ _ _ OK Ef)) as H.
  cbn [run_call] in H.
  destruct (on_record nm r (edit_phone old new) w) as [[e|[]] w1]; exact H.
Qed.

Lemma add_birthday_cmd_ok (args : list str) (w : World) :
  world_ok w -> world_ok (snd (add_birthday_cmd args w)).
Proof.
  intros OK. unfold add_birthday_cmd. rewrite snd_input_error.
  destruct args as [|nm [|raw rest]]; try exact OK.
  unfold add_birthday_body, unpack2, bind at 1, ret at 1.
  unfold bind at 1, get at 1.
  destruct (find nm (book w)) as [r|] eqn:Ef; [|exact OK]. unfold bind.
  pose proof (on_record_ok nm r (CallAddBirthday raw) w OK
                (found_record_ok _ _ _ OK Ef)) as H.
  cbn [run_call] in H.
  destruct (on_record nm r (add_birthday raw) w) as [[e|[]] w1]; exact H.
Qed.

(** The handlers that only read leave book and allocator as they are. *)
Lemma show_phone_frame (args : list str) (w : World) :
  book (snd (show_phone args w)) = book w
  /\ w_alloc (snd (show_phone args w)) = w_alloc w.
Proof.
  unfold show_phone. rewrite snd_input_error.
  destruct args as [|nm rest]; [split; reflexivity|].
  unfold show_phone_body, unpack1, bind, ret, get.
  destruct (find nm (book w)); split; reflexivity.
Qed.

Lemma show_birthday_frame (env : Env) (args : list str) (w : World) :
  book (snd (show_birthday env args w)) = book w
  /\ w_alloc (snd (show_birthday env args w)) = w_alloc w.
Proof.
  unfold show_birthday. rewrite snd_input_error.
  destruct args as [|nm rest]; [split; reflexivity|].
  unfold show_birthday_body, unpack1, bind, ret, get.
  destruct (find nm (book w)) as [r|]; [|split; reflexivity].
  destruct (birthday r); split; reflexivity.
Qed.

Lemma birthdays_frame (env : Env) (args : list str) (w : World) :
  book (snd (birthdays env args w)) = book w
  /\ w_alloc (snd (birthdays env args w)) = w_alloc w.
Proof.
  unfold birthdays. rewrite snd_input_error.
  unfold birthdays_body, bind, get.
  destruct (get_upcoming_birthdays _ _ _) as [e|[|x l]]; split; reflexivity.
Qed.

Lemma world_ok_frame (w w' : World) :
  book w' = book w /\ w_alloc w' = w_alloc w -> world_ok w -> world_ok w'.
Proof. unfold world_ok. intros [-> ->] H. exact H. Qed.

Lemma snd_then_ret {A} (m : M World A) (c : loop_control) (w : World) :
  snd ((m ;; ret c) w) = snd (m w).
Proof. unfold bind, ret. destruct (m w) as [[e|a] w']; reflexivity. Qed.

Lemma main_step_ok (env : Env) (command : str) (args : list str) (w : World) :
  world_ok w -> world_ok (snd (main_step env command args w)).
Proof.
  intros OK. unfold main_step.
  repeat match goal with
         | |- context [if ?c then _ else _] => destruct c
         end; rewrite snd_then_ret;
    first [ exact OK
          | apply add_contact_ok, OK
          | apply change_number_ok, OK
          | apply add_birthday_cmd_ok, OK
          | apply (world_ok_frame w _ (show_phone_frame args w) OK)
          | apply (world_ok_frame w _ (show_birthday_frame env args w) OK)
          | apply (world_ok_frame w _ (birthdays_frame env args w) OK) ].
Qed.

(** X19: the loop of [main] keeps the book sound.  From a sound book
    (the empty one, for instance), after any sequence of input lines:
    no name occurs twice, every record is filed under its own name,
    every phone has ten digit characters, and every birthday is a date
    of the calendar at midnight. *)
Theorem main_loop_keeps_book_sound (turns : list (Env * str * list str))
    (w : World) :
  world_ok w ->
  let w' := snd (main_loop turns w) in
  NoDup (keys (book w'))
  /\ forall k r, In (k, r) (book w') ->
       name r = k
       /\ Forall (fun p => is_phone (phone_value p) = true) (phones r)
       /\ birthday_ok r.
Proof.
  intros OK. cbv zeta.
  assert (G : world_ok (snd (main_loop turns w))).
  { revert w OK. induction turns as [|[[env command] args] turns IH];
      intros w OK; cbn [main_loop]; [exact OK|].
    pose proof (main_step_ok env command args w OK) as H.
    destruct (main_step env command args w) as [[e|[|]] w1]; cbn [snd] in *;
      auto. }
  destruct G as [ND F]. split; [exact ND|].
  intros k r Hin. rewrite Forall_forall in F.
  destruct (F _ Hin) as (N & (_ & _ & V) & B). auto.
Qed.

Lemma main_loop_keeps_book_sound_witness :
  let env := mkEnv (Datetime.mkdatetime 2024 6 12 10 30 0 0) Datetime.Glibc in
  let turns := [(env, lit "add", [lit "Ann"; lit "0123456789"]);
                (env, lit "add-birthday", [lit "Ann"; lit "29.02.2024"]);
                (env, lit "add", [lit "Ann"; lit "x"])] in
  world_ok (mkWorld 0 [] [])
  /\ NoDup (keys (book (snd (main_loop turns (mkWorld 0 [] []))))).
Proof.
  cbv zeta.
  assert (OK : world_ok (mkWorld 0 [] [])) by (split; constructor).
  split; [exact OK|].
  apply (main_loop_keeps_book_sound _ _ OK).
Defined.

(** *** No command removes a contact *)

Lemma book_then_show {A} (m : M World A) (msg : str) (w : World) :
  book (snd ((m ;; show_message msg) w)) = book (snd (m w)).
Proof. unfold bind, show_message. destruct (m w) as [[e|a] w']; reflexivity. Qed.

Lemma on_record_keys {A} (key : str) (record : Record_) (m : M RecordState A)
    (w : World) :
  keys (book (snd (on_record key record m w))) = keys (book w).
Proof. rewrite on_record_run. cbn [snd book]. apply keys_update. Qed.

Lemma add_contact_keys (args : list str) (w : World) :
  exists extra,
    keys (book (snd (add_contact args w))) = keys (book w) ++ extra.
Proof.
  unfold add_contact. rewrite snd_input_error.
  destruct args as [|nm [|phone rest]];
    [exists []; symmetry; apply app_nil_r .. |].
  destruct phone as [|c phone].
  - unfold add_contact_body, unpack2, bind, ret, get, put.
    destruct (find nm (book w)) eqn:Ef; cbn.
    + exists []. symmetry; apply app_nil_r.
    + exists [nm]. unfold add_record. cbn [name Record_init].
      unfold find in Ef. rewrite keys_dict_set, Ef. reflexivity.
  - rewrite add_contact_body_run by discriminate.
    destruct (find nm (book w)) as [r|] eqn:Ef; rewrite book_then_show,
      on_record_keys; cbn [book].
    + exists []. symmetry; apply app_nil_r.
    + exists [nm]. unfold add_record. cbn [name Record_init].
      unfold find in Ef. rewrite keys_dict_set, Ef. reflexivity.
Qed.

Lemma change_number_keys (args : list str) (w : World) :
  keys (book (snd (change_number args w))) = keys (book w).
Proof.
  unfold change_number. rewrite snd_input_error.
  destruct args as [|nm [|old [|new rest]]]; try reflexivity.
  unfold change_number_body, unpack3, bind at 1, ret at 1.
  unfold bind at 1, get at 1.
  destruct (find nm (book w)) as [r|] eqn:Ef; [|reflexivity].
  rewrite book_then_show. apply on_record_keys.
Qed.

Lemma add_birthday_cmd_keys (args : list str) (w : World) :
  keys (book (snd (add_birthday_cmd args w))) = keys (book w).
Proof.
  unfold add_birthday_cmd. rewrite snd_input_error.
  destruct args as [|nm [|raw rest]]; try reflexivity.
  unfold add_birthday_body, unpack2, bind at 1, ret at 1.
  unfold bind at 1, get at 1.
  destruct (find nm (book w)) as [r|] eqn:Ef; [|reflexivity].
  rewrite book_then_show. apply on_record_keys.
Qed.

Lemma main_step_keys (env : Env) (command : str) (args : list str) (w : World) :
  exists extra,
    keys (book (snd (main_step env command args w))) = keys (book w) ++ extra.
Proof.
  unfold main_step.
  repeat match goal with
         | |- context [if ?c then _ else _] => destruct c
         end; rewrite snd_then_ret;
    try apply add_contact_keys;
    exists []; rewrite app_nil_r;
    first [ reflexivity
          | apply change_number_keys
          | apply add_birthday_cmd_keys
          | rewrite (proj1 (show_phone_frame args w)); reflexivity
          | rewrite (proj1 (show_birthday_frame env args w)); reflexivity
          | rewrite (proj1 (birthdays_frame env args w)); reflexivity ].
Qed.

(** X20: no sequence of commands removes or reorders contacts: the names
    in the book after the loop are the names before it, in the same
    order, followed by the names that were added. *)
Theorem main_loop_only_appends_names (turns : list (Env * str * list str))
    (w : World) :
  exists extra,
    keys (book (snd (main_loop turns w))) = keys (book w) ++ extra.
Proof.
  revert w. induction turns as [|[[env command] args] turns IH]; intros w;
    cbn [main_loop].
  - exists []. symmetry; apply app_nil_r.
  - destruct (main_step_keys env command args w) as [x Hx].
    destruct (main_step env command args w) as [[e|[|]] w1]; cbn [snd] in *.
    + exists x; exact Hx.
    + destruct (IH w1) as [y Hy]. exists (x ++ y).
      rewrite Hy, Hx, app_assoc. reflexivity.
    + exists x; exact Hx.
Qed.

(** *** No command error stops the loop *)



























(** *** Leaving the loop and listing the book *)

Lemma then_ret_continue {A} (m : M World A) (w w' : World) :
  (m ;; ret Continue) w <> (inr Break, w').
Proof. unfold bind, ret. destruct (m w) as [[e|a] w1]; discriminate. Qed.

(** X22: a turn ends the loop exactly when the command is [close] or
    [exit]; it then prints "Good bye" and leaves book and allocator as
    they are. *)
Theorem main_step_breaks_iff_quit (env : Env) (command : str)
    (args : list str) (w w' : World) :
  main_step env command args w = (inr Break, w')
  <-> (command = lit "close" \/ command = lit "exit")
      /\ w' = mkWorld (w_alloc w) (book w) (console w ++ [lit "Good bye"]).
Proof.
  split.
  - unfold main_step.
    destruct (str_eqb command (lit "close")) eqn:E1;
      [|destruct (str_eqb command (lit "exit")) eqn:E2]; cbn [orb].
    + apply str_eqb_eq in E1. intros H. injection H as <-. auto.
    + apply str_eqb_eq in E2. intros H. injection H as <-. auto.
    + repeat match goal with
             | |- context [if ?c then _ else _] => destruct c
             end; intros H; exfalso; exact (then_ret_continue _ _ _ H).
  - intros [[-> | ->] ->]; reflexivity.
Qed.

(** X23: on a sound book [all] prints one line for each name of the
    book, in the order of the book and none twice: the line of the
    record that [find] returns for that name. *)
Theorem all_lists_each_contact_once (env : Env) (args : list str) (w : World) :
  world_ok w ->
  NoDup (keys (book w))
  /\ main_step env (lit "all") args w
     = (inr Continue,
        mkWorld (w_alloc w) (book w)
          (console w
           ++ map (fun k => match find k (book w) with
                            | Some r => Record_str (platform env) r
                            | None => []
                            end) (keys (book w)))).
Proof.
  intros [ND _]. split; [exact ND|].
  unfold main_step. cbn [str_eqb orb lit]. cbn.
  unfold show_all_contacts, bind, ret. f_equal. f_equal. f_equal.
  unfold keys. rewrite map_map. apply map_ext_in. intros [k r] Hin.
  cbn [fst snd]. unfold find. rewrite (dict_get_unique _ _ _ ND Hin).
  reflexivity.
Qed.

Lemma all_lists_each_contact_once_witness :
  let env := mkEnv (Datetime.mkdatetime 2024 6 12 10 30 0 0) Datetime.Glibc in
  let w := snd (main_step env (lit "add") [lit "Ann"; lit "0123456789"]
                  (mkWorld 0 [] [])) in
  world_ok w
  /\ console (snd (main_step env (lit "all") [] w))
     = console w ++ [lit "Contact name: Ann, phones: 0123456789"].
Proof.
  cbv zeta.
  match goal with
  | |- world_ok ?w /\ _ =>
      assert (OK : world_ok w)
        by (apply (main_step_ok _ (lit "add")); split; constructor)
  end.
  split; [exact OK|].
  rewrite (proj2 (all_lists_each_contact_once
                    (mkEnv (Datetime.mkdatetime 2024 6 12 10 30 0 0) Datetime.Glibc)
                    [] _ OK)).
  reflexivity.
Defined.

(** ** Rendering a birthday and reading it back *)

Section RenderParse.
Import Datetime.
Local Open Scope Z_scope.

Lemma digit_char_ascii (n : Z) :
  0 <= n ->
  ascii_digit (digit_char n) = true /\ digit_value (digit_char n) = n mod 10.
Proof.
  intros H. unfold ascii_digit, digit_char, digit_value.
  assert (0 <= n mod 10 < 10) by (apply Z.mod_pos_bound; lia).
  rewrite andb_true_iff, !N.leb_le. lia.
Qed.

Lemma zfill_two (n : Z) :
  0 <= n <= 99 ->
  zfill 2 (str_of_int n) = [digit_char (n / 10); digit_char n].
Proof.
  intros H. rewrite str_of_int_digits4 by lia. unfold digits4.
  destruct (Z.ltb_spec n 10).
  - replace (n / 10) with 0 by (Z.div_mod_to_equations; lia). reflexivity.
  - destruct (Z.ltb_spec n 100); [reflexivity | lia].
Qed.

Lemma strftime_is_DD_MM_YYYY (platform : libc) (dt : datetime) :
  check_date_fields (year dt) (month dt) (day dt) = inr tt ->
  1000 <= year dt ->
  DD_MM_YYYY (strftime platform dt) (day dt) (month dt) (year dt).
Proof.
  intros C Hy. pose proof C as C'.
  apply check_date_fields_ok in C' as (Y & Mo & D).
  assert (D31 : day dt <= 31).
  { rewrite days_in_month_dim in D. set (l := is_leap _) in *. clearbody l.
    set (mo := month dt) in *. clearbody mo.
    assert (dim l mo <= 31) by (month_cases mo; destruct l; cbv; discriminate).
    lia. }
  unfold strftime, strftime_Y.
  rewrite !zfill_two by lia.
  assert (EY : (match platform with
                | Glibc => str_of_int (year dt)
                | PaddedYear => zfill 4 (str_of_int (year dt))
                end)
               = [digit_char (year dt / 1000); digit_char (year dt / 100);
                  digit_char (year dt / 10); digit_char (year dt)]).
  { rewrite str_of_int_digits4 by lia. unfold digits4.
    destruct (Z.ltb_spec (year dt) 10); [lia|].
    destruct (Z.ltb_spec (year dt) 100); [lia|].
    destruct (Z.ltb_spec (year dt) 1000); [lia|].
    destruct platform; reflexivity. }
  rewrite EY.
  exists (digit_char (day dt / 10)), (digit_char (day dt)),
    (digit_char (month dt / 10)), (digit_char (month dt)),
    (digit_char (year dt / 1000)), (digit_char (year dt / 100)),
    (digit_char (year dt / 10)), (digit_char (year dt)).
  assert (P : forall n, 0 <= n -> 0 <= n / 10) by (intros; Z.div_mod_to_equations; lia).
  destruct (digit_char_ascii (day dt / 10)) as [A1 V1];
    [Z.div_mod_to_equations; lia|].
  destruct (digit_char_ascii (day dt)) as [A2 V2]; [lia|].
  destruct (digit_char_ascii (month dt / 10)) as [A3 V3];
    [Z.div_mod_to_equations; lia|].
  destruct (digit_char_ascii (month dt)) as [A4 V4]; [lia|].
  destruct (digit_char_ascii (year dt / 1000)) as [A5 V5];
    [Z.div_mod_to_equations; lia|].
  destruct (digit_char_ascii (year dt / 100)) as [A6 V6];
    [Z.div_mod_to_equations; lia|].
  destruct (digit_char_ascii (year dt / 10)) as [A7 V7];
    [Z.div_mod_to_equations; lia|].
  destruct (digit_char_ascii (year dt)) as [A8 V8]; [lia|].
  split; [reflexivity|]. split; [repeat constructor; assumption|].
  rewrite V1, V2, V3, V4, V5, V6, V7, V8.
  split; [Z.div_mod_to_equations; lia|].
  split; [Z.div_mod_to_equations; lia|].
  split; [Z.div_mod_to_equations; lia|]. exact C.
Qed.

End RenderParse.

(** X24: rendering a stored birthday and reading the text back gives
    the same birthday.  For every birthday value that is a date of the
    calendar at midnight with a year of at least 1000, on either
    platform, [Birthday(str(b))] succeeds and equals [b]; the rendered
    text is in the form DD.MM.YYYY. *)
Theorem Birthday_render_then_parse (platform : Datetime.libc) (b : Birthday) :
  Datetime.valid (birthday_value b) ->
  time_of (birthday_value b) = (0, 0, 0, 0)%Z ->
  (1000 <= Datetime.year (birthday_value b))%Z ->
  Birthday_init (Birthday_str platform b) = inr b
  /\ DD_MM_YYYY (Birthday_str platform b)
       (Datetime.day (birthday_value b)) (Datetime.month (birthday_value b))
       (Datetime.year (birthday_value b)).
Proof.
  intros [C _] T Hy. destruct b as [[y m d h mi s us]].
  unfold time_of in T. cbn in T, C, Hy. injection T as -> -> -> ->.
  pose proof (strftime_is_DD_MM_YYYY platform
                (Datetime.mkdatetime y m d 0 0 0 0) C Hy) as H.
  cbn [Datetime.year Datetime.month Datetime.day] in H.
  split; [|exact H]. unfold Birthday_init, Birthday_str. cbn [birthday_value].
  rewrite (strptime_DD_MM_YYYY _ _ _ _ H). reflexivity.
Qed.

Lemma Birthday_render_then_parse_witness :
  let b := mkBirthday (Datetime.mkdatetime 2024 2 29 0 0 0 0) in
  Birthday_init (Birthday_str Datetime.Glibc b) = inr b
  /\ DD_MM_YYYY (Birthday_str Datetime.Glibc b) 29 2 2024.
Proof.
  cbv zeta.
  apply (Birthday_render_then_parse Datetime.Glibc
           (mkBirthday (Datetime.mkdatetime 2024 2 29 0 0 0 0))).
  - split; reflexivity.
  - reflexivity.
  - vm_compute. discriminate.
Defined.

(** ** Which birthdays the query reports *)

Section Reported.
Import Datetime.
Local Open Scope Z_scope.

Lemma cmp_opp (a b : list Z) : cmp b a = CompOpp (cmp a b).
Proof.
  revert b. induction a as [|x a IH]; intros [|y b]; cbn [cmp]; try reflexivity.
  rewrite (Z.compare_antisym x y). destruct (x ?= y); cbn; auto.
Qed.

Lemma lt_false_le (a b : datetime) : lt a b = false -> le b a = true.
Proof.
  unfold lt, le. rewrite (cmp_opp (astuple a) (astuple b)).
  destruct (cmp (astuple a) (astuple b)); cbn; congruence.
Qed.

Lemma toordinal_lt_lt (a b : datetime) :
  valid a -> valid b -> toordinal a < toordinal b -> lt a b = true.
Proof.
  intros Va Vb H. destruct (lt a b) eqn:E; [reflexivity|].
  apply lt_false_le in E. apply le_toordinal in E; [lia | assumption..].
Qed.

Lemma lt_le (a b : datetime) : lt a b = true -> le a b = true.
Proof. unfold lt, le. destruct (cmp _ _); congruence. Qed.

Lemma lt_irrefl_opp (a b : datetime) : lt a b = true -> lt b a = false.
Proof.
  unfold lt. rewrite (cmp_opp (astuple a) (astuple b)).
  destruct (cmp (astuple a) (astuple b)); cbn; congruence.
Qed.

Lemma ymd2ord_strict (y1 m1 d1 y2 m2 d2 : Z) :
  check_date_fields y1 m1 d1 = inr tt ->
  check_date_fields y2 m2 d2 = inr tt ->
  y1 < y2 \/ (y1 = y2 /\ (m1 < m2 \/ (m1 = m2 /\ d1 < d2))) ->
  ymd2ord y1 m1 d1 < ymd2ord y2 m2 d2.
Proof.
  intros C1 C2 H.
  apply check_date_fields_ok in C1 as (Hy1 & Hm1 & Hd1).
  apply check_date_fields_ok in C2 as (Hy2 & Hm2 & Hd2).
  rewrite days_in_month_dim in Hd1, Hd2. unfold ymd2ord.
  rewrite !days_before_month_dbm.
  pose proof (day_of_year_bounds _ _ _ Hm1 Hd1) as B1.
  pose proof (day_of_year_bounds _ _ _ Hm2 Hd2) as B2.
  destruct H as [H | [-> [H | [-> H]]]].
  - pose proof (days_before_next_year y1) as N.
    pose proof (days_before_year_mono (y1 + 1) y2 ltac:(lia)) as M.
    destruct (is_leap y1); lia.
  - pose proof (dbm_step (is_leap y2) m1 m2 ltac:(lia) H ltac:(lia)). lia.
  - lia.
Qed.

(** A date at midnight is not after any timestamp of a day that is not
    earlier. *)
Lemma midnight_le (a b : datetime) :
  valid a -> valid b ->
  time_of a = (0, 0, 0, 0) ->
  toordinal a <= toordinal b ->
  le a b = true.
Proof.
  intros Va Vb T H.
  destruct (Z.eq_dec (toordinal a) (toordinal b)) as [E | N].
  - destruct a as [y1 m1 d1 h1 mi1 s1 us1], b as [y2 m2 d2 h2 mi2 s2 us2].
    unfold time_of in T. cbn in T. injection T as -> -> -> ->.
    destruct Va as [Ca _], Vb as [Cb Tb]. cbn in Ca, Cb, Tb.
    apply check_time_fields_ok in Tb as (Hh & Hmi & Hs & Hus).
    unfold toordinal in E. cbn in E.
    assert (y1 = y2 /\ m1 = m2 /\ d1 = d2) as (-> & -> & ->).
    { destruct (Z.lt_trichotomy y1 y2) as [L | [Ey | G]].
      - pose proof (ymd2ord_strict _ _ _ _ _ _ Ca Cb (or_introl L)). lia.
      - subst y2. destruct (Z.lt_trichotomy m1 m2) as [L | [Em | G]].
        + pose proof (ymd2ord_strict _ _ _ _ _ _ Ca Cb
                        (or_intror (conj eq_refl (or_introl L)))). lia.
        + subst m2. unfold ymd2ord in E. lia.
        + pose proof (ymd2ord_strict _ _ _ _ _ _ Cb Ca
                        (or_intror (conj eq_refl (or_introl G)))). lia.
      - pose proof (ymd2ord_strict _ _ _ _ _ _ Cb Ca (or_introl G)). lia. }
    unfold le, astuple. cbn [year month day hour minute second microsecond].
    rewrite !cmp_refl_prefix. cbn [cmp].
    destruct (Z.compare_spec 0 h2); [|reflexivity | lia].
    destruct (Z.compare_spec 0 mi2); [|reflexivity | lia].
    destruct (Z.compare_spec 0 s2); [|reflexivity | lia].
    destruct (Z.compare_spec 0 us2); [reflexivity | reflexivity | lia].
  - apply lt_le, toordinal_lt_lt; [assumption.. | lia].
Qed.

End Reported.

(** X25: a birthday that falls, in the year of the clock, on one of the
    next [days] days after today and on a working day is reported with
    that very date.  For every such record the loop body of
    [get_upcoming_birthdays] appends the record with its birthday
    projected onto this year, unshifted. *)
Theorem weekday_birthday_in_horizon_is_selected
    (today next_week : Datetime.datetime) (days : Z) (record : Record_)
    (bd : Birthday) :
  Datetime.valid today ->
  birthday record = Some bd ->
  Datetime.valid (birthday_value bd) ->
  time_of (birthday_value bd) = (0, 0, 0, 0)%Z ->
  Datetime.add today (Datetime.mktimedelta days) = inr next_week ->
  let d := Datetime.mkdatetime (Datetime.year today)
             (Datetime.month (birthday_value bd))
             (Datetime.day (birthday_value bd)) 0 0 0 0 in
  Datetime.check_date_fields (Datetime.year d) (Datetime.month d)
    (Datetime.day d) = inr tt ->
  (Datetime.toordinal today < Datetime.toordinal d
   <= Datetime.toordinal today + days)%Z ->
  Datetime.weekday d <> 5%Z ->
  Datetime.weekday d <> 6%Z ->
  selected today next_week record = [(record, d)].
Proof.
  intros V Eb Vb Tb Enw. destruct bd as [[y0 m0 d0 h mi s us]].
  unfold time_of in Tb. cbn in Tb. injection Tb as -> -> -> ->.
  cbv zeta. cbn [birthday_value Datetime.year Datetime.month Datetime.day].
  set (d := Datetime.mkdatetime (Datetime.year today) m0 d0 0 0 0 0).
  intros C O W5 W6.
  assert (Vd : Datetime.valid d) by (split; [exact C | reflexivity]).
  apply add_inv in Enw as (On & _ & Vn); [|exact V].
  assert (L : Datetime.lt today d = true)
    by (apply toordinal_lt_lt; [assumption.. | lia]).
  unfold selected. rewrite Eb. unfold upcoming_date, Datetime.replace_year.
  cbn [birthday_value Datetime.year Datetime.month Datetime.day Datetime.hour
       Datetime.minute Datetime.second Datetime.microsecond].
  rewrite C. cbn [ebind]. fold d.
  rewrite (lt_irrefl_opp today d L). cbn [ebind]. unfold adjust_for_weekend.
  destruct (Z.eqb_spec (Datetime.weekday d) 5); [contradiction|].
  destruct (Z.eqb_spec (Datetime.weekday d) 6); [contradiction|].
  unfold in_window. rewrite (lt_le today d L).
  rewrite (midnight_le d next_week Vd Vn eq_refl) by lia.
  reflexivity.
Qed.

Lemma weekday_birthday_in_horizon_is_selected_witness :
  let today := Datetime.mkdatetime 2024 6 12 10 30 0 0 in
  let bd := mkBirthday (Datetime.mkdatetime 1990 6 19 0 0 0 0) in
  let ann := mkRecord (lit "Ann") [] (Some bd) in
  selected today (Datetime.mkdatetime 2024 6 19 10 30 0 0) ann
  = [(ann, Datetime.mkdatetime 2024 6 19 0 0 0 0)].
Proof.
  cbv zeta.
  apply (weekday_birthday_in_horizon_is_selected
           (Datetime.mkdatetime 2024 6 12 10 30 0 0)
           (Datetime.mkdatetime 2024 6 19 10 30 0 0) 7
           (mkRecord (lit "Ann") []
              (Some (mkBirthday (Datetime.mkdatetime 1990 6 19 0 0 0 0))))
           (mkBirthday (Datetime.mkdatetime 1990 6 19 0 0 0 0)));
    try reflexivity; try (split; reflexivity); try (vm_compute; discriminate).
Defined.

(** X26: with the clock past midnight and a horizon of at most 364
    days, the query never reports a record whose birthday has the day
    and month of today: such a birthday is rolled to next year. *)
Theorem birthday_on_today_never_reported (today : Datetime.datetime)
    (days : Z) (b : AddressBook) (l : list (Record_ * Datetime.datetime)) :
  Datetime.valid today ->
  time_of today <> (0, 0, 0, 0)%Z ->
  (days <= 364)%Z ->
  Forall (fun kv => birthday_ok (snd kv)) b ->
  get_upcoming_birthdays today days b = inr l ->
  forall r d bd, In (r, d) l -> birthday r = Some bd ->
    ~ (Datetime.month (birthday_value bd) = Datetime.month today
       /\ Datetime.day (birthday_value bd) = Datetime.day today).
Proof.
  intros V T D B H r d bd Hin Eb [Em Ed].
  unfold get_upcoming_birthdays, Datetime.timedelta_days in H.
  destruct (Z.ltb 999999999 (Z.abs days)); cbn [ebind] in H; [discriminate|].
  destruct (Datetime.add today _) as [e|next_week] eqn:E; cbn [ebind] in H;
    [discriminate|].
  apply upcoming_loop_inr in H. cbn [app] in H. subst l.
  apply in_flat_map in Hin as (r' & Hr' & Hsel).
  unfold selected in Hsel. destruct (birthday r') as [bd'|] eqn:Eb'; [|contradiction].
  destruct (upcoming_date today bd') as [e|d'] eqn:Eu; [contradiction|].
  destruct (in_window today next_week d') eqn:Ew; [|contradiction].
  destruct Hsel as [Hsel | []]. injection Hsel as <- <-.
  rewrite Eb in Eb'. injection Eb' as <-.
  apply in_map_iff in Hr' as ([k r0] & <- & Hkv). cbn [snd] in *.
  rewrite Forall_forall in B. specialize (B _ Hkv). cbn [snd] in B.
  unfold birthday_ok in B. rewrite Eb in B. destruct B as [_ Tb].
  rewrite (birthday_on_today_excluded today next_week d' bd days
             V Tb Em Ed T D E Eu) in Ew.
  discriminate.
Qed.

Lemma birthday_on_today_never_reported_witness :
  let today := Datetime.mkdatetime 2024 6 12 10 30 0 0 in
  let bd := mkBirthday (Datetime.mkdatetime 1990 6 12 0 0 0 0) in
  let ann := mkRecord (lit "Ann") [] (Some bd) in
  get_upcoming_birthdays today 7 [(lit "Ann", ann)] = inr []
  /\ forall (r : Record_) (d : Datetime.datetime) bd',
       In (r, d) [] -> birthday r = Some bd' ->
       ~ (Datetime.month (birthday_value bd') = Datetime.month today
          /\ Datetime.day (birthday_value bd') = Datetime.day today).
Proof.
  cbv zeta. split; [reflexivity|].
  apply (birthday_on_today_never_reported
           (Datetime.mkdatetime 2024 6 12 10 30 0 0) 7
           [(lit "Ann", mkRecord (lit "Ann") []
               (Some (mkBirthday (Datetime.mkdatetime 1990 6 12 0 0 0 0))))]
           []).
  - split; reflexivity.
  - discriminate.
  - discriminate.
  - repeat constructor.
  - reflexivity.
Defined.

(** * Sample runs *)

Example strptime_ex1 :
  Datetime.strptime (lit "29.02.2024")
  = Some (Datetime.mkdatetime 2024 2 29 0 0 0 0).
Proof. reflexivity. Qed.

Example strptime_ex2 : Datetime.strptime (lit "29.02.2023") = None.
Proof. reflexivity. Qed.

Example strptime_ex3 :
  Datetime.strptime (lit "1.1.2024")
  = Some (Datetime.mkdatetime 2024 1 1 0 0 0 0).
Proof. reflexivity. Qed.

Example strptime_ex5 :
  Datetime.strptime (lit " 1.1.2024")
  = Some (Datetime.mkdatetime 2024 1 1 0 0 0 0).
Proof. reflexivity. Qed.

Example strptime_ex4 : Datetime.strptime (lit "01.01.2024 ") = None.
Proof. reflexivity. Qed.

Example strftime_ex1 :
  Datetime.strftime Datetime.Glibc (Datetime.mkdatetime 999 1 1 0 0 0 0)
  = lit "01.01.999".
Proof. reflexivity. Qed.

Example ord2ymd_ex1 : Datetime.ord2ymd 3652059 = (9999, 12, 31)%Z.
Proof. reflexivity. Qed.

Example weekday_ex1 :
  Datetime.weekday (Datetime.mkdatetime 9999 12 31 0 0 0 0) = 4%Z.
Proof. reflexivity. Qed.

Example weekday_ex2 :
  Datetime.weekday (Datetime.mkdatetime 2026 11 3 0 0 0 0) = 1%Z.
Proof. reflexivity. Qed.

Example add_phone_twice :
  let s0 := mkRS 0 (Record_init (lit "Alice")) in
  let s1 := snd (add_phone (lit "0123456789") s0) in
  add_phone (lit "0123456789") s1
  = (inr tt,
     mkRS 2 (mkRecord (lit "Alice")
               [mkPhone 0 (lit "0123456789"); mkPhone 1 (lit "0123456789")]
               None)).
Proof. reflexivity. Qed.

Example main_add_twice :
  let env := mkEnv (Datetime.mkdatetime 2024 6 12 10 30 0 0) Datetime.Glibc in
  let w0 := mkWorld 0 [] [] in
  let w1 := snd (main_step env (lit "add") [lit "Alice"; lit "0123456789"] w0) in
  let w2 := snd (main_step env (lit "add") [lit "Alice"; lit "0123456789"] w1) in
  console w2 = [lit "Contact added."; lit "Contact updated."]
  /\ option_map (fun r => map phone_value (phones r)) (find (lit "Alice") (book w2))
     = Some [lit "0123456789"; lit "0123456789"].
Proof. split; reflexivity. Qed.

Example main_add_missing_phone :
  let env := mkEnv (Datetime.mkdatetime 2024 6 12 10 30 0 0) Datetime.Glibc in
  let w0 := mkWorld 0 [] [] in
  add_contact [lit "Alice"] w0
  = (inr (Some (lit "ValueError: not enough values to unpack (expected at least 2, got 1)")), w0)
  /\ main_step env (lit "add") [lit "Alice"] w0 = (inr Continue, w0).
Proof. split; reflexivity. Qed.

Example adjust_saturday :
  adjust_for_weekend (Datetime.mkdatetime 2024 6 15 10 30 0 0)
  = inr (Datetime.mkdatetime 2024 6 17 10 30 0 0).
Proof. reflexivity. Qed.

Example adjust_sunday :
  adjust_for_weekend (Datetime.mkdatetime 2024 6 16 0 0 0 0)
  = inr (Datetime.mkdatetime 2024 6 17 0 0 0 0).
Proof. reflexivity. Qed.

Example upcoming_new_year :
  let carol := mkRecord (lit "Carol") []
                 (Some (mkBirthday (Datetime.mkdatetime 1985 1 1 0 0 0 0))) in
  get_upcoming_birthdays (Datetime.mkdatetime 2024 12 30 9 0 0 0) 7
    [(lit "Carol", carol)]
  = inr [(carol, Datetime.mkdatetime 2025 1 1 0 0 0 0)].
Proof. reflexivity. Qed.
